(** * The download manager of the ChromeOS recovery-image downloader

    A shallow embedding of [src/download_manager.py]: the task record, the
    worker [_download_file] (resume, pause wait, speed limit, retry decision)
    and the scheduler [HttpxDownloadManager] (admission under a concurrency
    ceiling), followed by the properties of the specification that concern
    them.

    Conventions of the embedding.
    - Python [int] is [Z]; Python [float] is idealised as a rational [Q]
      (only [progress], [download_speed], [eta], clock readings and sleep
      lengths are floats).
    - Task objects are shared and mutated in place: they live in a heap
      (a list indexed by object identity) and the manager's [tasks] list
      holds identities.
    - Code that can raise is written in a state-and-exception monad; a
      mutation made before a [raise] stays, as in Python.
    - The operating system is an explicit input: the files, the answer of
      the HTTP server, the clock, and the writes to [paused] and [stopped]
      made by other threads while the worker runs.  A [content-length]
      header, when present, is a number.  Callbacks return normally and do
      not touch the manager; their calls are recorded as events.
    - The lock [download_lock] makes [_start_next_download] and the
      decrement of [active_downloads] atomic: each is one action of the
      transition system of the scheduler. *)

From Stdlib Require Import ZArith QArith Ascii String List Lia Bool.
From stdpp Require Import base gmap list strings pretty.
Close Scope Q_scope.
Open Scope Z_scope.

(** ** Data model *)

(** [class DownloadStatus(Enum)] *)
Inductive DownloadStatus :=
  | QUEUED
  | DOWNLOADING
  | PAUSED
  | COMPLETED
  | ERROR
  | STOPPED.

#[global] Instance DownloadStatus_eq_dec : EqDecision DownloadStatus.
Proof. solve_decision. Defined.

Definition bytes := list Byte.byte.

(** [class DownloadTask].  The [thread] attribute is represented by the
    thread pool of the scheduler model below. *)
Record DownloadTask := mkTask {
  url : string;
  destination : string;
  filename : string;
  metadata : list (string * string);
  status : DownloadStatus;
  progress : Q;
  download_speed : Z;
  eta : Z;
  error_message : string;
  total_size : Z;
  downloaded_size : Z;
  paused : bool;
  stopped : bool;
  retry_count : Z
}.

(** [DownloadTask.__init__] *)
Definition new_task (u d f : string) (md : list (string * string)) : DownloadTask :=
  {| url := u; destination := d; filename := f; metadata := md;
     status := QUEUED; progress := 0%Q; download_speed := 0; eta := 0;
     error_message := ""; total_size := 0; downloaded_size := 0;
     paused := false; stopped := false; retry_count := 0 |}.

Definition set_status (s : DownloadStatus) (t : DownloadTask) : DownloadTask :=
  mkTask (url t) (destination t) (filename t) (metadata t) s (progress t)
    (download_speed t) (eta t) (error_message t) (total_size t)
    (downloaded_size t) (paused t) (stopped t) (retry_count t).

Definition set_progress (p : Q) (t : DownloadTask) : DownloadTask :=
  mkTask (url t) (destination t) (filename t) (metadata t) (status t) p
    (download_speed t) (eta t) (error_message t) (total_size t)
    (downloaded_size t) (paused t) (stopped t) (retry_count t).

Definition set_download_speed (v : Z) (t : DownloadTask) : DownloadTask :=
  mkTask (url t) (destination t) (filename t) (metadata t) (status t) (progress t)
    v (eta t) (error_message t) (total_size t)
    (downloaded_size t) (paused t) (stopped t) (retry_count t).

Definition set_eta (v : Z) (t : DownloadTask) : DownloadTask :=
  mkTask (url t) (destination t) (filename t) (metadata t) (status t) (progress t)
    (download_speed t) v (error_message t) (total_size t)
    (downloaded_size t) (paused t) (stopped t) (retry_count t).

Definition set_error_message (m : string) (t : DownloadTask) : DownloadTask :=
  mkTask (url t) (destination t) (filename t) (metadata t) (status t) (progress t)
    (download_speed t) (eta t) m (total_size t)
    (downloaded_size t) (paused t) (stopped t) (retry_count t).

Definition set_total_size (v : Z) (t : DownloadTask) : DownloadTask :=
  mkTask (url t) (destination t) (filename t) (metadata t) (status t) (progress t)
    (download_speed t) (eta t) (error_message t) v
    (downloaded_size t) (paused t) (stopped t) (retry_count t).

Definition set_downloaded_size (v : Z) (t : DownloadTask) : DownloadTask :=
  mkTask (url t) (destination t) (filename t) (metadata t) (status t) (progress t)
    (download_speed t) (eta t) (error_message t) (total_size t)
    v (paused t) (stopped t) (retry_count t).

Definition set_paused (b : bool) (t : DownloadTask) : DownloadTask :=
  mkTask (url t) (destination t) (filename t) (metadata t) (status t) (progress t)
    (download_speed t) (eta t) (error_message t) (total_size t)
    (downloaded_size t) b (stopped t) (retry_count t).

Definition set_stopped (b : bool) (t : DownloadTask) : DownloadTask :=
  mkTask (url t) (destination t) (filename t) (metadata t) (status t) (progress t)
    (download_speed t) (eta t) (error_message t) (total_size t)
    (downloaded_size t) (paused t) b (retry_count t).

Definition set_retry_count (v : Z) (t : DownloadTask) : DownloadTask :=
  mkTask (url t) (destination t) (filename t) (metadata t) (status t) (progress t)
    (download_speed t) (eta t) (error_message t) (total_size t)
    (downloaded_size t) (paused t) (stopped t) v.

(** [os.path.join] on two components, POSIX flavour. *)
Definition ends_with_slash (a : string) : bool :=
  match String.rev a with  (* last character *)
  | String c _ => bool_decide (c = "/"%char)
  | EmptyString => false
  end.

Definition os_path_join (a b : string) : string :=
  if String.prefix "/" b then b
  else if bool_decide (a = "") || ends_with_slash a then a +:+ b
  else a +:+ "/" +:+ b.

(** [DownloadTask.full_path] *)
Definition full_path (t : DownloadTask) : string :=
  os_path_join (destination t) (filename t).

(** [temp_file = task.full_path + ".tmp"] *)
Definition temp_file (t : DownloadTask) : string := full_path t +:+ ".tmp".

(** ** The file system

    One name space of paths; a path holds a regular file or a directory.
    Parent directories are not tracked. *)
Inductive Node :=
  | File (content : bytes)
  | Dir.

Abbreviation FS := (gmap string Node).

(** [os.path.exists] *)
Definition os_path_exists (fs : FS) (p : string) : bool :=
  bool_decide (is_Some (fs !! p)).

(** [DownloadTask.exists] *)
Definition exists_ (t : DownloadTask) (fs : FS) : bool :=
  os_path_exists fs (full_path t).

(** What the platform reports as the size of a directory entry. *)
Definition dir_size : Z := 4096.

(** ** Exceptions, events and the worker monad *)

(** The classes of exception the worker can meet.  [StopException] and
    [HttpException] are both plain [Exception] in the source; they are told
    apart here by the place that raises them. *)
Inductive ExcClass :=
  | StopException        (* raise Exception("Download stopped...") *)
  | HttpException        (* raise Exception(f"HTTP {status}") *)
  | TransportError       (* raised by httpx *)
  | OSError
  | ValueError
  | ZeroDivisionError.

#[global] Instance ExcClass_eq_dec : EqDecision ExcClass.
Proof. solve_decision. Defined.

Record PyException := mkExc { exc_class : ExcClass; exc_msg : string }.

(** [str(e)] *)
Definition str (e : PyException) : string := exc_msg e.

Inductive SleepSite := PausePoll | Throttle | Backoff.

#[global] Instance SleepSite_eq_dec : EqDecision SleepSite.
Proof. solve_decision. Defined.

(** What a thread does to the outside world, in order. *)
Inductive Event :=
  | EvRequest (method : string) (target : string) (headers : list (string * string))
  | EvOpen (path : string) (mode : string)
  | EvRemove (path : string)
  | EvRename (src dst : string)
  | EvMakedirs (path : string)
  | EvSleep (site : SleepSite) (seconds : Q)
  | EvUpdateCallback
  | EvCompletionCallback (arg : DownloadTask)
  | EvThreadStart (task_id : nat).

(** How a piece of code ends: normally, by raising, or never (a pause
    that is not lifted within the observed behaviour of the user). *)
Inductive Outcome (A : Type) :=
  | Return (a : A)
  | Raise (e : PyException)
  | Hang.
Arguments Return {A} a.
Arguments Raise {A} e.
Arguments Hang {A}.

(** Code running on a state [S]: mutations made before a [raise] stay. *)
Definition Prog (S A : Type) : Type := S → Outcome A * S.

Definition pret {S A} (a : A) : Prog S A := λ s, (Return a, s).

Definition pbind {S A B} (m : Prog S A) (k : A → Prog S B) : Prog S B :=
  λ s, match m s with
       | (Return a, s') => k a s'
       | (Raise e, s') => (Raise e, s')
       | (Hang, s') => (Hang, s')
       end.

#[global] Instance Prog_ret {S} : MRet (Prog S) := @pret S.
#[global] Instance Prog_bind {S} : MBind (Prog S) := λ A B k m, pbind m k.

Definition raise {S A} (c : ExcClass) (msg : string) : Prog S A :=
  λ s, (Raise (mkExc c msg), s).

Definition hang {S A} : Prog S A := λ s, (Hang, s).

Definition when {S} (b : bool) (m : Prog S unit) : Prog S unit :=
  if b then m else mret tt.

(** [try: m except: pass] *)
Definition try_pass {S} (m : Prog S unit) : Prog S unit :=
  λ s, match m s with
       | (Raise _, s') => (Return tt, s')
       | r => r
       end.

(** The part of the world one worker acts on: its task object, the file
    system, and the events it has produced. *)
Record Proc := mkProc {
  p_task : DownloadTask;
  p_fs : FS;
  p_log : list Event
}.

Abbreviation Worker := (Prog Proc).

Definition get_task : Worker DownloadTask := λ p, (Return (p_task p), p).

Definition get_fs : Worker FS := λ p, (Return (p_fs p), p).

Definition modify_task (f : DownloadTask → DownloadTask) : Worker unit :=
  λ p, (Return tt, mkProc (f (p_task p)) (p_fs p) (p_log p)).

Definition put_fs (fs : FS) : Worker unit :=
  λ p, (Return tt, mkProc (p_task p) fs (p_log p)).

Definition emit (e : Event) : Worker unit :=
  λ p, (Return tt, mkProc (p_task p) (p_fs p) (p_log p ++ [e])).

(** ** Operating-system calls used by the worker *)

Definition path_exists (path : string) : Worker bool :=
  fs ← get_fs; mret (os_path_exists fs path).

(** [os.path.getsize] *)
Definition os_path_getsize (path : string) : Worker Z :=
  fs ← get_fs;
  match fs !! path with
  | Some (File c) => mret (Z.of_nat (length c))
  | Some Dir => mret dir_size
  | None => raise OSError "No such file or directory"
  end.

(** [open(path, mode)] for the modes ['wb'] (create or truncate) and
    ['ab'] (create or keep). *)
Definition py_open (path mode : string) : Worker unit :=
  fs ← get_fs;
  match fs !! path with
  | Some Dir => raise OSError "Is a directory"
  | Some (File c) =>
      emit (EvOpen path mode);;
      if bool_decide (mode = "wb") then put_fs (<[path := File []]> fs) else mret tt
  | None =>
      emit (EvOpen path mode);;
      put_fs (<[path := File []]> fs)
  end.

(** [f.write(chunk)] on the file opened at [path]. *)
Definition f_write (path : string) (data : bytes) : Worker unit :=
  fs ← get_fs;
  match fs !! path with
  | Some (File c) => put_fs (<[path := File (c ++ data)]> fs)
  | _ => mret tt
  end.

(** [os.remove] *)
Definition os_remove (path : string) : Worker unit :=
  fs ← get_fs;
  match fs !! path with
  | Some (File _) => emit (EvRemove path);; put_fs (delete path fs)
  | Some Dir => raise OSError "Is a directory"
  | None => raise OSError "No such file or directory"
  end.

(** [os.rename] *)
Definition os_rename (src dst : string) : Worker unit :=
  fs ← get_fs;
  match fs !! src with
  | None => raise OSError "No such file or directory"
  | Some n =>
      match n, fs !! dst with
      | File _, Some Dir => raise OSError "Is a directory"
      | Dir, Some (File _) => raise OSError "Not a directory"
      | _, _ => emit (EvRename src dst);; put_fs (<[dst := n]> (delete src fs))
      end
  end.

(** [time.sleep] *)
Definition time_sleep (site : SleepSite) (seconds : Q) : Worker unit :=
  if Qle_bool 0 seconds then emit (EvSleep site seconds)
  else raise ValueError "sleep length must be non-negative".

(** True division [a / b]. *)
Definition py_truediv (a b : Q) : Worker Q :=
  if Qeq_bool b 0 then raise ZeroDivisionError "division by zero"
  else mret (Qred (a / b)).

(** [int(x)] on a float: truncation towards zero. *)
Definition py_int (x : Q) : Z := Z.quot (Qnum x) (Z.pos (Qden x)).

(** ** The manager *)

(** [class HttpxDownloadManager].  A callback attribute is [true] when a
    callable is registered and [false] when it is [None]; [tasks] holds the
    identities of the task objects; [download_lock] is rendered by the
    atomicity of the code it protects. *)
Record Manager := mkManager {
  max_concurrent_downloads : Z;
  max_download_speed : option Z;
  completion_callback : bool;
  max_retries : Z;
  tasks : list nat;
  update_callback : bool;
  active_downloads : Z
}.

(** [HttpxDownloadManager.__init__] *)
Definition new_manager (mcd : Z) (mds : option Z) (cc : bool) (mr : Z) : Manager :=
  {| max_concurrent_downloads := mcd; max_download_speed := mds;
     completion_callback := cc; max_retries := mr;
     tasks := []; update_callback := false; active_downloads := 0 |}.

(** ** The environment of one transfer attempt *)

(** A write to a control flag of the task by another thread. *)
Inductive FlagWrite :=
  | SetPaused (b : bool)
  | SetStopped (b : bool).

Definition apply_write (t : DownloadTask) (w : FlagWrite) : DownloadTask :=
  match w with
  | SetPaused b => set_paused b t
  | SetStopped b => set_stopped b t
  end.

(** One iteration of [for chunk in response.iter_bytes(...)]: the chunk;
    the flag writes that land before the worker reads [stopped] (line 153),
    between that and its reading [paused] (line 156), during each
    [time.sleep(0.1)] of the pause wait (line 159), and between the end of
    the wait and the second reading of [stopped] (line 160); and the value of
    [time.time()] after the chunk is written. *)
Record ChunkEnv := mkChunk {
  chunk : bytes;
  writes_before : list FlagWrite;
  writes_mid : list FlagWrite;
  polls : list (list FlagWrite);
  writes_late : list FlagWrite;
  clock : Q
}.

Inductive StreamEnd :=
  | EndOfBody
  | ReadError (msg : string).

(** What [httpx.stream("GET", ...)] does: fail before a response, or give
    a status code, the [content-length] header if any, and a body. *)
Inductive HttpResult :=
  | ConnectError (msg : string)
  | Response (status_code : Z) (content_length : option Z)
             (body : list ChunkEnv) (ending : StreamEnd).

Record AttemptEnv := mkEnv {
  server : HttpResult;
  start_time : Q
}.

(** ** The worker: [HttpxDownloadManager._download_file] *)

Definition deliver (ws : list FlagWrite) : Worker unit :=
  modify_task (λ t, fold_left apply_write ws t).

(** Lines 158-159: [while task.paused and not task.stopped: time.sleep(0.1)] *)
Fixpoint wait_while_paused (ps : list (list FlagWrite)) : Worker unit :=
  t ← get_task;
  if paused t && negb (stopped t) then
    match ps with
    | [] => hang
    | ws :: rest =>
        time_sleep PausePoll (1 # 10);;
        deliver ws;;
        wait_while_paused rest
    end
  else mret tt.

(** Lines 186-188: the speed limit. *)
Definition apply_speed_limit (m : Manager) (len : Z) : Worker unit :=
  match max_download_speed m with
  | None => mret tt
  | Some speed =>
      if bool_decide (speed = 0) then mret tt
      else
        d ← py_truediv (inject_Z len) (inject_Z (speed * 1024));
        time_sleep Throttle d
  end.

(** Lines 153-188: the body of the chunk loop.  Returns [last_update]. *)
Definition process_chunk (m : Manager) (temp : string) (started : Q)
    (c : ChunkEnv) (last_update : Q) : Worker Q :=
  deliver (writes_before c);;
  t ← get_task;
  when (stopped t) (raise StopException "Download stopped by user");;
  deliver (writes_mid c);;
  t ← get_task;
  when (paused t) (
    modify_task (set_status PAUSED);;
    wait_while_paused (polls c);;
    deliver (writes_late c);;
    t ← get_task;
    when (stopped t) (raise StopException "Download stopped");;
    modify_task (set_status DOWNLOADING));;
  f_write temp (chunk c);;
  let len := Z.of_nat (length (chunk c)) in
  modify_task (λ t, set_downloaded_size (downloaded_size t + len) t);;
  let current_time := clock c in
  t ← get_task;
  when (0 <? total_size t) (
    r ← py_truediv (inject_Z (downloaded_size t)) (inject_Z (total_size t));
    modify_task (set_progress (Qred (r * 100))));;
  let elapsed := (current_time - started)%Q in
  when (negb (Qle_bool elapsed 0)) (
    t ← get_task;
    r ← py_truediv (inject_Z (downloaded_size t)) elapsed;
    modify_task (set_download_speed (py_int r));;
    t ← get_task;
    when ((0 <? download_speed t) && (0 <? total_size t)) (
      let remaining := total_size t - downloaded_size t in
      r ← py_truediv (inject_Z remaining) (inject_Z (download_speed t));
      modify_task (set_eta (py_int r))));;
  last_update' ←
    (if negb (Qle_bool (current_time - last_update) (1 # 2)) then
       when (update_callback m) (emit EvUpdateCallback);;
       mret current_time
     else mret last_update);
  apply_speed_limit m len;;
  mret last_update'.

(** Lines 152-188: the chunk loop over the response body. *)
Fixpoint stream_body (m : Manager) (temp : string) (started : Q)
    (body : list ChunkEnv) (ending : StreamEnd) (last_update : Q) : Worker unit :=
  match body with
  | [] =>
      match ending with
      | EndOfBody => mret tt
      | ReadError msg => raise TransportError msg
      end
  | c :: rest =>
      last_update' ← process_chunk m temp started c last_update;
      stream_body m temp started rest ending last_update'
  end.

(** Lines 116-120: the resume point. *)
Definition resume_point (temp : string) : Worker Z :=
  ex ← path_exists temp;
  if ex : bool then
    start_byte ← os_path_getsize temp;
    modify_task (set_downloaded_size start_byte);;
    mret start_byte
  else mret 0.

(** Lines 122-124 *)
Definition range_headers (start_byte : Z) : list (string * string) :=
  if 0 <? start_byte then [("Range", "bytes=" +:+ pretty start_byte +:+ "-")]
  else [].

(** Line 150 *)
Definition open_mode (start_byte : Z) : string :=
  if 0 <? start_byte then "ab" else "wb".

(** Lines 127-188: the [with httpx.stream(...) as response] block. *)
Definition receive (m : Manager) (temp : string) (start_byte : Z)
    (env : AttemptEnv) : Worker unit :=
  match server env with
  | ConnectError msg => raise TransportError msg
  | Response status_code content_length body ending =>
      when (negb (bool_decide (status_code = 200)) && negb (bool_decide (status_code = 206)))
        (raise HttpException ("HTTP " +:+ pretty status_code));;
      match content_length with
      | Some n => modify_task (set_total_size (start_byte + n))
      | None =>
          when (bool_decide (status_code = 200)) (modify_task (set_total_size 0))
      end;;
      py_open temp (open_mode start_byte);;
      stream_body m temp (start_time env) body ending (start_time env)
  end.

(** Lines 116-188: from the resume point to the end of the stream. *)
Definition transfer (m : Manager) (env : AttemptEnv) : Worker unit :=
  t ← get_task;
  let temp := temp_file t in
  start_byte ← resume_point temp;
  let headers := range_headers start_byte in
  emit (EvRequest "GET" (url t) headers);;
  receive m temp start_byte env.

(** Lines 190-200: the download is complete. *)
Definition finish (m : Manager) : Worker unit :=
  t ← get_task;
  ex ← path_exists (full_path t);
  when ex (os_remove (full_path t));;
  os_rename (temp_file t) (full_path t);;
  modify_task (set_status COMPLETED);;
  modify_task (set_progress 100);;
  when (completion_callback m) (t ← get_task; emit (EvCompletionCallback t)).

(** Lines 115-200: the [try] block. *)
Definition try_block (m : Manager) (env : AttemptEnv) : Worker unit :=
  transfer m env;; finish m.

(** Lines 202-221: the [except Exception as e] block. *)
Definition except_block (m : Manager) (e : PyException) : Worker unit :=
  t ← get_task;
  let temp := temp_file t in
  modify_task (set_error_message (str e));;
  t ← get_task;
  if retry_count t <? max_retries m then
    modify_task (set_retry_count (retry_count t + 1));;
    modify_task (set_status QUEUED);;
    when (update_callback m) (emit EvUpdateCallback);;
    time_sleep Backoff 2
  else
    modify_task (set_status ERROR);;
    ex ← path_exists temp;
    when ex (try_pass (os_remove temp)).

(** Lines 115-221: [try ... except Exception ...]. *)
Definition attempt (m : Manager) (env : AttemptEnv) : Worker unit :=
  λ p, match try_block m env p with
       | (Raise e, p') => except_block m e p'
       | r => r
       end.

(** ** The shared world: heap of task objects, manager, files, threads *)

(** Where a worker thread is in [_download_file]: inside [try/except]
    (lines 113-221), between the [except] block and the release of its slot
    (line 224), between the release and the admission of the next task
    (lines 227-231), or ended. *)
Inductive Phase :=
  | Running
  | Releasing
  | Admitting
  | Finished.

#[global] Instance Phase_eq_dec : EqDecision Phase.
Proof. solve_decision. Defined.

Record World := mkWorld {
  w_heap : list DownloadTask;
  w_mgr : Manager;
  w_fs : FS;
  w_threads : list (nat * Phase);
  w_log : list Event
}.

#[global] Instance DownloadTask_inhabited : Inhabited DownloadTask :=
  populate (new_task "" "" "" []).

Definition set_tasks (l : list nat) (m : Manager) : Manager :=
  mkManager (max_concurrent_downloads m) (max_download_speed m)
    (completion_callback m) (max_retries m) l (update_callback m)
    (active_downloads m).

Definition set_active_downloads (n : Z) (m : Manager) : Manager :=
  mkManager (max_concurrent_downloads m) (max_download_speed m)
    (completion_callback m) (max_retries m) (tasks m) (update_callback m) n.

(** [HttpxDownloadManager.set_update_callback] with a callable. *)
Definition set_update_callback (m : Manager) : Manager :=
  mkManager (max_concurrent_downloads m) (max_download_speed m)
    (completion_callback m) (max_retries m) (tasks m) true
    (active_downloads m).

(** [os.makedirs(path, exist_ok=True)] *)
Definition os_makedirs (fs : FS) (path : string) : PyException + FS :=
  if bool_decide (path = "") then inl (mkExc OSError "No such file or directory")
  else
    match fs !! path with
    | Some Dir => inr fs
    | Some (File _) => inl (mkExc OSError "File exists")
    | None => inr (<[path := Dir]> fs)
    end.

(** The loop of lines 99-109, up to its [break]: the first task of the
    list whose status is QUEUED. *)
Fixpoint first_queued (h : list DownloadTask) (ids : list nat) : option nat :=
  match ids with
  | [] => None
  | i :: rest =>
      if bool_decide (status (h !!! i) = QUEUED) then Some i
      else first_queued h rest
  end.

(** [HttpxDownloadManager._start_next_download], one critical section. *)
Definition _start_next_download (w : World) : World :=
  let m := w_mgr w in
  if bool_decide (max_concurrent_downloads m ≤ active_downloads m) then w
  else
    match first_queued (w_heap w) (tasks m) with
    | None => w
    | Some i =>
        {| w_heap := alter (set_status DOWNLOADING) i (w_heap w);
           w_mgr := set_active_downloads (active_downloads m + 1) m;
           w_fs := w_fs w;
           w_threads := w_threads w ++ [(i, Running)];
           w_log := w_log w ++ [EvThreadStart i] |}
    end.

(** [HttpxDownloadManager.add_download] on the task object [tid]. *)
Definition add_download (tid : nat) : Prog World bool :=
  λ w,
    let task := w_heap w !!! tid in
    if exists_ task (w_fs w) then
      (Return false,
       {| w_heap := alter (λ t, set_progress 100 (set_status COMPLETED t)) tid (w_heap w);
          w_mgr := set_tasks (tasks (w_mgr w) ++ [tid]) (w_mgr w);
          w_fs := w_fs w;
          w_threads := w_threads w;
          w_log := w_log w |})
    else
      match os_makedirs (w_fs w) (destination task) with
      | inl e => (Raise e, w)
      | inr fs' =>
          (Return true,
           _start_next_download
             {| w_heap := w_heap w;
                w_mgr := set_tasks (tasks (w_mgr w) ++ [tid]) (w_mgr w);
                w_fs := fs';
                w_threads := w_threads w;
                w_log := w_log w ++ [EvMakedirs (destination task)] |})
      end.

Definition update_task (tid : nat) (f : DownloadTask → DownloadTask) (w : World) : World :=
  {| w_heap := alter f tid (w_heap w); w_mgr := w_mgr w; w_fs := w_fs w;
     w_threads := w_threads w; w_log := w_log w |}.

(** [HttpxDownloadManager.pause_download] *)
Definition pause_download (tid : nat) (w : World) : World :=
  if bool_decide (status (w_heap w !!! tid) = DOWNLOADING)
  then update_task tid (set_paused true) w else w.

(** [HttpxDownloadManager.resume_download] *)
Definition resume_download (tid : nat) (w : World) : World :=
  if bool_decide (status (w_heap w !!! tid) = PAUSED)
  then update_task tid (set_paused false) w else w.

(** [HttpxDownloadManager.get_active_downloads_count] *)
Definition get_active_downloads_count (w : World) : Z :=
  Z.of_nat (length (filter (λ i, status (w_heap w !!! i) = DOWNLOADING)
                           (tasks (w_mgr w)))).

(** [HttpxDownloadManager.cleanup_completed] *)
Definition cleanup_completed (w : World) : World :=
  {| w_heap := w_heap w;
     w_mgr := set_tasks (filter (λ i, status (w_heap w !!! i) ≠ COMPLETED)
                                (tasks (w_mgr w))) (w_mgr w);
     w_fs := w_fs w; w_threads := w_threads w; w_log := w_log w |}.

(** The [try/except] of [_download_file] run by a thread on the task
    object [tid] of the shared world. *)
Definition run_attempt (tid : nat) (env : AttemptEnv) : Prog World unit :=
  λ w,
    let '(r, p) := attempt (w_mgr w) env
                     (mkProc (w_heap w !!! tid) (w_fs w) (w_log w)) in
    (r, {| w_heap := <[tid := p_task p]> (w_heap w); w_mgr := w_mgr w;
           w_fs := p_fs p; w_threads := w_threads w; w_log := p_log p |}).

(** Lines 224-228: the slot is given back, observers are told. *)
Definition release_slot (w : World) : World :=
  {| w_heap := w_heap w;
     w_mgr := set_active_downloads (active_downloads (w_mgr w) - 1) (w_mgr w);
     w_fs := w_fs w; w_threads := w_threads w;
     w_log := w_log w ++ (if update_callback (w_mgr w) then [EvUpdateCallback] else []) |}.

(** Lines 223-231: the [finally] block. *)
Definition finally_block (w : World) : World :=
  _start_next_download (release_slot w).

(** [HttpxDownloadManager._download_file], run without interference. *)
Definition _download_file (tid : nat) (env : AttemptEnv) : Prog World unit :=
  λ w, match run_attempt tid env w with
       | (Hang, w') => (Hang, w')
       | (r, w') => (r, finally_block w')
       end.

(** ** The life of one task, attempt after attempt

    While a task is QUEUED the scheduler admits it (line 102) and a worker
    makes one attempt (lines 113-221).  [life] replays this for a list of
    attempt environments and records how the [try] block of each attempt
    ended. *)
Definition admitted (p : Proc) : Proc :=
  mkProc (set_status DOWNLOADING (p_task p)) (p_fs p) (p_log p).

Fixpoint life (m : Manager) (envs : list AttemptEnv) (p : Proc)
    : list (Outcome unit) * Proc :=
  match envs with
  | [] => ([], p)
  | env :: rest =>
      if bool_decide (status (p_task p) = QUEUED) then
        let tried := fst (try_block m env (admitted p)) in
        match attempt m env (admitted p) with
        | (Return _, p') =>
            let '(h, p'') := life m rest p' in (tried :: h, p'')
        | (_, p') => ([tried], p')
        end
      else ([], p)
  end.

Definition failed (o : Outcome unit) : Prop :=
  match o with Raise _ => True | _ => False end.

(** A failure that is not a stop requested by the user. *)
Definition failed_not_stopped (o : Outcome unit) : Prop :=
  match o with Raise e => exc_class e ≠ StopException | _ => False end.

(** The message of the most recent failure in a history of attempts. *)
Definition last_failure (h : list (Outcome unit)) : option string :=
  last (omap (λ o, match o with Raise e => Some (str e) | _ => None end) h).

(** How often the completion callback has been called. *)
Definition is_completion (e : Event) : bool :=
  match e with EvCompletionCallback _ => true | _ => false end.

Definition completions (l : list Event) : nat :=
  length (filter (λ e, is_completion e = true) l).

Definition is_throttle (e : Event) : bool :=
  match e with EvSleep Throttle _ => true | _ => false end.

(** ** The scheduler as a transition system *)

(** [HttpxDownloadManager(...)] on a given file system. *)
Definition init_world (mcd : Z) (mds : option Z) (cc : bool) (mr : Z) (fs : FS) : World :=
  {| w_heap := []; w_mgr := new_manager mcd mds cc mr; w_fs := fs;
     w_threads := []; w_log := [] |}.

(** The caller builds a task and hands it to the manager:
    [task = DownloadTask(...); manager.add_download(task)]. *)
Definition submit (u d f : string) (md : list (string * string)) : Prog World bool :=
  λ w, add_download (length (w_heap w))
         {| w_heap := w_heap w ++ [new_task u d f md]; w_mgr := w_mgr w;
            w_fs := w_fs w; w_threads := w_threads w; w_log := w_log w |}.

Definition set_phase (i : nat) (tid : nat) (ph : Phase) (w : World) : World :=
  {| w_heap := w_heap w; w_mgr := w_mgr w; w_fs := w_fs w;
     w_threads := <[i := (tid, ph)]> (w_threads w); w_log := w_log w |}.

Definition register_update_callback (w : World) : World :=
  {| w_heap := w_heap w; w_mgr := set_update_callback (w_mgr w); w_fs := w_fs w;
     w_threads := w_threads w; w_log := w_log w |}.

(** One atomic action of some thread.  A worker's [try/except] is one
    action; the two status writes of its pause wait (lines 157 and 162) are
    also actions of their own, so that PAUSED is visible to the others. *)
Inductive step (w : World) : World → Prop :=
  | step_submit u d f md :
      step w (snd (submit u d f md w))
  | step_attempt i tid env :
      w_threads w !! i = Some (tid, Running) →
      fst (run_attempt tid env w) ≠ Hang →
      step w (set_phase i tid Releasing (snd (run_attempt tid env w)))
  | step_pause_seen i tid :
      w_threads w !! i = Some (tid, Running) →
      paused (w_heap w !!! tid) = true →
      step w (update_task tid (set_status PAUSED) w)
  | step_resume_seen i tid :
      w_threads w !! i = Some (tid, Running) →
      status (w_heap w !!! tid) = PAUSED →
      paused (w_heap w !!! tid) = false →
      stopped (w_heap w !!! tid) = false →
      step w (update_task tid (set_status DOWNLOADING) w)
  | step_release i tid :
      w_threads w !! i = Some (tid, Releasing) →
      step w (set_phase i tid Admitting (release_slot w))
  | step_admit i tid :
      w_threads w !! i = Some (tid, Admitting) →
      step w (_start_next_download (set_phase i tid Finished w))
  | step_pause_download tid :
      step w (pause_download tid w)
  | step_resume_download tid :
      step w (resume_download tid w)
  | step_flag_write tid fw :
      step w (update_task tid (λ t, apply_write t fw) w)
  | step_cleanup_completed :
      step w (cleanup_completed w)
  | step_set_update_callback :
      step w (register_update_callback w).

Definition reachable (w0 w : World) : Prop := rtc step w0 w.

Definition holds_slot (th : nat * Phase) : bool :=
  match snd th with Running | Releasing => true | _ => false end.

Definition running_ids (ths : list (nat * Phase)) : list nat :=
  omap (λ th, match snd th with Running => Some (fst th) | _ => None end) ths.

(** The number of threads that hold a slot of [active_downloads]. *)
Definition slots (ths : list (nat * Phase)) : nat :=
  length (filter (λ th, holds_slot th = true) ths).

(** What every reachable world satisfies. *)
Record Inv (w : World) : Prop := mkInv {
  inv_tasks_nodup : NoDup (tasks (w_mgr w));
  inv_tasks_valid : ∀ i, i ∈ tasks (w_mgr w) → (i < length (w_heap w))%nat;
  inv_threads_valid : ∀ th, th ∈ w_threads w → (fst th < length (w_heap w))%nat;
  inv_active : active_downloads (w_mgr w) = Z.of_nat (slots (w_threads w));
  inv_bound : active_downloads (w_mgr w) ≤ Z.max 0 (max_concurrent_downloads (w_mgr w));
  inv_running_nodup : NoDup (running_ids (w_threads w));
  inv_status : ∀ tid, (tid < length (w_heap w))%nat →
               (status (w_heap w !!! tid) = DOWNLOADING ∨ status (w_heap w !!! tid) = PAUSED)
               ↔ tid ∈ running_ids (w_threads w);
  inv_retry : ∀ tid, (tid < length (w_heap w))%nat →
              let t := w_heap w !!! tid in
              0 ≤ retry_count t ≤ Z.max 0 (max_retries (w_mgr w))
              ∧ (status t = ERROR → max_retries (w_mgr w) ≤ retry_count t)
}.

(** ** Closed forms used in the statements *)

(** The [except] block puts the task back in the queue (lines 207-213). *)
Definition retry_state (m : Manager) (e : PyException) (p : Proc) : Proc :=
  mkProc
    (set_status QUEUED
       (set_retry_count (retry_count (p_task p) + 1)
          (set_error_message (str e) (p_task p))))
    (p_fs p)
    (p_log p ++ (if update_callback m then [EvUpdateCallback] else [])
             ++ [EvSleep Backoff 2%Q]).

(** The [except] block gives the task up (lines 215-221). *)
Definition error_state (e : PyException) (p : Proc) : Proc :=
  let temp := temp_file (p_task p) in
  let t' := set_status ERROR (set_error_message (str e) (p_task p)) in
  match p_fs p !! temp with
  | Some (File _) => mkProc t' (delete temp (p_fs p)) (p_log p ++ [EvRemove temp])
  | _ => mkProc t' (p_fs p) (p_log p)
  end.

(** The completion (lines 190-200) when the temp file holds [content] and
    no directory sits at [full_path]. *)
Definition finished_state (m : Manager) (content : bytes) (p : Proc) : Proc :=
  let t := p_task p in
  let full := full_path t in
  let temp := temp_file t in
  let existed := os_path_exists (p_fs p) full in
  let fs1 := if existed then delete full (p_fs p) else p_fs p in
  let t' := set_progress 100 (set_status COMPLETED t) in
  mkProc t'
    (<[full := File content]> (delete temp fs1))
    (p_log p ++ (if existed then [EvRemove full] else [])
             ++ [EvRename temp full]
             ++ (if completion_callback m then [EvCompletionCallback t'] else [])).

(** The world in which [add_download] has created the directory and
    appended the task, before it calls [_start_next_download]. *)
Definition enqueued (tid : nat) (fs' : FS) (w : World) : World :=
  {| w_heap := w_heap w;
     w_mgr := set_tasks (tasks (w_mgr w) ++ [tid]) (w_mgr w);
     w_fs := fs';
     w_threads := w_threads w;
     w_log := w_log w ++ [EvMakedirs (destination (w_heap w !!! tid))] |}.

Definition set_max_download_speed (s : option Z) (m : Manager) : Manager :=
  mkManager (max_concurrent_downloads m) s (completion_callback m)
    (max_retries m) (tasks m) (update_callback m) (active_downloads m).

(** ** Conditions on worker code

    [keeps R m]: whatever way [m] ends, the state it leaves is related by
    [R] to the state it started from. *)
Definition keeps (R : Proc → Proc → Prop) {A} (m : Worker A) : Prop :=
  ∀ p, R p (snd (m p)).

(** [ensures Q m]: when [m] returns, [Q] holds. *)
Definition ensures {A} (Q : Proc → Prop) (m : Worker A) : Prop :=
  ∀ p a p', m p = (Return a, p') → Q p'.

(** The worker's [try] block leaves these attributes of its task alone. *)
Definition untouched (p p' : Proc) : Prop :=
  url (p_task p') = url (p_task p)
  ∧ destination (p_task p') = destination (p_task p)
  ∧ filename (p_task p') = filename (p_task p)
  ∧ retry_count (p_task p') = retry_count (p_task p)
  ∧ error_message (p_task p') = error_message (p_task p).

(** A regular file sits at [path]. *)
Definition file_at (path : string) (p : Proc) : Prop :=
  ∃ c, p_fs p !! path = Some (File c).

(** A regular file at [path] stays one. *)
Definition keeps_file (path : string) (p p' : Proc) : Prop :=
  file_at path p → file_at path p'.

(** No directory appears at [path]. *)
Definition no_dir_at (path : string) (p p' : Proc) : Prop :=
  p_fs p !! path ≠ Some Dir → p_fs p' !! path ≠ Some Dir.

(** The events added to the log are not sleeps of the speed limit. *)
Definition no_throttle (p p' : Proc) : Prop :=
  ∃ l, p_log p' = p_log p ++ l ∧ Forall (λ e, is_throttle e = false) l.

(** ** Sample inputs *)

Definition sample_task : DownloadTask :=
  new_task "http://dl.example/image.bin" "/downloads" "image.bin" [].

Definition sample_chunk (n : nat) (now : Q) : ChunkEnv :=
  mkChunk (repeat Byte.x00 n) [] [] [] [] now.

(** The server answers 500. *)
Definition env_http_500 : AttemptEnv :=
  mkEnv (Response 500 None [] EndOfBody) 0%Q.

(** The server sends five bytes in two chunks. *)
Definition env_five_bytes : AttemptEnv :=
  mkEnv (Response 200 (Some 5) [sample_chunk 3 1%Q; sample_chunk 2 2%Q] EndOfBody) 0%Q.

(** The server sends three bytes and the connection breaks. *)
Definition env_broken_after_three : AttemptEnv :=
  mkEnv (Response 200 (Some 5) [sample_chunk 3 1%Q] (ReadError "connection reset")) 0%Q.

(** The server honours a range request from byte 3 and sends the last two
    bytes. *)
Definition env_last_two_bytes : AttemptEnv :=
  mkEnv (Response 206 (Some 2) [sample_chunk 2 1%Q] EndOfBody) 0%Q.

(** The user sets [task.stopped] while the second chunk is awaited. *)
Definition env_stopped_at_second_chunk : AttemptEnv :=
  mkEnv (Response 200 (Some 5)
           [sample_chunk 3 1%Q;
            mkChunk (repeat Byte.x00 2) [SetStopped true] [] [] [] 2%Q] EndOfBody) 0%Q.

(** The user pauses the task before the second chunk is processed and
    sets [task.stopped] during the second [time.sleep(0.1)] of the wait. *)
Definition env_stopped_while_paused : AttemptEnv :=
  mkEnv (Response 200 (Some 5)
           [sample_chunk 3 1%Q;
            mkChunk (repeat Byte.x00 2) [] [SetPaused true]
                    [[]; [SetStopped true]] [] 2%Q] EndOfBody) 0%Q.

(** ** Sample runs of the scheduler *)

(** A manager with one slot and one retry, after one submission. *)
Definition world_one_submitted : World :=
  snd (submit "http://dl.example/a.bin" "/downloads" "a.bin" []
         (init_world 1 None true 1 ∅)).

(** ... after a second submission. *)
Definition world_two_submitted : World :=
  snd (submit "http://dl.example/b.bin" "/downloads" "b.bin" []
         world_one_submitted).


(** Two tasks for the same destination and file name under a manager with
    two slots: both are started. *)
Definition world_same_file : World :=
  snd (submit "http://dl.example/image.bin" "/downloads" "image.bin" []
         (snd (submit "http://dl.example/image.bin" "/downloads" "image.bin" []
                 (init_world 2 None true 3 ∅)))).

(** The first worker loses its connection after three bytes ... *)
Definition world_stale_1 : World :=
  set_phase 0 0 Releasing
    (snd (run_attempt 0 env_broken_after_three world_same_file)).

(** ... the second resumes from the shared temp file and completes ... *)
Definition world_stale_2 : World :=
  set_phase 1 1 Releasing (snd (run_attempt 1 env_last_two_bytes world_stale_1)).

(** ... the first worker gives its slot back ... *)
Definition world_stale_3 : World :=
  set_phase 0 0 Admitting (release_slot world_stale_2).

(** ... and its task is admitted again. *)
Definition world_stale_counter : World :=
  _start_next_download (set_phase 0 0 Finished world_stale_3).

(** ** Counts over the task list, the threads and the heap *)





(** The task objects whose status is COMPLETED. *)
Definition completed_count (h : list DownloadTask) : nat :=
  length (filter (λ t, status t = COMPLETED) h).


(** ** Further conditions on worker code *)

(** [yields R m]: when [m] returns, the state it leaves is related by [R]
    to the state it started from. *)
Definition yields (R : Proc → Proc → Prop) {A} (m : Worker A) : Prop :=
  ∀ p a p', m p = (Return a, p') → R p p'.

(** The regular file at [temp], if any, has grown by [data];
    [downloaded_size] has grown by [delta]; no other path has changed. *)
Definition grown (temp : string) (data : bytes) (delta : Z) (p p' : Proc) : Prop :=
  (∀ c, p_fs p !! temp = Some (File c) → p_fs p' !! temp = Some (File (c ++ data)))
  ∧ (∀ q, q ≠ temp → p_fs p' !! q = p_fs p !! q)
  ∧ downloaded_size (p_task p') = downloaded_size (p_task p) + delta.

(** The bytes of a response body, in the order received. *)
Definition body_bytes (body : list ChunkEnv) : bytes := concat (map chunk body).

(** The log has gained no call of the completion callback. *)
Definition same_completions (p p' : Proc) : Prop :=
  completions (p_log p') = completions (p_log p).

(** The failure of lines 127-148, before the temp file is opened: no
    response, or a status code other than 200 and 206. *)
Definition early_failure (r : HttpResult) : option PyException :=
  match r with
  | ConnectError msg => Some (mkExc TransportError msg)
  | Response status_code _ _ _ =>
      if negb (bool_decide (status_code = 200)) && negb (bool_decide (status_code = 206))
      then Some (mkExc HttpException ("HTTP " +:+ pretty status_code))
      else None
  end.

(** The only events of a manager that starts no worker. *)
Definition is_makedirs (e : Event) : bool :=
  match e with EvMakedirs _ => true | _ => false end.

(** * The callers of the download manager

    [RecoveryImage] of [src/api_client.py] and the parts of [MainWindow]
    ([src/main_window.py]) that build a download task and hand it to the
    manager.  A Python [str] is a [string]: a sequence of characters. *)

(** ** Operations on strings *)

(** [c in s] for a character [c] *)
Fixpoint str_contains (c : ascii) (s : string) : bool :=
  match s with
  | EmptyString => false
  | String x rest => bool_decide (x = c) || str_contains c rest
  end.

(** [s.split(sep)] for a separator of one character; the result is never
    empty. *)
Fixpoint py_split (sep : ascii) (s : string) : list string :=
  match s with
  | EmptyString => [EmptyString]
  | String x rest =>
      if bool_decide (x = sep) then EmptyString :: py_split sep rest
      else
        match py_split sep rest with
        | [] => [String x EmptyString]
        | seg :: segs => String x seg :: segs
        end
  end.

(** [l[-1]] and [l[0]] on the result of a split. *)
Definition last_segment (l : list string) : string := default EmptyString (last l).

Definition first_segment (l : list string) : string := default EmptyString (head l).

(** [s.replace(old, new)] for single characters *)
Fixpoint py_replace (old new : ascii) (s : string) : string :=
  match s with
  | EmptyString => EmptyString
  | String x rest =>
      String (if bool_decide (x = old) then new else x) (py_replace old new rest)
  end.

(** [s.lstrip(chars)] on a list of characters *)
Fixpoint lstrip_chars (chars : list ascii) (l : list ascii) : list ascii :=
  match l with
  | [] => []
  | x :: rest => if bool_decide (x ∈ chars) then lstrip_chars chars rest else l
  end.

(** [s.strip(chars)] *)
Definition py_strip (chars : list ascii) (s : string) : string :=
  string_of_list_ascii
    (rev (lstrip_chars chars (rev (lstrip_chars chars (list_ascii_of_string s))))).

(** [s[:n]] *)
Fixpoint py_take (n : nat) (s : string) : string :=
  match n, s with
  | S n', String x rest => String x (py_take n' rest)
  | _, _ => EmptyString
  end.

(** ** [class RecoveryImage] *)
Module RecoveryImage.

Record t := mk {
  codename : string;
  brand_name : string;
  platform : string;
  form_factor : string;
  is_aue : bool;
  download_url : string;
  version : string;
  milestone : string;
  file_size : option Z;
  md5_hash : option string;
  sha1_hash : option string
}.

(** [RecoveryImage.support_status] *)
Definition support_status (d : t) : string :=
  if is_aue d then "Discontinued" else "Supported".

(** [RecoveryImage.filename] *)
Definition filename (d : t) : string :=
  if negb (bool_decide (download_url d = "")) then
    let filename := last_segment (py_split "/" (download_url d)) in
    if str_contains "?" filename then first_segment (py_split "?" filename)
    else filename
  else codename d +:+ "_" +:+ version d +:+ ".bin".

End RecoveryImage.

(** ** [MainWindow.sanitize_folder_name] *)

Definition invalid_chars : list ascii :=
  ["<"; ">"; ":"; "034"; "/"; "\"; "|"; "?"; "*"]%char.

Definition sanitize_folder_name (name : string) : string :=
  let sanitized := fold_left (λ s c, py_replace c "-" s) invalid_chars name in
  let sanitized := py_strip [" "; "."]%char sanitized in
  py_take 100 sanitized.

(** What the nine replacements do to one character. *)
Definition sanitize_char (x : ascii) : ascii :=
  fold_left (λ y c, if bool_decide (y = c) then "-"%char else y) invalid_chars x.

(** A name of 101 characters whose hundredth is a space. *)
Definition long_name : string :=
  string_of_list_ascii (repeat "a"%char 99 ++ [" "; "b"]%char).

(** ** [MainWindow.download_device] *)

(** The answer to [QMessageBox.question]. *)
Inductive Reply := ReplyYes | ReplyNo.

#[global] Instance Reply_eq_dec : EqDecision Reply.
Proof. solve_decision. Defined.

(** What the window shows. *)
Inductive GuiEvent :=
  | WarningBox (text : string)
  | QuestionBox (text : string)
  | CriticalBox (text : string)
  | StatusMessage (text : string)
  | TableUpdate.

(** The attributes of [MainWindow] that [download_device] uses; the
    manager is held with the world it acts on. *)
Record Window := mkWindow {
  download_path : string;
  filtered_devices : list RecoveryImage.t;
  download_manager : World;
  download_start_times : gmap string Q;
  gui : list GuiEvent
}.

Definition set_download_manager (w : World) (win : Window) : Window :=
  mkWindow (download_path win) (filtered_devices win) w
    (download_start_times win) (gui win).

Definition show (e : GuiEvent) (win : Window) : Window :=
  mkWindow (download_path win) (filtered_devices win) (download_manager win)
    (download_start_times win) (gui win ++ [e]).

Definition set_start_time (name : string) (now : Q) (win : Window) : Window :=
  mkWindow (download_path win) (filtered_devices win) (download_manager win)
    (<[name := now]> (download_start_times win)) (gui win).

(** The folder of a device: [Support Status/Form Factor/Brand Name]. *)
Definition device_destination (base : string) (device : RecoveryImage.t) : string :=
  let support_folder :=
    if negb (RecoveryImage.is_aue device) then "Supported" else "Discontinued" in
  let form_factor_folder := sanitize_folder_name (RecoveryImage.form_factor device) in
  let brand_folder := sanitize_folder_name (RecoveryImage.brand_name device) in
  os_path_join (os_path_join (os_path_join base support_folder) form_factor_folder)
               brand_folder.

(** [DownloadTask(url=..., destination=..., filename=..., metadata=...)] *)
Definition device_task (base : string) (device : RecoveryImage.t) : DownloadTask :=
  new_task (RecoveryImage.download_url device) (device_destination base device)
    (RecoveryImage.filename device)
    [("device", RecoveryImage.brand_name device);
     ("codename", RecoveryImage.codename device);
     ("version", RecoveryImage.version device)].

(** [try: os.remove(path) except: pass] on the files of the world. *)
Definition remove_quietly (path : string) (w : World) : World :=
  let p := snd (try_pass (os_remove path)
                  (mkProc (new_task "" "" "" []) (w_fs w) (w_log w))) in
  {| w_heap := w_heap w; w_mgr := w_mgr w; w_fs := p_fs p;
     w_threads := w_threads w; w_log := p_log p |}.

(** [MainWindow.download_device(row, force_overwrite)]; [reply] is the
    answer of the user if asked, [now] the value of [time.time()]. *)
Definition download_device (row : nat) (force_overwrite : bool)
    (reply : Reply) (now : Q) : Prog Window unit :=
  λ win,
    match filtered_devices win !! row with
    | None => (Return tt, win)
    | Some device =>
        if bool_decide (RecoveryImage.download_url device = "") then
          (Return tt, show (WarningBox "No download URL available for this device") win)
        else
          let name := RecoveryImage.filename device in
          let w := download_manager win in
          let tid := length (w_heap w) in
          let task := device_task (download_path win) device in
          let w1 := {| w_heap := w_heap w ++ [task]; w_mgr := w_mgr w;
                       w_fs := w_fs w; w_threads := w_threads w;
                       w_log := w_log w |} in
          let asked := exists_ task (w_fs w) && negb force_overwrite in
          let win1 :=
            if asked
            then show (QuestionBox ("File " +:+ name +:+ " already exists. Download anyway?"))
                      (set_download_manager w1 win)
            else set_download_manager w1 win in
          if asked && bool_decide (reply = ReplyNo) then (Return tt, win1)
          else
            let w2 := if asked then remove_quietly (full_path task) w1 else w1 in
            match add_download tid w2 with
            | (Return true, w3) =>
                (Return tt,
                 show (StatusMessage ("Added " +:+ name +:+ " to download queue"))
                   (show TableUpdate
                      (set_start_time name now (set_download_manager w3 win1))))
            | (Return false, w3) =>
                let t := w_heap w3 !!! tid in
                (Return tt,
                 if bool_decide (status t = COMPLETED)
                 then show (StatusMessage (name +:+ " already downloaded"))
                        (set_download_manager w3 win1)
                 else show (CriticalBox ("Failed to add download: " +:+ error_message t))
                        (set_download_manager w3 win1))
            | (Raise e, w3) => (Raise e, set_download_manager w3 win1)
            | (Hang, w3) => (Hang, set_download_manager w3 win1)
            end
    end.

(** ** Sample devices *)

Definition sample_device : RecoveryImage.t :=
  RecoveryImage.mk "nami-vayne" "ASUS Chromebook Flip C434" "Nami" "Chromebook"
    false "https://dl.example/recovery/chromeos_15.bin.zip?alt=media" "120.0" "120"
    None None None.

Definition sample_window (fs : FS) : Window :=
  mkWindow "/downloads" [sample_device] (init_world 1 None true 3 fs) ∅ [].

(** ** How worker code can fail to return *)

(** [raises_only P m]: an exception raised by [m] satisfies [P]. *)
Definition raises_only (P : PyException → Prop) {A} (m : Worker A) : Prop :=
  ∀ p e p', m p = (Raise e, p') → P e.

(** [hangs_only Q m]: when [m] does not end, it is in a state where [Q]
    holds. *)
Definition hangs_only (Q : Proc → Prop) {A} (m : Worker A) : Prop :=
  ∀ p p', m p = (Hang, p') → Q p'.

(** The task is held in the pause wait of lines 158-159. *)
Definition waiting (p : Proc) : Prop :=
  status (p_task p) = PAUSED
  ∧ paused (p_task p) = true
  ∧ stopped (p_task p) = false.

(** The exceptions of the [try] block: never a division by zero, and a
    ValueError only from the speed limit under a negative ceiling. *)
Definition expected_failure (m : Manager) (e : PyException) : Prop :=
  exc_class e ≠ ZeroDivisionError
  ∧ (exc_class e = ValueError → ∃ s, max_download_speed m = Some s ∧ s < 0).

(** ** A stop seen by the worker *)

(** [raises_at P m]: when [m] raises, [P] holds of the exception and of
    the state it is raised in. *)
Definition raises_at (P : PyException → Proc → Prop) {A} (m : Worker A) : Prop :=
  ∀ p e p', m p = (Raise e, p') → P e p'.

(** The exception of line 154 or 161 is raised with [task.stopped] set. *)
Definition stop_seen (e : PyException) (p : Proc) : Prop :=
  exc_class e = StopException →
  stopped (p_task p) = true
  ∧ (str e = "Download stopped by user" ∨ str e = "Download stopped").

(** ** Paths that stay under their folder *)


(** ** [MainWindow.show_settings] *)

(** The loop [for task in existing_tasks: ...add_download(task)]. *)
Fixpoint readd (ids : list nat) : Prog World unit :=
  match ids with
  | [] => mret tt
  | i :: rest => add_download i;; readd rest
  end.

(** [MainWindow.show_settings] when the dialog is accepted; [mcd] and
    [mds] are [config.max_concurrent_downloads] and
    [config.max_download_speed] as the dialog leaves them.  A new manager
    takes the place of the old one and the tasks of the old one are added to
    it.  The workers of the old manager remain among the threads; the old
    manager itself, to which they give their slots back, is not part of the
    result. *)
Definition show_settings (mcd : Z) (mds : option Z) : Prog Window unit :=
  λ win,
    let w := download_manager win in
    let existing_tasks := tasks (w_mgr w) in
    let w0 := {| w_heap := w_heap w;
                 w_mgr := set_update_callback (new_manager mcd mds true 3);
                 w_fs := w_fs w; w_threads := w_threads w; w_log := w_log w |} in
    match readd existing_tasks w0 with
    | (Return _, w') => (Return tt, show TableUpdate (set_download_manager w' win))
    | (Raise e, w') => (Raise e, set_download_manager w' win)
    | (Hang, w') => (Hang, set_download_manager w' win)
    end.

(** How re-adding can change the status of a task: not at all, to
    COMPLETED (its file exists), or from QUEUED to DOWNLOADING. *)
Definition readded (s s' : DownloadStatus) : Prop :=
  s' = s ∨ s' = COMPLETED ∨ (s = QUEUED ∧ s' = DOWNLOADING).

(** * The API client: [ChromeOSAPIClient] of [src/api_client.py]

    The data of the API is taken to have the shape the code expects: a
    mapping from code names to device details, where the keys that the code
    reads, when present, hold values of the expected kind ([brandNames] a
    list of strings, [pushRecoveries] a mapping from strings to recoveries,
    and so on).  A mapping is the list of its items in their order.
    [upper] is given for the letters of ASCII. *)

(** A value of [pushRecoveries]: a string (the URL), a dict (with or
    without a ['url']), or anything else. *)
Inductive RecoveryData :=
  | RecoveryUrl (url : string)
  | RecoveryDict (url : option string)
  | RecoveryOther.

(** A value of [brandNameToFormattedDeviceMap]. *)
Record FormattedDevice := mkFormattedDevice {
  fd_platform : option string;
  fd_formFactor : option string
}.

(** The details of a device or of a model; [None] is an absent key.
    [servingStable] holds the ['chromeVersion'] of that dict, if any. *)
Record Details := mkDetails {
  brandNames : option (list string);
  platform : option string;
  formFactor : option string;
  isAue : option bool;
  servingStable : option (option string);
  pushRecoveries : option (list (string * RecoveryData));
  brandNameToFormattedDeviceMap : option (list (string * FormattedDevice))
}.

(** An item of ['builds']: the details and, for a parent board, its
    ['models']. *)
Record Build := mkBuild {
  details : Details;
  models : option (list (string * Details))
}.

(** [d[key]] on a mapping *)
Fixpoint assoc_lookup {V} (key : string) (d : list (string * V)) : option V :=
  match d with
  | [] => None
  | (k, v) :: rest => if bool_decide (k = key) then Some v else assoc_lookup key rest
  end.

(** [s.isdigit()] *)
Definition is_digit (c : ascii) : bool :=
  (48 <=? nat_of_ascii c)%nat && (nat_of_ascii c <=? 57)%nat.

Definition isdigit (s : string) : bool :=
  negb (bool_decide (s = "")) && forallb is_digit (list_ascii_of_string s).

(** [int(s)] on a string of digits *)
Definition int_of_str (s : string) : Z :=
  fold_left (λ acc c, acc * 10 + (Z.of_nat (nat_of_ascii c) - 48))
            (list_ascii_of_string s) 0.

(** [max(l, key=key)] on a list that is not empty: the first of the
    greatest. *)
Fixpoint py_max_from {A} (key : A → Z) (best : A) (l : list A) : A :=
  match l with
  | [] => best
  | x :: rest => py_max_from key (if key best <? key x then x else best) rest
  end.

(** [s.upper()] *)
Definition upper_char (c : ascii) : ascii :=
  let n := nat_of_ascii c in
  if (97 <=? n)%nat && (n <=? 122)%nat then ascii_of_nat (n - 32) else c.

Fixpoint str_upper (s : string) : string :=
  match s with
  | EmptyString => EmptyString
  | String c rest => String (upper_char c) (str_upper rest)
  end.

(** [a in b] on strings *)
Fixpoint is_substring (a b : string) : bool :=
  String.prefix a b
  || match b with
     | EmptyString => false
     | String _ rest => is_substring a rest
     end.

(** [ChromeOSAPIClient._get_platform] *)
Definition _get_platform (d : Details) : string :=
  match platform d with
  | Some p => p
  | None =>
      match brandNameToFormattedDeviceMap d with
      | Some ((_, first_device) :: _) => default "Unknown" (fd_platform first_device)
      | _ => "Unknown"
      end
  end.

(** [ChromeOSAPIClient._get_form_factor] *)
Definition _get_form_factor (d : Details) : string :=
  match formFactor d with
  | Some f => f
  | None =>
      match brandNameToFormattedDeviceMap d with
      | Some ((_, first_device) :: _) => default "Unknown" (fd_formFactor first_device)
      | _ => "Unknown"
      end
  end.

(** [ChromeOSAPIClient._create_image_from_recovery] *)
Definition _create_image_from_recovery (codename brand_name platform form_factor : string)
    (is_aue : bool) (recovery_data : RecoveryData) (milestone version : string)
    : option RecoveryImage.t :=
  let download_url :=
    match recovery_data with
    | RecoveryUrl url => url
    | RecoveryDict url => default "" url
    | RecoveryOther => ""
    end in
  if bool_decide (download_url = "") then None
  else
    let version := if bool_decide (version = "") then "M" +:+ milestone else version in
    Some (RecoveryImage.mk codename brand_name platform form_factor is_aue
            download_url version milestone None None None).

(** [ChromeOSAPIClient._extract_recovery_images] *)
Definition _extract_recovery_images (codename : string) (d : Details)
    (stable_only : bool) : list RecoveryImage.t :=
  let brand_names := default [] (brandNames d) in
  let brand_name := match brand_names with name :: _ => name | [] => codename end in
  let platform := _get_platform d in
  let form_factor := _get_form_factor d in
  let is_aue := default false (isAue d) in
  let chrome_version := match servingStable d with Some (Some v) => v | _ => "" end in
  let push_recoveries := default [] (pushRecoveries d) in
  if negb (bool_decide (push_recoveries = [])) && stable_only then
    let valid_milestones := filter (λ k, isdigit k = true) (map fst push_recoveries) in
    match valid_milestones with
    | [] => []
    | k :: rest =>
        let latest_milestone := py_max_from int_of_str k rest in
        match assoc_lookup latest_milestone push_recoveries with
        | None => []  (* not met: the key is one of the mapping *)
        | Some recovery_data =>
            let version :=
              if bool_decide (chrome_version = "") then "M" +:+ latest_milestone
              else chrome_version in
            match _create_image_from_recovery codename brand_name platform form_factor
                    is_aue recovery_data latest_milestone version with
            | Some image => [image]
            | None => []
            end
        end
    end
  else [].

(** [ChromeOSAPIClient._combine_details]: the keys of the model take
    precedence over those of the parent. *)
Definition _combine_details (parent model : Details) : Details :=
  let pick {A} (f : Details → option A) : option A :=
    match f model with Some x => Some x | None => f parent end in
  mkDetails (pick brandNames) (pick platform) (pick formFactor) (pick isAue)
    (pick servingStable) (pick pushRecoveries) (pick brandNameToFormattedDeviceMap).

(** [any(manufacturer.upper() in name.upper() for name in brand_names)] *)
Definition brand_matches (manufacturer : string) (brand_names : list string) : bool :=
  existsb (λ name, is_substring (str_upper manufacturer) (str_upper name)) brand_names.

(** [ChromeOSAPIClient.get_devices_by_manufacturer] on the ['builds'] of
    the data that [fetch_builds] returns. *)
Definition get_devices_by_manufacturer (manufacturer : string) (stable_only : bool)
    (builds : list (string * Build)) : list RecoveryImage.t :=
  flat_map (λ '(codename, build),
    match models build with
    | Some ms =>
        flat_map (λ '(model_codename, model_details),
          if brand_matches manufacturer (default [] (brandNames model_details)) then
            _extract_recovery_images (codename +:+ "-" +:+ model_codename)
              (_combine_details (details build) model_details) stable_only
          else []) ms
    | None =>
        if brand_matches manufacturer (default [] (brandNames (details build))) then
          _extract_recovery_images codename (details build) stable_only
        else []
    end) builds.

(** A sample of the data: one stand-alone device with three recoveries. *)
Definition sample_details : Details :=
  mkDetails (Some ["ASUS Chromebook C202SA"]) None (Some "Chromebook") (Some true)
    (Some (Some "126.0.6478.132"))
    (Some [("99", RecoveryUrl "https://dl.example/terra_99.bin.zip");
           ("126", RecoveryUrl "https://dl.example/terra_126.bin.zip");
           ("lts", RecoveryUrl "https://dl.example/terra_lts.bin.zip")])
    None.

(** ** The chunk loop and the request *)

(** The log has only grown and [total_size] is as it was. *)
Definition streamed (p p' : Proc) : Prop :=
  (∃ l, p_log p' = p_log p ++ l)
  ∧ total_size (p_task p') = total_size (p_task p).

(** [total_size] as lines 137-142 set it. *)
Definition announced_size (status_code : Z) (content_length : option Z)
    (start_byte : Z) (before : Z) : Z :=
  match content_length with
  | Some n => start_byte + n
  | None => if bool_decide (status_code = 200) then 0 else before
  end.

(** ** The time spent in the speed limit *)



(** * Properties *)

Ltac run :=
  repeat (unfold mbind, mret, Prog_bind, Prog_ret, pbind, pret, when,
            get_task, get_fs, modify_task, put_fs, emit, raise, hang,
            try_pass, path_exists, os_path_exists; cbn).

(** ** The [except] block *)

Lemma except_block_eq m e p :
  except_block m e p =
    (Return tt,
     if retry_count (p_task p) <? max_retries m
     then retry_state m e p else error_state e p).
Proof.
  unfold except_block, retry_state, error_state.
  destruct p as [t fs l]; run.
  destruct (retry_count t <? max_retries m) eqn:Hlt; run.
  - unfold time_sleep; change (Qle_bool 0 2) with true;
      destruct (update_callback m); run; rewrite <- ?app_assoc; reflexivity.
  - unfold os_path_exists, os_remove; run.
    change (temp_file (set_error_message (str e) t)) with (temp_file t).
    destruct (fs !! temp_file t) as [[c|]|] eqn:Hl; run; rewrite ?Hl; run;
      reflexivity.
Qed.

(** ** Frame reasoning for worker code *)
Section Frame.
Context (R : Proc → Proc → Prop) `{!PreOrder R}.
Local Abbreviation keeps := (keeps R).

Lemma keeps_ret {A} (a : A) : keeps (mret a).
Proof. intros p. reflexivity. Qed.

Lemma keeps_bind {A B} (m : Worker A) (k : A → Worker B) :
  keeps m → (∀ a, keeps (k a)) → keeps (m ≫= k).
Proof.
  intros Hm Hk p. unfold mbind, Prog_bind, pbind.
  specialize (Hm p). destruct (m p) as [[a| |] p']; cbn in *; auto.
  etransitivity; [exact Hm | apply Hk].
Qed.

Lemma keeps_raise {A} c msg : keeps (@raise Proc A c msg).
Proof. intros p. reflexivity. Qed.

Lemma keeps_hang {A} : keeps (@hang Proc A).
Proof. intros p. reflexivity. Qed.

Lemma keeps_get_task : keeps get_task.
Proof. intros p. reflexivity. Qed.

Lemma keeps_get_fs : keeps get_fs.
Proof. intros p. reflexivity. Qed.

Lemma keeps_when b (m : Worker unit) : keeps m → keeps (when b m).
Proof. destruct b; cbn; auto using keeps_ret. Qed.

Lemma keeps_try_pass (m : Worker unit) : keeps m → keeps (try_pass m).
Proof.
  intros Hm p. unfold try_pass. specialize (Hm p).
  destruct (m p) as [[a| |] p']; cbn in *; auto.
Qed.

Lemma keeps_path_exists path : keeps (path_exists path).
Proof. intros p. reflexivity. Qed.

Lemma keeps_py_truediv a b : keeps (py_truediv a b).
Proof. intros p. unfold py_truediv. destruct (Qeq_bool b 0); reflexivity. Qed.

Lemma keeps_os_path_getsize path : keeps (os_path_getsize path).
Proof.
  intros p. unfold os_path_getsize. run.
  destruct (p_fs p !! path) as [[c|]|]; reflexivity.
Qed.
End Frame.

Ltac frame_step :=
  match goal with
  | |- PreOrder _ => exact _
  | |- keeps _ (mret _) => apply keeps_ret
  | |- keeps _ (_ ≫= _) => apply keeps_bind; [typeclasses eauto | | intros ?]
  | |- keeps _ (raise _ _) => apply keeps_raise
  | |- keeps _ hang => apply keeps_hang
  | |- keeps _ get_task => apply keeps_get_task
  | |- keeps _ get_fs => apply keeps_get_fs
  | |- keeps _ (when _ _) => apply keeps_when
  | |- keeps _ (try_pass _) => apply keeps_try_pass
  | |- keeps _ (path_exists _) => apply keeps_path_exists
  | |- keeps _ (py_truediv _ _) => apply keeps_py_truediv
  | |- keeps _ (os_path_getsize _) => apply keeps_os_path_getsize
  | |- keeps _ (py_open _ _) => unfold py_open
  | |- keeps _ (f_write _ _) => unfold f_write
  | |- keeps _ (os_remove _) => unfold os_remove
  | |- keeps _ (os_rename _ _) => unfold os_rename
  | |- keeps _ (time_sleep _ _) => unfold time_sleep
  | |- keeps _ (apply_speed_limit _ _) => unfold apply_speed_limit
  | |- keeps _ (resume_point _) => unfold resume_point
  | |- keeps _ (finish _) => unfold finish
  | |- keeps _ (if ?b then _ else _) => destruct b
  | |- keeps _ (match ?x with _ => _ end) => destruct x
  end.

Ltac frame := repeat frame_step.

#[local] Instance untouched_preorder : PreOrder untouched.
Proof.
  split.
  - intros p. unfold untouched. tauto.
  - intros p q r (?&?&?&?&?) (?&?&?&?&?). unfold untouched.
    repeat split; congruence.
Qed.


Lemma fold_apply_write_fields ws t :
  let t' := fold_left apply_write ws t in
  url t' = url t ∧ destination t' = destination t ∧ filename t' = filename t
  ∧ retry_count t' = retry_count t ∧ error_message t' = error_message t
  ∧ status t' = status t.
Proof.
  revert t. induction ws as [|w ws IH]; intros t; cbn; [tauto|].
  destruct (IH (apply_write t w)) as (?&?&?&?&?&?).
  destruct w; cbn in *; repeat split; congruence.
Qed.

Lemma untouched_deliver ws : keeps untouched (deliver ws).
Proof.
  intros p. unfold deliver, untouched; cbn.
  destruct (fold_apply_write_fields ws (p_task p)) as (?&?&?&?&?&?). tauto.
Qed.

Ltac untouched_leaf :=
  solve [ apply untouched_deliver
        | intros ?; unfold untouched; cbn; tauto ].

Lemma untouched_wait ps : keeps untouched (wait_while_paused ps).
Proof.
  induction ps as [|ws ps IH]; cbn [wait_while_paused]; frame;
    try untouched_leaf; assumption.
Qed.

Lemma untouched_process_chunk m temp started c lu :
  keeps untouched (process_chunk m temp started c lu).
Proof.
  unfold process_chunk; frame;
    try untouched_leaf; apply untouched_wait.
Qed.

Lemma untouched_stream_body m temp started body ending lu :
  keeps untouched (stream_body m temp started body ending lu).
Proof.
  revert lu. induction body as [|c body IH]; intros lu; cbn [stream_body].
  - frame.
  - frame; [apply untouched_process_chunk | apply IH].
Qed.

Lemma untouched_transfer m env : keeps untouched (transfer m env).
Proof.
  unfold transfer, receive; frame;
    try untouched_leaf; apply untouched_stream_body.
Qed.

Lemma untouched_finish m : keeps untouched (finish m).
Proof. frame; untouched_leaf. Qed.

Lemma untouched_try_block m env : keeps untouched (try_block m env).
Proof.
  unfold try_block.
  apply keeps_bind; [exact _ | apply untouched_transfer | intros; apply untouched_finish].
Qed.

(** ** Completion *)

Lemma string_length_app (s t : string) :
  String.length (s +:+ t) = (String.length s + String.length t)%nat.
Proof.
  induction s as [|c s IH]; [reflexivity|].
  change (S (String.length (s +:+ t)) = S (String.length s + String.length t)).
  now rewrite IH.
Qed.

Lemma append_ne (s t : string) : t ≠ "" → s +:+ t ≠ s.
Proof.
  intros Ht Heq. apply (f_equal String.length) in Heq.
  rewrite string_length_app in Heq. destruct t; [congruence | cbn in Heq; lia].
Qed.

Lemma temp_file_ne t : temp_file t ≠ full_path t.
Proof. unfold temp_file. apply append_ne. discriminate. Qed.

Lemma finish_eq m p content :
  p_fs p !! temp_file (p_task p) = Some (File content) →
  p_fs p !! full_path (p_task p) ≠ Some Dir →
  finish m p = (Return tt, finished_state m content p).
Proof.
  destruct p as [t fs l]; cbn. intros Htemp Hfull.
  pose proof (temp_file_ne t) as Hne.
  unfold finish, finished_state, os_remove, os_rename, os_path_exists; run.
  destruct (fs !! full_path t) as [[c|]|] eqn:Hl; run; rewrite ?Hl; run.
  - rewrite lookup_delete_ne by congruence. rewrite Htemp; run.
    rewrite lookup_delete_eq.
    destruct (completion_callback m); run; rewrite <- ?app_assoc; reflexivity.
  - congruence.
  - rewrite Htemp; run. rewrite ?Hl.
    destruct (completion_callback m); run; rewrite <- ?app_assoc; reflexivity.
Qed.

Lemma finish_return m p a p' :
  finish m p = (Return a, p') →
  status (p_task p') = COMPLETED ∧ progress (p_task p') = 100%Q.
Proof.
  destruct p as [t fs l].
  unfold finish, os_remove, os_rename, os_path_exists; run.
  destruct (fs !! full_path t) as [[c|]|] eqn:Hl; run; rewrite ?Hl; run;
    try discriminate.
  - destruct (delete (full_path t) fs !! temp_file t) as [[c'|]|]; run;
      try discriminate;
      rewrite ?lookup_delete_eq; destruct (completion_callback m); run;
      intros [= <- <-]; auto.
  - destruct (fs !! temp_file t) as [[c'|]|]; run; rewrite ?Hl; try discriminate;
      destruct (completion_callback m); run; intros [= <- <-]; auto.
Qed.

Lemma bind_return {S A B} (m : Prog S A) (k : A → Prog S B) s b s' :
  (m ≫= k) s = (Return b, s') →
  ∃ a s1, m s = (Return a, s1) ∧ k a s1 = (Return b, s').
Proof.
  unfold mbind, Prog_bind, pbind.
  destruct (m s) as [[a| |] s1]; intros H; try discriminate. eauto.
Qed.

Lemma bind_raise {S A B} (m : Prog S A) (k : A → Prog S B) s e s' :
  (m ≫= k) s = (Raise e, s') →
  m s = (Raise e, s') ∨ ∃ a s1, m s = (Return a, s1) ∧ k a s1 = (Raise e, s').
Proof.
  unfold mbind, Prog_bind, pbind.
  destruct (m s) as [[a| |] s1]; intros H; try discriminate.
  - right; eauto.
  - left. injection H as -> ->. reflexivity.
Qed.

Lemma try_block_return m env p a p' :
  try_block m env p = (Return a, p') →
  status (p_task p') = COMPLETED ∧ progress (p_task p') = 100%Q.
Proof.
  unfold try_block. intros H.
  apply bind_return in H as (? & p1 & _ & Hf). eapply finish_return, Hf.
Qed.

(** ** One attempt *)

(** The three ways an attempt can go. *)
Lemma attempt_cases m env p :
  (∃ p', try_block m env p = (Return tt, p') ∧ attempt m env p = (Return tt, p'))
  ∨ (∃ e p1, try_block m env p = (Raise e, p1)
       ∧ attempt m env p =
           (Return tt, if retry_count (p_task p) <? max_retries m
                       then retry_state m e p1 else error_state e p1))
  ∨ (∃ p', try_block m env p = (Hang, p') ∧ attempt m env p = (Hang, p')).
Proof.
  unfold attempt.
  pose proof (untouched_try_block m env p) as (_&_&_&Hrc&_).
  destruct (try_block m env p) as [[[]|e|] p1] eqn:Ht; cbn in Hrc.
  - left. eauto.
  - right; left. exists e, p1. split; [reflexivity|].
    rewrite except_block_eq, Hrc. reflexivity.
  - right; right. eauto.
Qed.

Lemma attempt_never_raises m env p e p' : attempt m env p ≠ (Raise e, p').
Proof.
  destruct (attempt_cases m env p) as [(?&_&->)|[(?&?&_&->)|(?&_&->)]];
    discriminate.
Qed.

Lemma retry_state_fields m e p :
  let t' := p_task (retry_state m e p) in
  status t' = QUEUED ∧ retry_count t' = retry_count (p_task p) + 1
  ∧ error_message t' = str e ∧ p_fs (retry_state m e p) = p_fs p
  ∧ url t' = url (p_task p) ∧ destination t' = destination (p_task p)
  ∧ filename t' = filename (p_task p).
Proof. cbn. tauto. Qed.

Lemma error_state_fields e p :
  let t' := p_task (error_state e p) in
  status t' = ERROR ∧ retry_count t' = retry_count (p_task p)
  ∧ error_message t' = str e
  ∧ (∀ c, p_fs (error_state e p) !! temp_file (p_task p) ≠ Some (File c))
  ∧ url t' = url (p_task p) ∧ destination t' = destination (p_task p)
  ∧ filename t' = filename (p_task p).
Proof.
  unfold error_state.
  destruct (p_fs p !! temp_file (p_task p)) as [[c|]|] eqn:Hl; cbn;
    repeat split; intros c'; rewrite ?lookup_delete_eq, ?Hl; discriminate.
Qed.

Lemma temp_file_ext t t' :
  destination t' = destination t → filename t' = filename t →
  temp_file t' = temp_file t.
Proof. unfold temp_file, full_path. now intros -> ->. Qed.

(** What a finished attempt leaves in the task. *)
Lemma attempt_return m env p a p' :
  attempt m env p = (Return a, p') →
  url (p_task p') = url (p_task p)
  ∧ destination (p_task p') = destination (p_task p)
  ∧ filename (p_task p') = filename (p_task p)
  ∧ ((status (p_task p') = COMPLETED
      ∧ retry_count (p_task p') = retry_count (p_task p)
      ∧ error_message (p_task p') = error_message (p_task p))
     ∨ (status (p_task p') = QUEUED
        ∧ retry_count (p_task p) < max_retries m
        ∧ retry_count (p_task p') = retry_count (p_task p) + 1)
     ∨ (status (p_task p') = ERROR
        ∧ max_retries m ≤ retry_count (p_task p)
        ∧ retry_count (p_task p') = retry_count (p_task p))).
Proof.
  intros H.
  pose proof (untouched_try_block m env p) as (Hu&Hd&Hf&Hrc&Hem).
  destruct (attempt_cases m env p) as [(p1&Ht&Ha)|[(e&p1&Ht&Ha)|(p1&_&Ha)]];
    rewrite Ha in H; try discriminate;
    (match type of H with (_, ?q) = _ => assert (q = p') as <- by congruence end);
    rewrite Ht in *; cbn in Hu, Hd, Hf, Hrc, Hem.
  - apply try_block_return in Ht as [Hs _].
    split; [|split; [|split]]; try assumption. left. auto.
  - destruct (Z.ltb_spec (retry_count (p_task p)) (max_retries m)).
    + destruct (retry_state_fields m e p1) as (?&?&?&?&?&?&?).
      split; [|split; [|split]]; try congruence.
      right; left. repeat split; try congruence; lia.
    + destruct (error_state_fields e p1) as (?&?&?&?&?&?&?).
      split; [|split; [|split]]; try congruence.
      right; right. repeat split; try congruence; lia.
Qed.

(** ** No directory takes the place of the temp file *)

#[local] Instance no_dir_at_preorder path : PreOrder (no_dir_at path).
Proof. split; unfold no_dir_at; [intros p; auto | intros p q r; auto]. Qed.

Ltac no_dir_leaf :=
  solve [ intros ? ?; cbn;
          first [ assumption | rewrite lookup_insert_eq; discriminate ] ].

Lemma no_dir_wait path ps : keeps (no_dir_at path) (wait_while_paused ps).
Proof.
  induction ps as [|ws ps IH]; cbn [wait_while_paused]; frame;
    try no_dir_leaf; assumption.
Qed.

Lemma no_dir_process_chunk m temp started c lu :
  keeps (no_dir_at temp) (process_chunk m temp started c lu).
Proof. unfold process_chunk; frame; try no_dir_leaf; apply no_dir_wait. Qed.

Lemma no_dir_stream_body m temp started body ending lu :
  keeps (no_dir_at temp) (stream_body m temp started body ending lu).
Proof.
  revert lu. induction body as [|c body IH]; intros lu; cbn [stream_body].
  - frame.
  - frame; [apply no_dir_process_chunk | apply IH].
Qed.

Lemma no_dir_transfer_body m env temp u :
  keeps (no_dir_at temp)
    (start_byte ← resume_point temp;
     emit (EvRequest "GET" u (range_headers start_byte));;
     receive m temp start_byte env).
Proof. unfold receive. frame; try no_dir_leaf. apply no_dir_stream_body. Qed.

Lemma no_dir_transfer m env p :
  no_dir_at (temp_file (p_task p)) p (snd (transfer m env p)).
Proof.
  exact (no_dir_transfer_body m env (temp_file (p_task p)) (url (p_task p)) p).
Qed.

Lemma no_dir_finish m p :
  no_dir_at (temp_file (p_task p)) p (snd (finish m p)).
Proof.
  destruct p as [t fs l]. unfold no_dir_at. cbn [p_fs p_task]. intros Hn.
  pose proof (temp_file_ne t) as Hne.
  unfold finish, os_remove, os_rename; run.
  destruct (fs !! full_path t) as [[c|]|] eqn:Hl; run; rewrite ?Hl; run;
    try exact Hn.
  - rewrite lookup_delete_ne by congruence.
    destruct (fs !! temp_file t) as [[c'|]|] eqn:Ht; run;
      rewrite ?lookup_delete_eq; run; try congruence;
      [destruct (completion_callback m); run;
       rewrite lookup_insert_ne by congruence;
       rewrite lookup_delete_eq; discriminate
      | rewrite lookup_delete_ne by congruence; congruence].
  - destruct (fs !! temp_file t) as [[c'|]|] eqn:Ht; run; rewrite ?Hl; run;
      try congruence.
    destruct (completion_callback m); run;
      rewrite lookup_insert_ne by congruence;
      rewrite lookup_delete_eq; discriminate.
Qed.

Lemma no_dir_attempt m env p :
  no_dir_at (temp_file (p_task p)) p (snd (attempt m env p)).
Proof.
  intros Hn.
  assert (Ht : ∀ r p1, try_block m env p = (r, p1) →
                       p_fs p1 !! temp_file (p_task p) ≠ Some Dir).
  { unfold try_block, mbind, Prog_bind, pbind. intros r p1.
    pose proof (no_dir_transfer m env p Hn) as H1.
    pose proof (untouched_transfer m env p) as (_&Hd&Hf&_&_).
    destruct (transfer m env p) as [[[]| |] p0]; cbn [snd] in *;
      try (intros [= <- <-]; exact H1).
    intros H. pose proof (no_dir_finish m p0) as H2.
    rewrite (temp_file_ext _ _ Hd Hf) in H2. rewrite H in H2. apply H2, H1. }
  pose proof (untouched_try_block m env p) as (_&Hd&Hf&_&_).
  destruct (attempt_cases m env p) as [(p1&Hb&->)|[(e&p1&Hb&->)|(p1&Hb&->)]];
    cbn [snd]; rewrite Hb in Hd, Hf; cbn [snd] in Hd, Hf;
    specialize (Ht _ _ Hb); try exact Ht.
  destruct (retry_count (p_task p) <? max_retries m); [exact Ht|].
  unfold error_state. rewrite (temp_file_ext _ _ Hd Hf).
  destruct (p_fs p1 !! temp_file (p_task p)) as [[c|]|] eqn:Hl; cbn [p_fs];
    rewrite ?lookup_delete_eq, ?Hl; congruence.
Qed.

Lemma life_no_dir m envs : ∀ p,
  p_fs p !! temp_file (p_task p) ≠ Some Dir →
  p_fs (snd (life m envs p)) !! temp_file (p_task p) ≠ Some Dir.
Proof.
  induction envs as [|env rest IH]; intros p Hn; [exact Hn|].
  cbn [life]. case_bool_decide; [|exact Hn].
  pose proof (no_dir_attempt m env (admitted p) Hn) as Ha.
  change (temp_file (p_task (admitted p))) with (temp_file (p_task p)) in Ha.
  destruct (attempt m env (admitted p)) as [[a|e|] p1] eqn:He; cbn [snd] in *;
    try exact Ha.
  apply attempt_return in He as (_&Hd&Hf&_).
  change (p_task (admitted p)) with (set_status DOWNLOADING (p_task p)) in Hd, Hf.
  cbn in Hd, Hf.
  specialize (IH p1). rewrite (temp_file_ext _ _ Hd Hf) in IH.
  destruct (life m rest p1) as [h p2]; cbn [snd] in *. apply IH, Ha.
Qed.

(** ** Retries *)

Lemma life_not_queued m envs p :
  status (p_task p) ≠ QUEUED → life m envs p = ([], p).
Proof.
  intros H. destruct envs as [|env rest]; cbn; [reflexivity|].
  rewrite bool_decide_eq_false_2 by assumption. reflexivity.
Qed.

Lemma life_all_fail m envs : ∀ p,
  status (p_task p) = QUEUED →
  0 ≤ retry_count (p_task p) ≤ max_retries m →
  Forall failed (fst (life m envs p)) →
  let p' := snd (life m envs p) in
  let n := Z.of_nat (length (fst (life m envs p))) in
  let r := retry_count (p_task p) in
  n = Z.min (Z.of_nat (length envs)) (max_retries m - r + 1)
  ∧ temp_file (p_task p') = temp_file (p_task p)
  ∧ (n ≤ max_retries m - r →
       status (p_task p') = QUEUED ∧ retry_count (p_task p') = r + n)
  ∧ (n = max_retries m - r + 1 →
       status (p_task p') = ERROR ∧ retry_count (p_task p') = max_retries m
       ∧ ∀ c, p_fs p' !! temp_file (p_task p) ≠ Some (File c)).
Proof.
  induction envs as [|env rest IH]; intros p Hq Hr Hall.
  - cbn. repeat split; try lia; auto.
  - cbn [life] in *. rewrite bool_decide_eq_true_2 in * by assumption.
    pose proof (untouched_try_block m env (admitted p)) as (_&Hd&Hf&Hrc&_).
    destruct (attempt_cases m env (admitted p))
      as [(p1&Ht&Ha)|[(e&p1&Ht&Ha)|(p1&Ht&Ha)]];
      rewrite Ha, Ht in *; cbn [fst snd] in *.
    + destruct (life m rest p1); cbn in Hall. inversion Hall; subst. contradiction.
    + cbn in Hd, Hf, Hrc.
      assert (Htemp : temp_file (p_task p1) = temp_file (p_task p))
        by (apply temp_file_ext; assumption).
      change (retry_count (p_task (admitted p))) with (retry_count (p_task p)) in *.
      destruct (Z.ltb_spec (retry_count (p_task p)) (max_retries m)) as [Hlt|Hge].
      * destruct (retry_state_fields m e p1) as (Hs&Hrc'&_&_&_&Hd'&Hf').
        specialize (IH (retry_state m e p1) Hs).
        destruct (life m rest (retry_state m e p1)) as [h p''] eqn:Hl.
        cbn [fst snd length] in *. inversion Hall; subst.
        destruct IH as (Hn&Ht'&Hnf&Hf''); [lia | assumption |].
        rewrite Hrc', Hrc in *.
        assert (Htemp2 : temp_file (p_task (retry_state m e p1)) = temp_file (p_task p))
          by (rewrite <- Htemp; apply temp_file_ext; assumption).
        split; [lia|]. split; [congruence|]. split.
        -- intros Hle. destruct Hnf as [Hs1 Hr1]; [lia|]. split; [exact Hs1 | lia].
        -- intros Heq. destruct Hf'' as (Hs2&Hr2&Hg); [lia|].
           split; [exact Hs2|]. split; [exact Hr2|].
           intros c. rewrite <- Htemp2. apply Hg.
      * destruct (error_state_fields e p1) as (Hs&Hrc'&_&Hgone&_&Hd'&Hf').
        rewrite life_not_queued by (rewrite Hs; discriminate).
        cbn [fst snd length].
        assert (temp_file (p_task (error_state e p1)) = temp_file (p_task p))
          by (rewrite <- Htemp; apply temp_file_ext; assumption).
        repeat split; try lia; try congruence.
    + cbn in Hall. inversion Hall; subst. contradiction.
Qed.

Lemma failed_not_stopped_failed o : failed_not_stopped o → failed o.
Proof. destruct o; cbn; auto. Qed.

(** C2.  A new task all of whose attempts fail (for a reason other than a
    user stop) is attempted exactly [max_retries + 1] times: as long as
    fewer attempts than that have been made ([n <= max_retries]) the task is
    QUEUED with [retry_count = n]; the attempt number [max_retries + 1] leaves
    it in ERROR with no temp file (nothing at all at the temp path, unless a
    directory sat there from the start).  A failed attempt with budget left
    increments [retry_count], sets QUEUED and leaves the file system as the
    failure left it (the temp file is kept). *)
Theorem retry_exhaustion (m : Manager) (envs : list AttemptEnv)
    (t : DownloadTask) (fs : FS) (l : list Event) :
  0 ≤ max_retries m →
  status t = QUEUED →
  retry_count t = 0 →
  Forall failed_not_stopped (fst (life m envs (mkProc t fs l))) →
  let p' := snd (life m envs (mkProc t fs l)) in
  let n := Z.of_nat (length (fst (life m envs (mkProc t fs l)))) in
  n = Z.min (Z.of_nat (length envs)) (max_retries m + 1)
  ∧ (n ≤ max_retries m →
       status (p_task p') = QUEUED ∧ retry_count (p_task p') = n)
  ∧ (n = max_retries m + 1 →
       status (p_task p') = ERROR
       ∧ (∀ c, p_fs p' !! temp_file t ≠ Some (File c))
       ∧ (fs !! temp_file t ≠ Some Dir →
          os_path_exists (p_fs p') (temp_file t) = false))
  ∧ (∀ env p e p1,
       try_block m env p = (Raise e, p1) →
       retry_count (p_task p) < max_retries m →
       ∃ p2, attempt m env p = (Return tt, p2)
             ∧ status (p_task p2) = QUEUED
             ∧ retry_count (p_task p2) = retry_count (p_task p) + 1
             ∧ p_fs p2 = p_fs p1)
  ∧ (∀ env p e p1,
       try_block m env p = (Raise e, p1) →
       max_retries m ≤ retry_count (p_task p) →
       ∃ p2, attempt m env p = (Return tt, p2)
             ∧ status (p_task p2) = ERROR
             ∧ ∀ c, p_fs p2 !! temp_file (p_task p) ≠ Some (File c)).
Proof.
  intros Hm Hq Hr Hall.
  pose proof (life_all_fail m envs (mkProc t fs l)) as H.
  cbn [p_task] in H. rewrite Hr in H.
  destruct H as (Hn&_&Hnf&Hf);
    [assumption | lia | eapply Forall_impl; [exact Hall | apply failed_not_stopped_failed] |].
  cbn zeta. replace (max_retries m - 0 + 1) with (max_retries m + 1) in * by lia.
  split; [exact Hn|]. split; [|split; [|split]].
  - intros Hle. destruct Hnf as [-> ->]; [lia|]. split; [reflexivity | lia].
  - intros Heq. destruct Hf as (->&_&Hg); [lia|]. split; [reflexivity|].
    split; [exact Hg|]. intros Hnd.
    pose proof (life_no_dir m envs (mkProc t fs l) Hnd) as Hnd'. cbn [p_task] in Hnd'.
    unfold os_path_exists. apply bool_decide_eq_false_2. intros [[c|] Hl].
    + exact (Hg c Hl).
    + exact (Hnd' Hl).
  - intros env p e p1 Ht Hlt.
    pose proof (untouched_try_block m env p) as (_&_&_&Hrc&_).
    rewrite Ht in Hrc; cbn in Hrc.
    destruct (attempt_cases m env p) as [(?&Ht'&_)|[(e'&p1'&Ht'&Ha)|(?&Ht'&_)]];
      rewrite Ht in Ht'; try discriminate.
    injection Ht' as <- <-. rewrite Ha.
    apply Z.ltb_lt in Hlt. rewrite Hlt.
    eexists; split; [reflexivity|]. cbn. repeat split. lia.
  - intros env p e p1 Ht Hge.
    pose proof (untouched_try_block m env p) as (_&Hd&Hf'&_&_).
    rewrite Ht in Hd, Hf'; cbn in Hd, Hf'.
    destruct (attempt_cases m env p) as [(?&Ht'&_)|[(e'&p1'&Ht'&Ha)|(?&Ht'&_)]];
      rewrite Ht in Ht'; try discriminate.
    injection Ht' as <- <-. rewrite Ha.
    apply Z.ltb_ge in Hge. rewrite Hge.
    destruct (error_state_fields e p1) as (Hs&_&_&Hgone&_).
    eexists; split; [reflexivity|]. split; [exact Hs|].
    intros c. rewrite <- (temp_file_ext _ _ Hd Hf'). apply Hgone.
Qed.

Lemma retry_exhaustion_witness :
  let m := new_manager 1 None true 1 in
  let run := life m [env_http_500; env_broken_after_three] (mkProc sample_task ∅ []) in
  length (fst run) = 2%nat
  ∧ status (p_task (snd run)) = ERROR
  ∧ os_path_exists (p_fs (snd run)) (temp_file sample_task) = false.
Proof.
  pose proof (retry_exhaustion (new_manager 1 None true 1)
                [env_http_500; env_broken_after_three] sample_task ∅ []) as H.
  cbn zeta in *.
  destruct H as (Hn&_&Hf&_).
  - cbn; lia.
  - reflexivity.
  - reflexivity.
  - vm_compute. repeat constructor; discriminate.
  - destruct Hf as (Hs&_&He); [vm_compute; reflexivity|].
    split; [vm_compute; reflexivity|]. split; [exact Hs|].
    apply He. vm_compute. discriminate.
Defined.

(** ** A stop requested by the user *)

(** C1, the claim as stated, at a task whose [stopped] attribute another
    thread sets while the second chunk is awaited.  The first attempt sees
    the flag at line 153 with retry budget left: the task goes back to
    QUEUED with [retry_count] 1, not to STOPPED, and is attempted again; the
    flag is still set, the second attempt stops at once, the budget
    ([max_retries] 1) is used up, the task ends in ERROR and its temp file
    is removed.  A stop seen after the pause wait (line 160) is handled the
    same way. *)
Lemma user_stop_is_retried :
  let m := new_manager 1 None true 1 in
  let p := mkProc sample_task ∅ [] in
  let once := life m [env_stopped_at_second_chunk] p in
  let twice := life m [env_stopped_at_second_chunk; env_five_bytes] p in
  let waiting := life m [env_stopped_while_paused] p in
  fst once = [Raise (mkExc StopException "Download stopped by user")]
  ∧ status (p_task (snd once)) = QUEUED
  ∧ retry_count (p_task (snd once)) = 1
  ∧ fst twice = [Raise (mkExc StopException "Download stopped by user");
                 Raise (mkExc StopException "Download stopped by user")]
  ∧ status (p_task (snd twice)) = ERROR
  ∧ p_fs (snd twice) !! temp_file sample_task = None
  ∧ fst waiting = [Raise (mkExc StopException "Download stopped")]
  ∧ status (p_task (snd waiting)) = QUEUED
  ∧ retry_count (p_task (snd waiting)) = 1.
Proof. vm_compute. repeat split; reflexivity. Qed.

(** No attempt ever leaves its task in the status STOPPED. *)
Lemma attempt_never_sets_STOPPED m env p a p' :
  attempt m env p = (Return a, p') → status (p_task p') ≠ STOPPED.
Proof.
  intros H. apply attempt_return in H as (_&_&_&[(->&_)|[(->&_)|(->&_)]]);
    discriminate.
Qed.

(** ** The error message *)

Lemma last_cons_default {A} (x : A) (l : list A) d :
  default d (last (x :: l)) = default x (last l).
Proof.
  revert x d. induction l as [|y l IH]; intros x d; [reflexivity|].
  change (last (x :: y :: l)) with (last (y :: l)).
  rewrite (IH y d), (IH y x). reflexivity.
Qed.

(** C9, as the code has it.  Over the life of a task, [error_message] is
    what it was at the start (the empty string for a new task) as long as no
    attempt has failed, and otherwise it is the message of the most recent
    failed attempt: a later attempt that completes the task does not clear
    it. *)
Theorem error_message_is_last_failure (m : Manager) (envs : list AttemptEnv) :
  (∀ p,
     error_message (p_task (snd (life m envs p)))
     = default (error_message (p_task p)) (last_failure (fst (life m envs p))))
  ∧ (∀ u d f md fs l,
       let run := life m envs (mkProc (new_task u d f md) fs l) in
       error_message (p_task (snd run)) = default "" (last_failure (fst run))).
Proof.
  assert (H : ∀ p,
     error_message (p_task (snd (life m envs p)))
     = default (error_message (p_task p)) (last_failure (fst (life m envs p)))).
  { induction envs as [|env rest IH]; intros p; [reflexivity|].
    cbn [life]. case_bool_decide; [|reflexivity].
    pose proof (untouched_try_block m env (admitted p)) as (_&_&_&_&Hem).
    destruct (attempt_cases m env (admitted p))
      as [(p1&Ht&Ha)|[(e&p1&Ht&Ha)|(p1&Ht&Ha)]];
      rewrite Ha, Ht in *; cbn [fst snd] in *.
    - specialize (IH p1). destruct (life m rest p1) as [h p'']; cbn [fst snd] in *.
      rewrite IH, Hem. reflexivity.
    - match goal with |- context [life m rest ?q] =>
        specialize (IH q); destruct (life m rest q) as [h p''] eqn:Hl;
        assert (Hq : error_message (p_task q) = str e)
      end.
      { destruct (retry_count (p_task (admitted p)) <? max_retries m).
        - apply retry_state_fields.
        - apply error_state_fields. }
      cbn [fst snd] in *. rewrite IH, Hq. unfold last_failure. cbn [omap].
      symmetry. apply last_cons_default.
    - exact Hem. }
  split; [exact H|].
  intros u d f md fs l. exact (H (mkProc (new_task u d f md) fs l)).
Qed.

(** C9 as stated fails: one failed attempt, then a retry that completes. *)
Lemma error_message_not_cleared :
  let m := new_manager 1 None true 3 in
  let run := life m [env_http_500; env_five_bytes] (mkProc sample_task ∅ []) in
  fst run = [Raise (mkExc HttpException "HTTP 500"); Return tt]
  ∧ status (p_task (snd run)) = COMPLETED
  ∧ error_message (p_task (snd run)) = "HTTP 500"
  ∧ error_message (p_task (snd run)) ≠ "".
Proof. vm_compute. repeat split; try reflexivity. discriminate. Qed.

(** ** The temp file during a transfer *)

#[local] Instance keeps_file_preorder path : PreOrder (keeps_file path).
Proof. split; unfold keeps_file; [intros p; auto | intros p q r; auto]. Qed.

Lemma ensures_bind_r {A B} Q (m : Worker A) (k : A → Worker B) :
  (∀ a, ensures Q (k a)) → ensures Q (m ≫= k).
Proof.
  intros Hk p b p' H. apply bind_return in H as (a & p1 & _ & H2).
  eapply Hk, H2.
Qed.

Lemma ensures_bind_keep {A B} Q (m : Worker A) (k : A → Worker B) :
  ensures Q m → (∀ a, keeps (λ p p', Q p → Q p') (k a)) → ensures Q (m ≫= k).
Proof.
  intros Hm Hk p b p' H. apply bind_return in H as (a & p1 & H1 & H2).
  specialize (Hk a p1). rewrite H2 in Hk. apply Hk. eapply Hm, H1.
Qed.

Ltac file_leaf path :=
  solve [ intros ? ?; cbn; first [ assumption | eexists; apply lookup_insert_eq ] ].

Lemma keeps_file_wait path ps : keeps (keeps_file path) (wait_while_paused ps).
Proof.
  induction ps as [|ws ps IH]; cbn [wait_while_paused]; frame;
    try file_leaf path; assumption.
Qed.

Lemma keeps_file_process_chunk m temp started c lu :
  keeps (keeps_file temp) (process_chunk m temp started c lu).
Proof.
  unfold process_chunk; frame; try file_leaf temp; apply keeps_file_wait.
Qed.

Lemma keeps_file_stream_body m temp started body ending lu :
  keeps (keeps_file temp) (stream_body m temp started body ending lu).
Proof.
  revert lu. induction body as [|c body IH]; intros lu; cbn [stream_body].
  - frame.
  - frame; [apply keeps_file_process_chunk | apply IH].
Qed.

Lemma py_open_file path mode : ensures (file_at path) (py_open path mode).
Proof.
  intros p a p'. unfold py_open, file_at. run.
  destruct (p_fs p !! path) as [[c|]|] eqn:Hl; run; try discriminate.
  - case_bool_decide; run; intros [= <- <-]; cbn;
      [eexists; apply lookup_insert_eq | eauto].
  - intros [= <- <-]; cbn. eexists; apply lookup_insert_eq.
Qed.

Lemma receive_file m temp sb env : ensures (file_at temp) (receive m temp sb env).
Proof.
  unfold receive. destruct (server env) as [msg|sc cl body ending].
  - intros p a p'. discriminate.
  - do 2 (apply ensures_bind_r; intros ?).
    apply ensures_bind_keep; [apply py_open_file|].
    intros ?. apply (keeps_file_stream_body m temp).
Qed.

(** When the stream has been read to its end, the temp file is there. *)
Lemma transfer_file m env p a p' :
  transfer m env p = (Return a, p') → file_at (temp_file (p_task p)) p'.
Proof.
  unfold transfer. intros H.
  apply bind_return in H as (t & p0 & [= <- <-] & H). cbn zeta in H.
  apply bind_return in H as (sb & p1 & _ & H).
  apply bind_return in H as (? & p2 & _ & H).
  eapply receive_file, H.
Qed.


Lemma completions_app l l' : completions (l ++ l') = (completions l + completions l')%nat.
Proof. unfold completions. rewrite filter_app, length_app. reflexivity. Qed.

Lemma completions_cons e l :
  completions (e :: l) = ((if is_completion e then 1 else 0) + completions l)%nat.
Proof.
  unfold completions. rewrite filter_cons.
  destruct (is_completion e); case_decide; try congruence; reflexivity.
Qed.

Lemma try_block_after_transfer m env p p1 :
  transfer m env p = (Return tt, p1) → try_block m env p = finish m p1.
Proof.
  intros H. unfold try_block, mbind, Prog_bind, pbind. rewrite H. reflexivity.
Qed.

(** C7, as the code has it.  When the response body has been streamed to
    its end (and no directory sits at [full_path]), the worker deletes a
    file already at [full_path], renames the temp file to [full_path], sets
    COMPLETED and progress 100 and, if a completion callback is registered,
    calls it once, with the task: each completing attempt adds exactly one
    call.  (A task that [add_download] marks COMPLETED because its file
    exists gets no call.) *)
Theorem completion_spec (m : Manager) (env : AttemptEnv) (p p1 : Proc) :
  transfer m env p = (Return tt, p1) →
  p_fs p1 !! full_path (p_task p) ≠ Some Dir →
  let full := full_path (p_task p) in
  let temp := temp_file (p_task p) in
  let p2 := snd (attempt m env p) in
  ∃ content,
    p_fs p1 !! temp = Some (File content)
    ∧ fst (attempt m env p) = Return tt
    ∧ status (p_task p2) = COMPLETED
    ∧ progress (p_task p2) = 100%Q
    ∧ p_fs p2 !! full = Some (File content)
    ∧ p_fs p2 !! temp = None
    ∧ p_log p2 = p_log p1
                 ++ (if os_path_exists (p_fs p1) full then [EvRemove full] else [])
                 ++ [EvRename temp full]
                 ++ (if completion_callback m
                     then [EvCompletionCallback (p_task p2)] else [])
    ∧ completions (p_log p2)
      = (completions (p_log p1) + (if completion_callback m then 1 else 0))%nat.
Proof.
  intros Ht Hdir. cbn zeta.
  destruct (transfer_file _ _ _ _ _ Ht) as [content Hc].
  pose proof (untouched_transfer m env p) as (_&Hd&Hf&_&_).
  rewrite Ht in Hd, Hf; cbn in Hd, Hf.
  assert (Htemp : temp_file (p_task p1) = temp_file (p_task p))
    by (apply temp_file_ext; assumption).
  assert (Hfull : full_path (p_task p1) = full_path (p_task p))
    by (unfold full_path; congruence).
  assert (Ha : attempt m env p = (Return tt, finished_state m content p1)).
  { unfold attempt. rewrite (try_block_after_transfer _ _ _ _ Ht).
    rewrite (finish_eq m p1 content); [reflexivity | congruence | congruence]. }
  exists content. rewrite Ha. cbn [fst snd].
  pose proof (temp_file_ne (p_task p)) as Hne.
  unfold finished_state. rewrite Htemp, Hfull. cbn [p_task p_fs p_log].
  split; [exact Hc|]. split; [reflexivity|]. split; [reflexivity|].
  split; [reflexivity|]. split; [apply lookup_insert_eq|].
  split; [rewrite lookup_insert_ne by congruence; apply lookup_delete_eq|].
  split; [reflexivity|].
  rewrite !completions_app.
  destruct (os_path_exists (p_fs p1) (full_path (p_task p)));
    destruct (completion_callback m); rewrite ?completions_cons; cbn; lia.
Qed.

Lemma completion_spec_witness :
  let m := new_manager 1 None true 3 in
  let p := admitted (mkProc sample_task ∅ []) in
  status (p_task (snd (attempt m env_five_bytes p))) = COMPLETED
  ∧ completions (p_log (snd (attempt m env_five_bytes p))) = 1%nat.
Proof.
  cbn zeta.
  destruct (completion_spec (new_manager 1 None true 3) env_five_bytes
              (admitted (mkProc sample_task ∅ []))
              (snd (transfer (new_manager 1 None true 3) env_five_bytes
                      (admitted (mkProc sample_task ∅ [])))))
    as (content & _ & _ & Hs & _ & _ & _ & _ & Hc).
  - vm_compute. reflexivity.
  - vm_compute. discriminate.
  - split; [exact Hs|]. rewrite Hc. vm_compute. reflexivity.
Defined.

(** ** The start of an attempt *)

(** The resume point in closed form: [downloaded_size] is assigned only
    when something sits at the temp path. *)
Lemma resume_point_eq temp p :
  resume_point temp p =
    match p_fs p !! temp with
    | Some (File c) =>
        (Return (Z.of_nat (length c)),
         mkProc (set_downloaded_size (Z.of_nat (length c)) (p_task p)) (p_fs p) (p_log p))
    | Some Dir =>
        (Return dir_size,
         mkProc (set_downloaded_size dir_size (p_task p)) (p_fs p) (p_log p))
    | None => (Return 0, p)
    end.
Proof.
  destruct p as [t fs l]. unfold resume_point, os_path_getsize. run.
  destruct (fs !! temp) as [[c|]|] eqn:Hl; run; rewrite ?Hl; reflexivity.
Qed.

(** The request and the opening of the temp file follow the resume point:
    a [Range] header exactly when [start_byte > 0], mode ['ab'] when
    [start_byte > 0] and ['wb'] otherwise. *)
Lemma transfer_eq m env p :
  transfer m env p =
    match resume_point (temp_file (p_task p)) p with
    | (Return start_byte, p0) =>
        receive m (temp_file (p_task p)) start_byte env
          (mkProc (p_task p0) (p_fs p0)
             (p_log p0 ++ [EvRequest "GET" (url (p_task p)) (range_headers start_byte)]))
    | (Raise e, p0) => (Raise e, p0)
    | (Hang, p0) => (Hang, p0)
    end.
Proof.
  unfold transfer. run.
  destruct (resume_point (temp_file (p_task p)) p) as [[sb| |] p0]; reflexivity.
Qed.

Lemma range_headers_spec start_byte :
  (0 < start_byte → range_headers start_byte
                    = [("Range", "bytes=" +:+ pretty start_byte +:+ "-")])
  ∧ (start_byte ≤ 0 → range_headers start_byte = [])
  ∧ (0 < start_byte → open_mode start_byte = "ab")
  ∧ (start_byte ≤ 0 → open_mode start_byte = "wb").
Proof.
  unfold range_headers, open_mode.
  destruct (Z.ltb_spec 0 start_byte); repeat split; intros; try reflexivity; lia.
Qed.

(** C8.  The code at the start of an attempt on a task that has counted
    three bytes in an earlier attempt and whose temp file is gone:
    [start_byte] is 0, no [Range] header is sent, the file is opened with
    ['wb'], but [downloaded_size] is still 3; after the five bytes of the
    body it is 8 while [total_size] is 5. *)
Lemma stale_downloaded_size :
  let m := new_manager 2 None true 3 in
  let t := set_downloaded_size 3 (set_status DOWNLOADING sample_task) in
  let p := mkProc t ∅ [] in
  let p1 := snd (transfer m env_five_bytes p) in
  resume_point (temp_file t) p = (Return 0, p)
  ∧ downloaded_size (p_task (snd (resume_point (temp_file t) p))) = 3
  ∧ p_log p1 = [EvRequest "GET" (url t) []; EvOpen (temp_file t) "wb"]
  ∧ downloaded_size (p_task p1) = 8
  ∧ total_size (p_task p1) = 5.
Proof. vm_compute. repeat split; reflexivity. Qed.

(** ** The speed limit *)

#[local] Instance no_throttle_preorder : PreOrder no_throttle.
Proof.
  split.
  - intros p. exists []. split; [now rewrite app_nil_r | constructor].
  - intros p q r (l1&H1&F1) (l2&H2&F2). exists (l1 ++ l2). split.
    + rewrite H2, H1, app_assoc. reflexivity.
    + apply Forall_app; auto.
Qed.

Lemma no_throttle_same_log (p p' : Proc) : p_log p' = p_log p → no_throttle p p'.
Proof. intros H. exists []. split; [now rewrite app_nil_r | constructor]. Qed.

Lemma no_throttle_emit e : is_throttle e = false → keeps no_throttle (emit e).
Proof. intros H p. exists [e]. split; [reflexivity | repeat constructor; exact H]. Qed.

Ltac throttle_leaf :=
  solve [ apply no_throttle_emit; reflexivity
        | intros ?; apply no_throttle_same_log; reflexivity ].

Lemma apply_speed_limit_off m len :
  max_download_speed m = None ∨ max_download_speed m = Some 0 →
  apply_speed_limit m len = mret tt.
Proof. unfold apply_speed_limit. intros [-> | ->]; reflexivity. Qed.

Lemma no_throttle_wait ps : keeps no_throttle (wait_while_paused ps).
Proof.
  induction ps as [|ws ps IH]; cbn [wait_while_paused]; frame;
    try throttle_leaf; assumption.
Qed.

Lemma no_throttle_process_chunk m temp started c lu :
  max_download_speed m = None ∨ max_download_speed m = Some 0 →
  keeps no_throttle (process_chunk m temp started c lu).
Proof.
  intros H. unfold process_chunk. rewrite (apply_speed_limit_off m _ H).
  frame; try throttle_leaf; apply no_throttle_wait.
Qed.

Lemma no_throttle_stream_body m temp started body ending lu :
  max_download_speed m = None ∨ max_download_speed m = Some 0 →
  keeps no_throttle (stream_body m temp started body ending lu).
Proof.
  intros H. revert lu. induction body as [|c body IH]; intros lu; cbn [stream_body].
  - frame.
  - frame; [apply no_throttle_process_chunk, H | apply IH].
Qed.

Lemma no_throttle_try_block m env :
  max_download_speed m = None ∨ max_download_speed m = Some 0 →
  keeps no_throttle (try_block m env).
Proof.
  intros H. unfold try_block, transfer, receive.
  frame; try throttle_leaf; apply no_throttle_stream_body, H.
Qed.

Lemma no_throttle_except_block m e : keeps no_throttle (except_block m e).
Proof.
  intros p. rewrite except_block_eq. cbn [snd].
  destruct (retry_count (p_task p) <? max_retries m).
  - unfold retry_state. eexists; split; [reflexivity|].
    destruct (update_callback m); repeat constructor.
  - unfold error_state. destruct (p_fs p !! temp_file (p_task p)) as [[c|]|].
    + eexists; split; [reflexivity|]. repeat constructor.
    + apply no_throttle_same_log; reflexivity.
    + apply no_throttle_same_log; reflexivity.
Qed.

Lemma no_throttle_attempt m env :
  max_download_speed m = None ∨ max_download_speed m = Some 0 →
  keeps no_throttle (attempt m env).
Proof.
  intros H p. unfold attempt.
  pose proof (no_throttle_try_block m env H p) as Ht.
  destruct (try_block m env p) as [[a|e|] p1]; cbn [snd] in *; try exact Ht.
  etransitivity; [exact Ht | apply no_throttle_except_block].
Qed.

Lemma Qeq_bool_inject_Z_0 z : z ≠ 0 → Qeq_bool (inject_Z z) 0 = false.
Proof.
  intros Hz. unfold Qeq_bool, inject_Z; cbn. rewrite Z.mul_1_r.
  apply Z.eqb_neq. exact Hz.
Qed.

Lemma apply_speed_limit_on m len s :
  max_download_speed m = Some s → s ≠ 0 →
  apply_speed_limit m len
  = time_sleep Throttle (Qred (inject_Z len / inject_Z (s * 1024))).
Proof.
  intros Hs Hz. unfold apply_speed_limit. rewrite Hs.
  rewrite bool_decide_eq_false_2 by assumption.
  unfold py_truediv. rewrite Qeq_bool_inject_Z_0 by lia. reflexivity.
Qed.

Lemma process_chunk_off m temp started c lu :
  max_download_speed m = None ∨ max_download_speed m = Some 0 →
  process_chunk m temp started c lu
  = process_chunk (set_max_download_speed None m) temp started c lu.
Proof.
  intros H. unfold process_chunk.
  rewrite (apply_speed_limit_off m _ H).
  rewrite (apply_speed_limit_off (set_max_download_speed None m)) by (left; reflexivity).
  reflexivity.
Qed.

Lemma bind_ext {S A B} (m m' : Prog S A) (k k' : A → Prog S B) s :
  m s = m' s → (∀ a s', k a s' = k' a s') → (m ≫= k) s = (m' ≫= k') s.
Proof.
  intros Hm Hk. unfold mbind, Prog_bind, pbind. rewrite Hm.
  destruct (m' s) as [[a| |] s']; auto.
Qed.

Lemma stream_body_off m temp started body ending lu p :
  max_download_speed m = None ∨ max_download_speed m = Some 0 →
  stream_body m temp started body ending lu p
  = stream_body (set_max_download_speed None m) temp started body ending lu p.
Proof.
  intros H. revert lu p. induction body as [|c body IH]; intros lu p; cbn [stream_body].
  - reflexivity.
  - apply bind_ext; [now rewrite (process_chunk_off m) | intros; apply IH].
Qed.

Lemma attempt_off m env p :
  max_download_speed m = None ∨ max_download_speed m = Some 0 →
  attempt m env p = attempt (set_max_download_speed None m) env p.
Proof.
  intros H.
  assert (Ht : try_block m env p = try_block (set_max_download_speed None m) env p).
  { unfold try_block, transfer, receive.
    apply bind_ext; [|reflexivity].
    apply bind_ext; [reflexivity|]. intros t p0. cbn zeta.
    apply bind_ext; [reflexivity|]. intros sb p1.
    apply bind_ext; [reflexivity|]. intros [] p2.
    destruct (server env) as [msg|sc cl body ending]; [reflexivity|].
    apply bind_ext; [reflexivity|]. intros [] p3.
    apply bind_ext; [reflexivity|]. intros [] p4.
    apply bind_ext; [reflexivity|]. intros [] p5.
    apply stream_body_off, H. }
  unfold attempt. rewrite Ht. reflexivity.
Qed.

(** C10.  The quotient [len(chunk) / (max_download_speed * 1024)] is
    computed, and the worker sleeps on it, only under a ceiling that is
    neither [None] nor 0; under [None] or 0 the speed limit does nothing, an
    attempt logs no sleep of the speed limit and behaves as with no
    ceiling at all; and the speed limit never raises ZeroDivisionError. *)
Theorem speed_limit_guard (m : Manager) (len : Z) (env : AttemptEnv) (p : Proc) :
  (∀ s, max_download_speed m = Some s → s ≠ 0 →
     apply_speed_limit m len p
     = time_sleep Throttle (Qred (inject_Z len / inject_Z (s * 1024))) p)
  ∧ (max_download_speed m = None ∨ max_download_speed m = Some 0 →
     apply_speed_limit m len p = (Return tt, p)
     ∧ no_throttle p (snd (attempt m env p))
     ∧ attempt m env p = attempt (set_max_download_speed None m) env p)
  ∧ (∀ e, fst (apply_speed_limit m len p) = Raise e →
     exc_class e ≠ ZeroDivisionError).
Proof.
  split; [|split].
  - intros s Hs Hz. now rewrite (apply_speed_limit_on m len s).
  - intros H. split; [|split].
    + now rewrite (apply_speed_limit_off m len H).
    + apply no_throttle_attempt, H.
    + apply attempt_off, H.
  - intros e. destruct (max_download_speed m) as [s|] eqn:Hs.
    + destruct (decide (s = 0)) as [->|Hz].
      * rewrite apply_speed_limit_off by auto. discriminate.
      * rewrite (apply_speed_limit_on m len s) by assumption.
        unfold time_sleep. destruct (Qle_bool 0 _); cbn; [discriminate|].
        intros [= <-]. discriminate.
    + rewrite apply_speed_limit_off by auto. discriminate.
Qed.

(** ** Admission *)

Lemma first_queued_none h ids :
  (∀ j, j ∈ ids → status (h !!! j) ≠ QUEUED) → first_queued h ids = None.
Proof.
  induction ids as [|i ids IH]; intros H; cbn; [reflexivity|].
  rewrite bool_decide_eq_false_2 by (apply H; left).
  apply IH. intros j Hj. apply H. now right.
Qed.

Lemma first_queued_first h pre i post :
  (∀ j, j ∈ pre → status (h !!! j) ≠ QUEUED) →
  status (h !!! i) = QUEUED →
  first_queued h (pre ++ i :: post) = Some i.
Proof.
  induction pre as [|k pre IH]; intros H Hi; cbn.
  - now rewrite bool_decide_eq_true_2.
  - rewrite bool_decide_eq_false_2 by (apply H; left).
    apply IH; [|assumption]. intros j Hj. apply H. now right.
Qed.

Lemma first_queued_some h ids i :
  first_queued h ids = Some i → i ∈ ids ∧ status (h !!! i) = QUEUED.
Proof.
  induction ids as [|k ids IH]; cbn; [discriminate|].
  case_bool_decide as Hk.
  - intros [= <-]. split; [left | assumption].
  - intros H. destruct (IH H). split; [now right | assumption].
Qed.

Lemma start_next_at_ceiling w :
  max_concurrent_downloads (w_mgr w) ≤ active_downloads (w_mgr w) →
  _start_next_download w = w.
Proof. intros H. unfold _start_next_download. now rewrite bool_decide_eq_true_2. Qed.

Lemma start_next_picks w i :
  active_downloads (w_mgr w) < max_concurrent_downloads (w_mgr w) →
  first_queued (w_heap w) (tasks (w_mgr w)) = Some i →
  _start_next_download w =
    {| w_heap := alter (set_status DOWNLOADING) i (w_heap w);
       w_mgr := set_active_downloads (active_downloads (w_mgr w) + 1) (w_mgr w);
       w_fs := w_fs w;
       w_threads := w_threads w ++ [(i, Running)];
       w_log := w_log w ++ [EvThreadStart i] |}.
Proof.
  intros H Hq. unfold _start_next_download.
  rewrite bool_decide_eq_false_2 by lia. now rewrite Hq.
Qed.

(** C5.  [_start_next_download] does nothing when the number of active
    workers has reached the ceiling; below the ceiling it does nothing when
    no task of the list is QUEUED, and otherwise it takes the first QUEUED
    task of the list, adds one to the number of active workers, sets that
    task (and no other) to DOWNLOADING and starts a worker thread for it. *)
Theorem start_next_download_spec (w : World) :
  let m := w_mgr w in
  (max_concurrent_downloads m ≤ active_downloads m → _start_next_download w = w)
  ∧ (active_downloads m < max_concurrent_downloads m →
     (∀ j, j ∈ tasks m → status (w_heap w !!! j) ≠ QUEUED) →
     _start_next_download w = w)
  ∧ (active_downloads m < max_concurrent_downloads m →
     ∀ pre i post,
       tasks m = pre ++ i :: post →
       (∀ j, j ∈ pre → status (w_heap w !!! j) ≠ QUEUED) →
       status (w_heap w !!! i) = QUEUED →
       (i < length (w_heap w))%nat →
       let w' := _start_next_download w in
       active_downloads (w_mgr w') = active_downloads m + 1
       ∧ status (w_heap w' !!! i) = DOWNLOADING
       ∧ (∀ j, j ≠ i → w_heap w' !!! j = w_heap w !!! j)
       ∧ w_threads w' = w_threads w ++ [(i, Running)]
       ∧ w_log w' = w_log w ++ [EvThreadStart i]
       ∧ tasks (w_mgr w') = tasks m
       ∧ w_fs w' = w_fs w).
Proof.
  cbn zeta. split; [|split].
  - apply start_next_at_ceiling.
  - intros H Hn. unfold _start_next_download.
    rewrite bool_decide_eq_false_2 by lia.
    now rewrite first_queued_none.
  - intros H pre i post Ht Hpre Hi Hlen.
    rewrite (start_next_picks w i H)
      by (rewrite Ht; apply first_queued_first; assumption).
    cbn. repeat split.
    + rewrite list_lookup_total_alter_eq by assumption. reflexivity.
    + intros j Hj. now rewrite list_lookup_total_alter_ne.
Qed.

Lemma start_next_download_spec_witness :
  let w := enqueued 0 ∅ (mkWorld [sample_task] (new_manager 1 None true 3) ∅ [] []) in
  status (w_heap (_start_next_download w) !!! 0%nat) = DOWNLOADING
  ∧ w_threads (_start_next_download w) = [(0%nat, Running)].
Proof.
  cbn zeta.
  destruct (start_next_download_spec
              (enqueued 0 ∅ (mkWorld [sample_task] (new_manager 1 None true 3) ∅ [] [])))
    as (_ & _ & H).
  destruct (H ltac:(cbn; lia) [] 0%nat [] eq_refl) as (_ & Hs & _ & Ht & _).
  - intros j Hj. inversion Hj.
  - reflexivity.
  - cbn; lia.
  - split; [exact Hs | exact Ht].
Defined.

(** ** Submission *)

Lemma start_next_frame w :
  let w' := _start_next_download w in
  tasks (w_mgr w') = tasks (w_mgr w)
  ∧ w_fs w' = w_fs w
  ∧ max_concurrent_downloads (w_mgr w') = max_concurrent_downloads (w_mgr w)
  ∧ max_retries (w_mgr w') = max_retries (w_mgr w)
  ∧ length (w_heap w') = length (w_heap w).
Proof.
  cbn zeta. unfold _start_next_download. case_bool_decide; [tauto|].
  destruct (first_queued _ _); cbn; rewrite ?length_alter; tauto.
Qed.




(** C7 as stated fails for a task whose file already exists: it reaches
    COMPLETED through [add_download] and the completion callback, though
    registered, is not called. *)
Lemma completed_without_callback :
  let w0 := init_world 1 None true 3 {[ "/downloads/image.bin" := File [] ]} in
  let w := snd (submit "http://dl.example/image.bin" "/downloads" "image.bin" [] w0) in
  completion_callback (w_mgr w) = true
  ∧ tasks (w_mgr w) = [0%nat]
  ∧ status (w_heap w !!! 0%nat) = COMPLETED
  ∧ completions (w_log w) = 0%nat.
Proof. vm_compute. repeat split; reflexivity. Qed.

(** ** Threads and slots *)

Lemma list_insert_split {A} (l : list A) i x y :
  l !! i = Some x →
  ∃ l1 l2, l = l1 ++ x :: l2 ∧ <[i:=y]> l = l1 ++ y :: l2.
Proof.
  intros H. exists (take i l), (drop (S i) l). split.
  - symmetry. apply take_drop_middle, H.
  - apply insert_take_drop. eapply lookup_lt_Some, H.
Qed.

Lemma slots_app l1 l2 : slots (l1 ++ l2) = (slots l1 + slots l2)%nat.
Proof. unfold slots. rewrite filter_app, length_app. reflexivity. Qed.

Lemma slots_cons th l :
  slots (th :: l) = ((if holds_slot th then 1 else 0) + slots l)%nat.
Proof.
  unfold slots. rewrite filter_cons.
  destruct (holds_slot th); case_decide; try congruence; reflexivity.
Qed.

Lemma running_ids_app l1 l2 :
  running_ids (l1 ++ l2) = running_ids l1 ++ running_ids l2.
Proof. unfold running_ids. apply omap_app. Qed.

Lemma running_ids_cons_running tid l :
  running_ids ((tid, Running) :: l) = tid :: running_ids l.
Proof. reflexivity. Qed.

Lemma running_ids_cons_other tid ph l :
  ph ≠ Running → running_ids ((tid, ph) :: l) = running_ids l.
Proof. destruct ph; [contradiction | reflexivity..]. Qed.

Lemma running_ids_lookup ths i tid :
  ths !! i = Some (tid, Running) → tid ∈ running_ids ths.
Proof.
  intros H. destruct (list_insert_split ths i _ (tid, Running) H) as (l1&l2&->&_).
  rewrite running_ids_app, running_ids_cons_running, elem_of_app.
  right; left.
Qed.

Lemma running_ids_valid ths n tid :
  (∀ th, th ∈ ths → (fst th < n)%nat) → tid ∈ running_ids ths → (tid < n)%nat.
Proof.
  intros Hv. unfold running_ids. rewrite list_elem_of_omap.
  intros ([t ph] & Hin & Hs). destruct ph; try discriminate.
  injection Hs as <-. apply (Hv _ Hin).
Qed.

(** ** The invariant of the scheduler *)

Ltac wsimpl :=
  cbn [w_heap w_mgr w_threads w_fs w_log tasks active_downloads
       max_concurrent_downloads max_retries set_active_downloads set_tasks
       update_task set_phase release_slot fst snd].

Lemma inv_ext w w' :
  w_heap w' = w_heap w →
  tasks (w_mgr w') = tasks (w_mgr w) →
  active_downloads (w_mgr w') = active_downloads (w_mgr w) →
  max_concurrent_downloads (w_mgr w') = max_concurrent_downloads (w_mgr w) →
  max_retries (w_mgr w') = max_retries (w_mgr w) →
  w_threads w' = w_threads w →
  Inv w → Inv w'.
Proof.
  intros Hh Ht Ha Hc Hr Hth [H1 H2 H3 H4 H5 H6 H7 H8].
  constructor; rewrite ?Hh, ?Ht, ?Ha, ?Hc, ?Hr, ?Hth; assumption.
Qed.

Lemma inv_init mcd mds cc mr fs : Inv (init_world mcd mds cc mr fs).
Proof.
  constructor; cbn.
  - constructor.
  - intros i Hi. inversion Hi.
  - intros th Hth. inversion Hth.
  - reflexivity.
  - lia.
  - constructor.
  - intros tid Htid. lia.
  - intros tid Htid. lia.
Qed.

(** A new task object. *)
Lemma inv_alloc w u d f md :
  Inv w →
  Inv {| w_heap := w_heap w ++ [new_task u d f md]; w_mgr := w_mgr w;
         w_fs := w_fs w; w_threads := w_threads w; w_log := w_log w |}.
Proof.
  intros [H1 H2 H3 H4 H5 H6 H7 H8]. constructor; cbn; try assumption.
  - intros i Hi. rewrite length_app. specialize (H2 i Hi). lia.
  - intros th Hth. rewrite length_app. specialize (H3 th Hth). lia.
  - intros tid. rewrite length_app; cbn. intros Htid.
    destruct (decide (tid < length (w_heap w))%nat) as [Hlt|Hge].
    + rewrite lookup_total_app_l by assumption. apply H7, Hlt.
    + assert (tid = length (w_heap w)) as -> by lia.
      rewrite list_lookup_total_middle by reflexivity. cbn. split.
      * intros [?|?]; discriminate.
      * intros Hin. apply (running_ids_valid _ _ _ H3) in Hin. lia.
  - intros tid. rewrite length_app; cbn. intros Htid.
    destruct (decide (tid < length (w_heap w))%nat) as [Hlt|Hge].
    + rewrite lookup_total_app_l by assumption. apply H8, Hlt.
    + assert (tid = length (w_heap w)) as -> by lia.
      rewrite list_lookup_total_middle by reflexivity. cbn.
      split; [lia | discriminate].
Qed.

(** A write to a task object that keeps [retry_count] and does not move
    the task into or out of DOWNLOADING/PAUSED, nor into ERROR. *)
Lemma inv_alter w tid f :
  Inv w →
  (∀ t, retry_count (f t) = retry_count t) →
  (let t := w_heap w !!! tid in
   ((status (f t) = DOWNLOADING ∨ status (f t) = PAUSED)
    ↔ (status t = DOWNLOADING ∨ status t = PAUSED))
   ∧ (status (f t) = ERROR → status t = ERROR)) →
  Inv (update_task tid f w).
Proof.
  intros [H1 H2 H3 H4 H5 H6 H7 H8] Hrc [Hst Herr].
  constructor; cbn; rewrite ?length_alter; try assumption.
  - intros t Ht. rewrite list_lookup_total_alter. case_decide as Hd.
    + destruct Hd as [-> _]. rewrite Hst. apply H7, Ht.
    + apply H7, Ht.
  - intros t Ht. rewrite list_lookup_total_alter. case_decide as Hd.
    + destruct Hd as [-> _]. rewrite Hrc. specialize (H8 t Ht). cbn in H8.
      split; [tauto|]. intros He. apply H8, Herr, He.
    + apply H8, Ht.
Qed.

(** A change of the task list. *)
Lemma inv_set_tasks w l :
  Inv w → NoDup l → (∀ i, i ∈ l → (i < length (w_heap w))%nat) →
  Inv {| w_heap := w_heap w; w_mgr := set_tasks l (w_mgr w); w_fs := w_fs w;
         w_threads := w_threads w; w_log := w_log w |}.
Proof.
  intros [H1 H2 H3 H4 H5 H6 H7 H8] Hnd Hv. constructor; cbn; assumption.
Qed.

(** [_start_next_download] keeps the invariant. *)
Lemma inv_start_next w : Inv w → Inv (_start_next_download w).
Proof.
  intros HI. unfold _start_next_download. case_bool_decide as Hfull; [exact HI|].
  destruct (first_queued _ _) as [i|] eqn:Hfq; [|exact HI].
  apply first_queued_some in Hfq as [Hin Hq].
  destruct HI as [H1 H2 H3 H4 H5 H6 H7 H8].
  pose proof (H2 i Hin) as Hi.
  assert (Hnr : i ∉ running_ids (w_threads w)).
  { intros Hr. apply H7 in Hr; [|exact Hi]. rewrite Hq in Hr.
    destruct Hr; discriminate. }
  constructor; wsimpl; rewrite ?length_alter; try assumption.
  - intros th. rewrite elem_of_app, list_elem_of_singleton.
    intros [Hth| ->]; [apply H3, Hth | exact Hi].
  - rewrite slots_app, slots_cons, H4. cbn. lia.
  - lia.
  - rewrite running_ids_app. cbn. apply NoDup_app. split; [exact H6|].
    split; [|apply NoDup_singleton].
    intros x Hx Hx'. apply list_elem_of_singleton in Hx' as ->. contradiction.
  - intros t Ht. rewrite running_ids_app, elem_of_app. cbn.
    rewrite list_elem_of_singleton, list_lookup_total_alter.
    case_decide as Hd.
    + destruct Hd as [-> _]. cbn. tauto.
    + rewrite (H7 t Ht). split; [tauto|]. intros [?| ->]; [assumption|].
      exfalso. apply Hd. split; [reflexivity | exact Hi].
  - intros t Ht. rewrite list_lookup_total_alter. case_decide as Hd.
    + destruct Hd as [-> _]. cbn. specialize (H8 t Ht). cbn in H8.
      split; [tauto | discriminate].
    + apply H8, Ht.
Qed.

Lemma NoDup_middle {A} (l1 l2 : list A) x :
  NoDup (l1 ++ x :: l2) → NoDup (l1 ++ l2) ∧ x ∉ l1 ++ l2.
Proof.
  intros H. apply NoDup_app in H as (H1 & H12 & H2).
  apply NoDup_cons in H2 as [Hx H2]. split.
  - apply NoDup_app. repeat split; [assumption | | assumption].
    intros y Hy Hy'. apply (H12 y Hy). now right.
  - rewrite elem_of_app. intros [Hin|Hin]; [|contradiction].
    apply (H12 x Hin). left.
Qed.

(** The [try/except] of a worker ends. *)
Lemma inv_attempt w i tid env :
  Inv w →
  w_threads w !! i = Some (tid, Running) →
  fst (run_attempt tid env w) ≠ Hang →
  Inv (set_phase i tid Releasing (snd (run_attempt tid env w))).
Proof.
  intros [H1 H2 H3 H4 H5 H6 H7 H8] Hth Hnh.
  unfold run_attempt in *.
  destruct (attempt (w_mgr w) env _) as [r p] eqn:Ha. cbn [fst snd] in *.
  destruct r as [a|e|]; [|exfalso; eapply attempt_never_raises, Ha | contradiction].
  apply attempt_return in Ha as (_&_&_&Hres). cbn [p_task] in Hres.
  destruct (list_insert_split _ i _ (tid, Releasing) Hth) as (l1&l2&Hl&Hl').
  assert (Htid : (tid < length (w_heap w))%nat).
  { apply (H3 (tid, Running)). eapply list_elem_of_lookup_2, Hth. }
  rewrite Hl in H3, H4, H6, H7.
  rewrite running_ids_app, running_ids_cons_running in H6, H7.
  apply NoDup_middle in H6 as [H6 Hnot].
  assert (Hrun : running_ids (l1 ++ (tid, Releasing) :: l2)
                 = running_ids l1 ++ running_ids l2)
    by (rewrite running_ids_app, running_ids_cons_other by discriminate; reflexivity).
  constructor; wsimpl; rewrite ?length_insert, ?Hl'; try assumption.
  - intros th. rewrite elem_of_app, elem_of_cons.
    intros [Hin|[->|Hin]];
      [apply H3, elem_of_app; left; exact Hin | exact Htid
      | apply H3, elem_of_app; right; right; exact Hin].
  - rewrite H4, !slots_app, !slots_cons. reflexivity.
  - rewrite Hrun. exact H6.
  - intros t Ht. rewrite Hrun.
    rewrite list_lookup_total_insert. case_decide as Hd.
    + destruct Hd as [<- _]. split; [|intros; contradiction].
      destruct Hres as [(->&_)|[(->&_)|(->&_)]]; intros [?|?]; discriminate.
    + rewrite (H7 t Ht). rewrite !elem_of_app, elem_of_cons.
      split; [|tauto]. intros [?|[->|?]]; [tauto| |tauto].
      exfalso. apply Hd. split; [reflexivity | exact Htid].
  - intros t Ht. rewrite list_lookup_total_insert. case_decide as Hd.
    + destruct Hd as [<- _]. specialize (H8 tid Htid). cbn in H8.
      destruct Hres as [(->&->&_)|[(->&Hlt&->)|(->&Hge&->)]].
      * split; [tauto | discriminate].
      * split; [lia | discriminate].
      * split; [tauto | intros _; exact Hge].
    + apply H8, Ht.
Qed.

(** A worker gives its slot back. *)
Lemma inv_release w i tid :
  Inv w →
  w_threads w !! i = Some (tid, Releasing) →
  Inv (set_phase i tid Admitting (release_slot w)).
Proof.
  intros [H1 H2 H3 H4 H5 H6 H7 H8] Hth.
  destruct (list_insert_split _ i _ (tid, Admitting) Hth) as (l1&l2&Hl&Hl').
  assert (Htid : (tid < length (w_heap w))%nat).
  { apply (H3 (tid, Releasing)). eapply list_elem_of_lookup_2, Hth. }
  assert (Hrun : running_ids (<[i:=(tid, Admitting)]> (w_threads w))
                 = running_ids (w_threads w)).
  { rewrite Hl', Hl, !running_ids_app, !running_ids_cons_other by discriminate.
    reflexivity. }
  constructor; wsimpl; rewrite ?Hrun; try assumption.
  - rewrite Hl'. rewrite Hl in H3. intros th. rewrite elem_of_app, elem_of_cons.
    intros [Hin|[->|Hin]];
      [apply H3, elem_of_app; left; exact Hin | exact Htid
      | apply H3, elem_of_app; right; right; exact Hin].
  - rewrite H4, Hl', Hl, !slots_app, !slots_cons. cbn. lia.
  - lia.
Qed.

(** A worker that has given its slot back ends. *)
Lemma inv_finish_thread w i tid :
  Inv w →
  w_threads w !! i = Some (tid, Admitting) →
  Inv (set_phase i tid Finished w).
Proof.
  intros [H1 H2 H3 H4 H5 H6 H7 H8] Hth.
  destruct (list_insert_split _ i _ (tid, Finished) Hth) as (l1&l2&Hl&Hl').
  assert (Htid : (tid < length (w_heap w))%nat).
  { apply (H3 (tid, Admitting)). eapply list_elem_of_lookup_2, Hth. }
  assert (Hrun : running_ids (<[i:=(tid, Finished)]> (w_threads w))
                 = running_ids (w_threads w)).
  { rewrite Hl', Hl, !running_ids_app, !running_ids_cons_other by discriminate.
    reflexivity. }
  constructor; wsimpl; rewrite ?Hrun; try assumption.
  - rewrite Hl'. rewrite Hl in H3. intros th. rewrite elem_of_app, elem_of_cons.
    intros [Hin|[->|Hin]];
      [apply H3, elem_of_app; left; exact Hin | exact Htid
      | apply H3, elem_of_app; right; right; exact Hin].
  - rewrite H4, Hl', Hl, !slots_app, !slots_cons. reflexivity.
Qed.

(** [add_download] on a task object just made. *)
Lemma inv_submit w u d f md : Inv w → Inv (snd (submit u d f md w)).
Proof.
  intros HI. unfold submit, add_download.
  pose proof (inv_alloc w u d f md HI) as HI'.
  set (w1 := {| w_heap := w_heap w ++ [new_task u d f md]; w_mgr := w_mgr w;
                w_fs := w_fs w; w_threads := w_threads w; w_log := w_log w |}) in *.
  set (tid := length (w_heap w)).
  assert (Hnew : w_heap w1 !!! tid = new_task u d f md)
    by (apply list_lookup_total_middle; reflexivity).
  assert (Hfresh : tid ∉ tasks (w_mgr w)).
  { intros Hin. apply (inv_tasks_valid _ HI) in Hin. unfold tid in Hin. lia. }
  assert (Hnd : NoDup (tasks (w_mgr w1) ++ [tid])).
  { apply NoDup_app. split; [apply (inv_tasks_nodup _ HI)|].
    split; [|apply NoDup_singleton].
    intros x Hx Hx'. apply list_elem_of_singleton in Hx' as ->. contradiction. }
  assert (Hval : ∀ i, i ∈ tasks (w_mgr w1) ++ [tid] → (i < length (w_heap w1))%nat).
  { intros i. rewrite elem_of_app, list_elem_of_singleton.
    intros [Hin| ->]; [apply (inv_tasks_valid _ HI'), Hin|].
    cbn. rewrite length_app. cbn. unfold tid. lia. }
  destruct (exists_ (w_heap w1 !!! tid) (w_fs w1)); cbn [snd].
  - assert (HA : Inv (update_task tid
                        (λ t, set_progress 100 (set_status COMPLETED t)) w1)).
    { apply (inv_alter w1 tid _ HI'); [intros t; reflexivity|].
      cbn zeta. rewrite Hnew. cbn. split; [|discriminate].
      split; intros [?|?]; discriminate. }
    pose proof (inv_set_tasks _ (tasks (w_mgr w1) ++ [tid]) HA Hnd) as HB.
    assert (HC : ∀ i, i ∈ tasks (w_mgr w1) ++ [tid] →
                      (i < length (w_heap (update_task tid
                         (λ t, set_progress 100 (set_status COMPLETED t)) w1)))%nat).
    { cbn [update_task w_heap]. rewrite length_alter. exact Hval. }
    specialize (HB HC). revert HB. apply inv_ext; reflexivity.
  - destruct (os_makedirs _ _) as [e|fs']; cbn [snd]; [exact HI'|].
    apply inv_start_next.
    pose proof (inv_set_tasks w1 (tasks (w_mgr w1) ++ [tid]) HI' Hnd Hval) as HB.
    revert HB. apply inv_ext; reflexivity.
Qed.

(** [cleanup_completed] keeps the invariant. *)
Lemma inv_cleanup w : Inv w → Inv (cleanup_completed w).
Proof.
  intros HI. unfold cleanup_completed. apply inv_set_tasks; [exact HI | |].
  - apply NoDup_filter, (inv_tasks_nodup _ HI).
  - intros i Hi. apply list_elem_of_filter in Hi as [_ Hi].
    apply (inv_tasks_valid _ HI), Hi.
Qed.

Lemma apply_write_status t fw :
  status (apply_write t fw) = status t
  ∧ retry_count (apply_write t fw) = retry_count t.
Proof. destruct fw; split; reflexivity. Qed.

Lemma inv_flag w tid f :
  Inv w →
  (∀ t, status (f t) = status t ∧ retry_count (f t) = retry_count t) →
  Inv (update_task tid f w).
Proof.
  intros HI Hf. apply inv_alter; [exact HI | intros t; apply Hf |].
  cbn zeta. destruct (Hf (w_heap w !!! tid)) as [-> _]. tauto.
Qed.

Lemma inv_running_status w i tid s :
  Inv w →
  w_threads w !! i = Some (tid, Running) →
  s = DOWNLOADING ∨ s = PAUSED →
  Inv (update_task tid (set_status s) w).
Proof.
  intros HI Hth Hs. apply inv_alter; [exact HI | intros t; reflexivity |].
  cbn zeta.
  assert (Htid : (tid < length (w_heap w))%nat).
  { apply (inv_threads_valid _ HI (tid, Running)). eapply list_elem_of_lookup_2, Hth. }
  pose proof (proj2 (inv_status _ HI tid Htid) (running_ids_lookup _ _ _ Hth)) as Hr.
  split; [cbn; tauto|]. cbn. intros ->. destruct Hs; discriminate.
Qed.

(** Every action keeps the invariant. *)
Lemma inv_step w w' : Inv w → step w w' → Inv w'.
Proof.
  intros HI Hs. destruct Hs.
  - apply inv_submit, HI.
  - apply inv_attempt; assumption.
  - eapply inv_running_status; eauto.
  - eapply inv_running_status; eauto.
  - apply inv_release; assumption.
  - apply inv_start_next. eapply inv_finish_thread; eassumption.
  - unfold pause_download. case_bool_decide; [|exact HI].
    apply inv_flag; [exact HI | intros t; split; reflexivity].
  - unfold resume_download. case_bool_decide; [|exact HI].
    apply inv_flag; [exact HI | intros t; split; reflexivity].
  - apply inv_flag; [exact HI | intros t; apply apply_write_status].
  - apply inv_cleanup, HI.
  - revert HI. apply inv_ext; reflexivity.
Qed.

(** No action changes the ceilings. *)
Lemma step_config w w' :
  step w w' →
  max_concurrent_downloads (w_mgr w') = max_concurrent_downloads (w_mgr w)
  ∧ max_retries (w_mgr w') = max_retries (w_mgr w).
Proof.
  intros Hs. destruct Hs; try (split; reflexivity).
  - unfold submit, add_download. destruct (exists_ _ _); cbn [snd]; [split; reflexivity|].
    destruct (os_makedirs _ _) as [e|fs']; cbn [snd]; [split; reflexivity|].
    match goal with |- context [_start_next_download ?x] =>
      destruct (start_next_frame x) as (_&_&->&->&_) end.
    split; reflexivity.
  - unfold run_attempt. destruct (attempt _ _ _). split; reflexivity.
  - match goal with |- context [_start_next_download ?x] =>
      destruct (start_next_frame x) as (_&_&->&->&_) end.
    split; reflexivity.
  - unfold pause_download. case_bool_decide; split; reflexivity.
  - unfold resume_download. case_bool_decide; split; reflexivity.
Qed.

Lemma reachable_inv w0 w :
  Inv w0 → reachable w0 w →
  Inv w
  ∧ max_concurrent_downloads (w_mgr w) = max_concurrent_downloads (w_mgr w0)
  ∧ max_retries (w_mgr w) = max_retries (w_mgr w0).
Proof.
  intros H0 Hr. induction Hr as [w|w1 w2 w3 Hs Hr IH].
  - auto.
  - destruct (step_config _ _ Hs) as [Hc Hm].
    destruct (IH (inv_step _ _ H0 Hs)) as (HI & -> & ->). auto.
Qed.

Lemma running_ids_slots ths : (length (running_ids ths) ≤ slots ths)%nat.
Proof.
  induction ths as [|[tid ph] ths IH]; [reflexivity|].
  rewrite slots_cons.
  destruct ph;
    [rewrite running_ids_cons_running
    | rewrite running_ids_cons_other by discriminate..];
    cbn [holds_slot snd length]; lia.
Qed.

(** C6, as the code has it.  From a new manager with ceiling [C >= 0],
    whatever newly constructed tasks are submitted to it and however its
    workers, the pauses, resumes and flag writes and the clean-ups
    interleave, the number of tasks of the list whose status is DOWNLOADING
    is at most [C]; the count of active workers is the number of threads
    that have not yet given their slot back, and is at most [C] as well.
    Task objects that a worker of another manager is running when they are
    submitted are not covered: the settings dialog submits such objects. *)
Theorem concurrency_bound (C : Z) (mds : option Z) (cc : bool) (mr : Z)
    (fs : FS) (w : World) :
  0 ≤ C →
  reachable (init_world C mds cc mr fs) w →
  get_active_downloads_count w ≤ C
  ∧ active_downloads (w_mgr w) = Z.of_nat (slots (w_threads w))
  ∧ active_downloads (w_mgr w) ≤ C.
Proof.
  intros HC Hr.
  destruct (reachable_inv _ _ (inv_init C mds cc mr fs) Hr) as (HI & Hc & _).
  cbn in Hc. destruct HI as [H1 H2 H3 H4 H5 H6 H7 H8].
  rewrite Hc in H5.
  assert (Hle : (length (filter (λ i, status (w_heap w !!! i) = DOWNLOADING)
                                (tasks (w_mgr w)))
                 ≤ length (running_ids (w_threads w)))%nat).
  { apply submseteq_length, NoDup_submseteq; [apply NoDup_filter, H1|].
    intros i Hi. apply list_elem_of_filter in Hi as [Hd Hin].
    apply H7; [apply H2, Hin | left; exact Hd]. }
  pose proof (running_ids_slots (w_threads w)).
  unfold get_active_downloads_count. repeat split; [lia | exact H4 | lia].
Qed.

Lemma world_two_submitted_reachable :
  reachable (init_world 1 None true 1 ∅) world_two_submitted.
Proof.
  eapply rtc_l; [apply step_submit|].
  eapply rtc_l; [apply step_submit|].
  apply rtc_refl.
Qed.


Lemma concurrency_bound_witness :
  get_active_downloads_count world_two_submitted ≤ 1
  ∧ length (tasks (w_mgr world_two_submitted)) = 2%nat.
Proof.
  split; [|reflexivity].
  apply (concurrency_bound 1 None true 1 ∅ world_two_submitted).
  - lia.
  - eapply rtc_l; [apply step_submit|].
    eapply rtc_l; [apply step_submit|].
    apply rtc_refl.
Defined.

(** C6, the claim as stated, at the settings dialog.  Two downloads are
    started under a ceiling of 1: the first task is DOWNLOADING, the second
    QUEUED.  The dialog is accepted: [show_settings] makes a new manager,
    again with ceiling 1, and submits both task objects to it.  The first is
    still DOWNLOADING, run by the worker of the old manager, and takes none
    of the slots of the new one, which therefore starts the second: two
    tasks of its list are DOWNLOADING under a ceiling of 1. *)
Lemma concurrency_bound_broken_by_readd :
  let win := mkWindow "/downloads" [] world_two_submitted ∅ [] in
  let w' := download_manager (snd (show_settings 1 None win)) in
  reachable (init_world 1 None true 1 ∅) world_two_submitted
  ∧ status (w_heap world_two_submitted !!! 0%nat) = DOWNLOADING
  ∧ status (w_heap world_two_submitted !!! 1%nat) = QUEUED
  ∧ fst (show_settings 1 None win) = Return tt
  ∧ max_concurrent_downloads (w_mgr w') = 1
  ∧ tasks (w_mgr w') = [0%nat; 1%nat]
  ∧ status (w_heap w' !!! 0%nat) = DOWNLOADING
  ∧ status (w_heap w' !!! 1%nat) = DOWNLOADING
  ∧ active_downloads (w_mgr w') = 1
  ∧ w_threads w' = [(0%nat, Running); (1%nat, Running)]
  ∧ get_active_downloads_count w' = 2
  ∧ ¬ get_active_downloads_count w' ≤ max_concurrent_downloads (w_mgr w').
Proof.
  cbn zeta. split; [exact world_two_submitted_reachable|].
  vm_compute. repeat split; try reflexivity. intros H. apply H. reflexivity.
Qed.

(** ** ERROR is final *)

Lemma start_next_status w tid s :
  s ≠ QUEUED → status (w_heap w !!! tid) = s →
  status (w_heap (_start_next_download w) !!! tid) = s.
Proof.
  intros Hs Ht. unfold _start_next_download. case_bool_decide; [exact Ht|].
  destruct (first_queued _ _) as [i|] eqn:Hfq; [|exact Ht].
  apply first_queued_some in Hfq as [_ Hq]. cbn.
  rewrite list_lookup_total_alter. case_decide as Hd; [|exact Ht].
  destruct Hd as [-> _]. congruence.
Qed.

(** A task that no worker is running keeps its status, unless it is
    QUEUED. *)
Lemma step_status_stable w w' tid s :
  Inv w → step w w' →
  (tid < length (w_heap w))%nat →
  s ≠ QUEUED → s ≠ DOWNLOADING → s ≠ PAUSED →
  status (w_heap w !!! tid) = s →
  status (w_heap w' !!! tid) = s.
Proof.
  intros HI Hs Htid Hq Hd Hp Ht.
  assert (Hrun : ∀ i t, w_threads w !! i = Some (t, Running) → t ≠ tid).
  { intros i t Hth ->.
    pose proof (proj2 (inv_status _ HI tid Htid) (running_ids_lookup _ _ _ Hth)).
    rewrite Ht in *. tauto. }
  destruct Hs.
  - unfold submit, add_download.
    set (w1 := {| w_heap := w_heap w ++ [new_task u d f md]; w_mgr := w_mgr w;
                  w_fs := w_fs w; w_threads := w_threads w; w_log := w_log w |}).
    assert (H1 : status (w_heap w1 !!! tid) = s)
      by (cbn; rewrite lookup_total_app_l by assumption; exact Ht).
    destruct (exists_ _ _); cbn [snd w_heap].
    + rewrite list_lookup_total_alter_ne by lia. exact H1.
    + destruct (os_makedirs _ _) as [e|fs']; cbn [snd]; [exact H1|].
      apply start_next_status; assumption.
  - unfold run_attempt. destruct (attempt _ _ _) as [r p]. cbn.
    rewrite list_lookup_total_insert_ne by (eapply Hrun; eassumption). exact Ht.
  - cbn. rewrite list_lookup_total_alter_ne by (eapply Hrun; eassumption). exact Ht.
  - cbn. rewrite list_lookup_total_alter_ne by (eapply Hrun; eassumption). exact Ht.
  - exact Ht.
  - apply start_next_status; assumption.
  - unfold pause_download. case_bool_decide; [|exact Ht]. cbn.
    rewrite list_lookup_total_alter. case_decide as Hdec; [|exact Ht].
    destruct Hdec as [-> _]. exact Ht.
  - unfold resume_download. case_bool_decide; [|exact Ht]. cbn.
    rewrite list_lookup_total_alter. case_decide as Hdec; [|exact Ht].
    destruct Hdec as [-> _]. exact Ht.
  - cbn. rewrite list_lookup_total_alter. case_decide as Hdec; [|exact Ht].
    destruct Hdec as [-> _]. destruct (apply_write_status (w_heap w !!! tid) fw) as [-> _].
    exact Ht.
  - exact Ht.
  - exact Ht.
Qed.

Lemma step_heap_length w w' :
  step w w' → (length (w_heap w) ≤ length (w_heap w'))%nat.
Proof.
  intros Hs. destruct Hs; cbn [update_task set_phase release_slot w_heap
                               cleanup_completed register_update_callback];
    rewrite ?length_alter; try lia.
  - unfold submit, add_download. destruct (exists_ _ _); cbn [snd w_heap].
    + rewrite length_alter, length_app. lia.
    + destruct (os_makedirs _ _) as [e|fs']; cbn [snd w_heap];
        [rewrite length_app; lia|].
      match goal with |- context [_start_next_download ?x] =>
        destruct (start_next_frame x) as (_&_&_&_&->) end.
      cbn. rewrite length_app. lia.
  - unfold run_attempt. destruct (attempt _ _ _). cbn. rewrite length_insert. lia.
  - match goal with |- context [_start_next_download ?x] =>
      destruct (start_next_frame x) as (_&_&_&_&->) end.
    cbn. lia.
  - unfold pause_download. case_bool_decide; cbn; rewrite ?length_alter; lia.
  - unfold resume_download. case_bool_decide; cbn; rewrite ?length_alter; lia.
Qed.

(** A status other than QUEUED, DOWNLOADING and PAUSED is final. *)
Lemma status_final w w' tid s :
  Inv w → reachable w w' →
  (tid < length (w_heap w))%nat →
  s ≠ QUEUED → s ≠ DOWNLOADING → s ≠ PAUSED →
  status (w_heap w !!! tid) = s →
  status (w_heap w' !!! tid) = s.
Proof.
  intros HI Hr. revert HI. induction Hr as [w|w w1 w' Hs Hr IH];
    intros HI Htid Hq Hd Hp Ht; [exact Ht|].
  apply IH; try assumption.
  - eapply inv_step; eassumption.
  - pose proof (step_heap_length _ _ Hs). lia.
  - eapply step_status_stable; eassumption.
Qed.




(** A stale [downloaded_size] arises in the scheduler: two tasks for the
    same file, the first interrupted, the second completing
    from the shared temp file.  When the first is attempted again its
    [downloaded_size] is 3, no temp file exists, and the resume point is 0. *)
Lemma stale_downloaded_size_reachable :
  let w := world_stale_counter in
  let t := w_heap w !!! 0%nat in
  reachable (init_world 2 None true 3 ∅) w
  ∧ w_threads w !! 2%nat = Some (0%nat, Running)
  ∧ status t = DOWNLOADING
  ∧ downloaded_size t = 3
  ∧ w_fs w !! temp_file t = None
  ∧ fst (resume_point (temp_file t) (mkProc t (w_fs w) (w_log w))) = Return 0
  ∧ downloaded_size
      (p_task (snd (resume_point (temp_file t) (mkProc t (w_fs w) (w_log w))))) = 3.
Proof.
  cbn zeta. split.
  - apply rtc_r with world_stale_3; [|apply (step_admit _ 0 0); reflexivity].
    apply rtc_r with world_stale_2; [|apply (step_release _ 0 0); reflexivity].
    apply rtc_r with world_stale_1;
      [|apply (step_attempt _ 1 1 env_last_two_bytes);
        [reflexivity | vm_compute; discriminate]].
    apply rtc_r with world_same_file;
      [|apply (step_attempt _ 0 0 env_broken_after_three);
        [reflexivity | vm_compute; discriminate]].
    eapply rtc_l; [apply step_submit|].
    eapply rtc_l; [apply step_submit|].
    apply rtc_refl.
  - vm_compute. repeat split; reflexivity.
Qed.

(** ** The worker as three actions *)

Lemma start_next_threads_irrelevant w ths :
  let w' := _start_next_download w in
  let v := {| w_heap := w_heap w; w_mgr := w_mgr w; w_fs := w_fs w;
              w_threads := ths; w_log := w_log w |} in
  let v' := _start_next_download v in
  w_heap v' = w_heap w' ∧ w_mgr v' = w_mgr w' ∧ w_fs v' = w_fs w'
  ∧ w_log v' = w_log w'.
Proof.
  cbn zeta. unfold _start_next_download. cbn [w_mgr w_heap].
  case_bool_decide; [tauto|]. destruct (first_queued _ _); cbn; tauto.
Qed.

(** The actions of one worker thread, taken without any other thread in
    between, are steps of the transition system and add up to
    [_download_file]. *)
Lemma download_file_as_steps w i tid env :
  w_threads w !! i = Some (tid, Running) →
  fst (run_attempt tid env w) ≠ Hang →
  let w1 := set_phase i tid Releasing (snd (run_attempt tid env w)) in
  let w2 := set_phase i tid Admitting (release_slot w1) in
  let w3 := _start_next_download (set_phase i tid Finished w2) in
  let w' := snd (_download_file tid env w) in
  step w w1 ∧ step w1 w2 ∧ step w2 w3
  ∧ w_heap w3 = w_heap w' ∧ w_mgr w3 = w_mgr w' ∧ w_fs w3 = w_fs w'
  ∧ w_log w3 = w_log w'.
Proof.
  intros Hth Hnh. cbn zeta.
  assert (Hlt : (i < length (w_threads w))%nat) by (eapply lookup_lt_Some, Hth).
  assert (Hths : w_threads (snd (run_attempt tid env w)) = w_threads w).
  { unfold run_attempt. destruct (attempt _ _ _). reflexivity. }
  split; [apply step_attempt; assumption|].
  split.
  { apply (step_release _ i tid). cbn [set_phase w_threads]. rewrite Hths.
    apply list_lookup_insert_eq, Hlt. }
  split.
  { apply (step_admit _ i tid). cbn [set_phase release_slot w_threads]. rewrite Hths.
    apply list_lookup_insert_eq. rewrite length_insert. exact Hlt. }
  unfold _download_file, finally_block.
  destruct (run_attempt tid env w) as [r wa] eqn:Hra. cbn [fst snd] in *.
  destruct r as [a|e|]; [| |contradiction]; cbn [snd];
    match goal with |- context [_start_next_download (release_slot ?x)] =>
      destruct (start_next_threads_irrelevant (release_slot x)
                  (<[i:=(tid, Finished)]>
                     (<[i:=(tid, Admitting)]> (<[i:=(tid, Releasing)]> (w_threads x)))))
        as (H1&H2&H3&H4)
    end; cbn zeta in *; repeat split; assumption.
Qed.

(** * Further properties of the scheduler *)

Lemma reachable_invariant (P : World → Prop) w0 w :
  P w0 → (∀ v v', P v → step v v' → P v') → reachable w0 w → P w.
Proof.
  intros H0 Hstep Hr. induction Hr as [w|w1 w2 w3 Hs Hr IH]; [exact H0|].
  apply IH. eapply Hstep; eassumption.
Qed.

(** ** A ceiling of zero or less *)

Lemma step_no_worker w w' :
  step w w' →
  max_concurrent_downloads (w_mgr w) ≤ 0 →
  w_threads w = [] → active_downloads (w_mgr w) = 0 →
  Forall (λ t, status t = QUEUED ∨ status t = COMPLETED) (w_heap w) →
  Forall (λ e, is_makedirs e = true) (w_log w) →
  w_threads w' = [] ∧ active_downloads (w_mgr w') = 0
  ∧ Forall (λ t, status t = QUEUED ∨ status t = COMPLETED) (w_heap w')
  ∧ Forall (λ e, is_makedirs e = true) (w_log w').
Proof.
  intros Hs HC Hth Ha Hh Hl.
  assert (Halter : ∀ f tid,
            (∀ t, status (f t) = status t ∨ status (f t) = COMPLETED) →
            Forall (λ t, status t = QUEUED ∨ status t = COMPLETED)
                   (alter f tid (w_heap w))).
  { intros f tid Hf. apply Forall_lookup. intros j t.
    destruct (decide (j = tid)) as [->|Hne].
    - rewrite list_lookup_alter_eq. destruct (w_heap w !! tid) as [t0|] eqn:Hl0;
        [|discriminate].
      intros [= <-]. pose proof (Forall_lookup_1 _ _ _ _ Hh Hl0) as H0.
      destruct (Hf t0) as [-> | ->]; tauto.
    - rewrite list_lookup_alter_ne by congruence. apply (Forall_lookup_1 _ _ _ _ Hh). }
  destruct Hs;
    try (match goal with H : w_threads w !! _ = Some _ |- _ =>
           rewrite Hth in H; discriminate end).
  - unfold submit, add_download.
    set (w1 := {| w_heap := w_heap w ++ [new_task u d f md]; w_mgr := w_mgr w;
                  w_fs := w_fs w; w_threads := w_threads w; w_log := w_log w |}).
    assert (Hh1 : Forall (λ t, status t = QUEUED ∨ status t = COMPLETED) (w_heap w1)).
    { cbn. apply Forall_app. split; [exact Hh|]. repeat constructor. }
    destruct (exists_ _ _); cbn [snd].
    + wsimpl. repeat split; try assumption.
      apply Forall_lookup. intros j t.
      destruct (decide (j = length (w_heap w))) as [->|Hne].
      * rewrite list_lookup_alter_eq.
        destruct (w_heap w1 !! length (w_heap w)) as [t0|]; [|discriminate].
        intros [= <-]. right; reflexivity.
      * rewrite list_lookup_alter_ne by congruence.
        apply (Forall_lookup_1 _ _ _ _ Hh1).
    + destruct (os_makedirs _ _) as [e|fs']; cbn [snd]; [repeat split; assumption|].
      rewrite start_next_at_ceiling by (subst w1; cbn; lia).
      wsimpl. repeat split; try assumption.
      apply Forall_app. split; [exact Hl|]. repeat constructor.
  - unfold pause_download. case_bool_decide; [|repeat split; assumption].
    wsimpl. repeat split; try assumption. apply Halter. intros t; left; reflexivity.
  - unfold resume_download. case_bool_decide; [|repeat split; assumption].
    wsimpl. repeat split; try assumption. apply Halter. intros t; left; reflexivity.
  - wsimpl. repeat split; try assumption. apply Halter.
    intros t; left. apply apply_write_status.
  - repeat split; assumption.
  - repeat split; assumption.
Qed.

(** X1.  Under a manager whose ceiling [max_concurrent_downloads] is zero
    or negative no download ever starts: whatever is submitted, there is
    no worker thread, [active_downloads] stays 0, every task object is
    QUEUED (or COMPLETED because its file was there at submission), and the
    only events are the creations of destination directories: no thread is
    started and no request is sent. *)
Theorem ceiling_zero_starts_nothing (C : Z) (mds : option Z) (cc : bool) (mr : Z)
    (fs : FS) (w : World) :
  C ≤ 0 →
  reachable (init_world C mds cc mr fs) w →
  w_threads w = []
  ∧ active_downloads (w_mgr w) = 0
  ∧ Forall (λ t, status t = QUEUED ∨ status t = COMPLETED) (w_heap w)
  ∧ Forall (λ e, is_makedirs e = true) (w_log w)
  ∧ get_active_downloads_count w = 0.
Proof.
  intros HC Hr.
  assert (H : max_concurrent_downloads (w_mgr w) ≤ 0
              ∧ w_threads w = [] ∧ active_downloads (w_mgr w) = 0
              ∧ Forall (λ t, status t = QUEUED ∨ status t = COMPLETED) (w_heap w)
              ∧ Forall (λ e, is_makedirs e = true) (w_log w)).
  { pattern w. eapply reachable_invariant; [| |exact Hr].
    - cbn. repeat split; try constructor; assumption.
    - intros v v' (H1&H2&H3&H4&H5) Hs.
      destruct (step_config _ _ Hs) as [-> _]. split; [exact H1|].
      eapply step_no_worker; eassumption. }
  destruct H as (_&H2&H3&H4&H5). repeat split; try assumption.
  destruct (reachable_inv _ _ (inv_init C mds cc mr fs) Hr) as (HI & _).
  unfold get_active_downloads_count.
  destruct (filter _ _) as [|i l] eqn:Hf; [reflexivity|].
  assert (Hi : i ∈ filter (λ i, status (w_heap w !!! i) = DOWNLOADING) (tasks (w_mgr w)))
    by (rewrite Hf; left).
  apply list_elem_of_filter in Hi as [Hd Hin].
  pose proof (inv_tasks_valid _ HI i Hin) as Hlt.
  destruct (lookup_lt_is_Some_2 _ _ Hlt) as [t Ht].
  rewrite (list_lookup_total_correct _ _ _ Ht) in Hd.
  pose proof (Forall_lookup_1 _ _ _ _ H4 Ht) as [Hq|Hq]; congruence.
Qed.

Lemma ceiling_zero_starts_nothing_witness :
  let w := snd (submit "http://dl.example/a.bin" "/downloads" "a.bin" []
                  (init_world 0 None true 3 ∅)) in
  w_threads w = [] ∧ status (w_heap w !!! 0%nat) = QUEUED.
Proof.
  cbn zeta.
  destruct (ceiling_zero_starts_nothing 0 None true 3 ∅
              (snd (submit "http://dl.example/a.bin" "/downloads" "a.bin" []
                      (init_world 0 None true 3 ∅)))) as (H & _).
  - lia.
  - apply rtc_once. apply step_submit.
  - split; [exact H | reflexivity].
Defined.

(** ** Paused tasks keep their slot *)



(** ** Clearing the completed tasks *)

Lemma first_queued_filter h ids :
  first_queued h (filter (λ i, status (h !!! i) ≠ COMPLETED) ids)
  = first_queued h ids.
Proof.
  induction ids as [|i ids IH]; [reflexivity|].
  rewrite filter_cons. case_decide as Hc; cbn [first_queued].
  - rewrite IH. reflexivity.
  - rewrite bool_decide_eq_false_2; [exact IH|].
    intros Hq. rewrite Hq in Hc. first [discriminate | apply Hc; discriminate].
Qed.

(** X3.  [cleanup_completed] removes from the list exactly the tasks whose
    status is COMPLETED and keeps the others in their order; it changes
    nothing else (task objects, threads, count of active workers, files);
    doing it twice is doing it once; the number of DOWNLOADING tasks is
    unchanged; and admission is not disturbed: [_start_next_download] starts
    the same task whether the list is cleaned before or after. *)
Theorem cleanup_completed_spec (w : World) :
  let w' := cleanup_completed w in
  (∀ i, i ∈ tasks (w_mgr w')
        ↔ i ∈ tasks (w_mgr w) ∧ status (w_heap w !!! i) ≠ COMPLETED)
  ∧ tasks (w_mgr w') `sublist_of` tasks (w_mgr w)
  ∧ w_heap w' = w_heap w ∧ w_threads w' = w_threads w ∧ w_fs w' = w_fs w
  ∧ w_log w' = w_log w
  ∧ active_downloads (w_mgr w') = active_downloads (w_mgr w)
  ∧ cleanup_completed w' = w'
  ∧ get_active_downloads_count w' = get_active_downloads_count w
  ∧ _start_next_download w' = cleanup_completed (_start_next_download w).
Proof.
  cbn zeta. split; [|split; [|split; [|split; [|split; [|split; [|split; [|split; [|split]]]]]]]];
    try reflexivity.
  - intros i. unfold cleanup_completed; cbn. rewrite list_elem_of_filter. tauto.
  - apply sublist_filter.
  - unfold cleanup_completed; cbn. f_equal. unfold set_tasks; cbn. f_equal.
    rewrite list_filter_filter. apply list_filter_iff. intros i. tauto.
  - unfold get_active_downloads_count, cleanup_completed; cbn.
    rewrite list_filter_filter. f_equal. f_equal. apply list_filter_iff.
    intros i. split; [tauto|]. intros Hd. split; [exact Hd|]. rewrite Hd. discriminate.
  - unfold _start_next_download, cleanup_completed. cbn.
    case_bool_decide; [reflexivity|].
    rewrite first_queued_filter.
    destruct (first_queued (w_heap w) (tasks (w_mgr w))) as [i|] eqn:Hfq; [|reflexivity].
    cbn. f_equal. unfold set_tasks, set_active_downloads; cbn. f_equal.
    apply first_queued_some in Hfq as [_ Hq].
    apply list_filter_iff. intros j.
    rewrite list_lookup_total_alter. case_decide as Hd; [|reflexivity].
    destruct Hd as [-> _]. rewrite Hq. cbn. split; intros _; discriminate.
Qed.

(** ** Pause and resume *)

Lemma alter_fixes {A} (f : A → A) (l : list A) i :
  (∀ x, l !! i = Some x → f x = x) → alter f i l = l.
Proof.
  intros Hf. apply list_eq. intros j.
  destruct (decide (j = i)) as [->|Hne].
  - rewrite list_lookup_alter_eq. destruct (l !! i) as [x|] eqn:Hl; [|reflexivity].
    cbn. f_equal. apply Hf. reflexivity.
  - apply list_lookup_alter_ne. congruence.
Qed.

(** X4.  Pausing and resuming a task that a worker is downloading, each
    acknowledged by the worker (which sets PAUSED, then DOWNLOADING), are
    four actions that bring the world back exactly to where it was: no byte
    count, file or list entry has changed.  But [resume_download] acts only
    on a PAUSED task: a resume that comes before the worker has acknowledged
    the pause does nothing, and the [paused] flag stays set.  Likewise
    [pause_download] does nothing to a task that is not DOWNLOADING. *)
Theorem pause_resume_round_trip (w : World) (i tid : nat) :
  w_threads w !! i = Some (tid, Running) →
  (tid < length (w_heap w))%nat →
  status (w_heap w !!! tid) = DOWNLOADING →
  paused (w_heap w !!! tid) = false →
  stopped (w_heap w !!! tid) = false →
  let w1 := pause_download tid w in
  let w2 := update_task tid (set_status PAUSED) w1 in
  let w3 := resume_download tid w2 in
  let w4 := update_task tid (set_status DOWNLOADING) w3 in
  step w w1 ∧ step w1 w2 ∧ step w2 w3 ∧ step w3 w4
  ∧ paused (w_heap w1 !!! tid) = true
  ∧ status (w_heap w2 !!! tid) = PAUSED
  ∧ paused (w_heap w3 !!! tid) = false
  ∧ w4 = w
  ∧ resume_download tid w1 = w1
  ∧ (∀ v, status (w_heap v !!! tid) ≠ DOWNLOADING → pause_download tid v = v)
  ∧ (∀ v, status (w_heap v !!! tid) ≠ PAUSED → resume_download tid v = v).
Proof.
  intros Hth Htid Hs Hp Hst. cbn zeta.
  destruct (lookup_lt_is_Some_2 _ _ Htid) as [t Ht].
  rewrite (list_lookup_total_correct _ _ _ Ht) in Hs, Hp, Hst.
  assert (E1 : pause_download tid w = update_task tid (set_paused true) w).
  { unfold pause_download. rewrite (list_lookup_total_correct _ _ _ Ht).
    now rewrite bool_decide_eq_true_2. }
  rewrite E1.
  assert (L1 : w_heap (update_task tid (set_paused true) w) !!! tid = set_paused true t).
  { cbn. rewrite list_lookup_total_alter_eq by assumption.
    now rewrite (list_lookup_total_correct _ _ _ Ht). }
  set (w1 := update_task tid (set_paused true) w) in *.
  assert (L2 : w_heap (update_task tid (set_status PAUSED) w1) !!! tid
               = set_status PAUSED (set_paused true t)).
  { cbn [update_task w_heap].
    rewrite list_lookup_total_alter_eq by (subst w1; cbn; now rewrite length_alter).
    now rewrite L1. }
  set (w2 := update_task tid (set_status PAUSED) w1) in *.
  assert (E3 : resume_download tid w2 = update_task tid (set_paused false) w2).
  { unfold resume_download. rewrite L2. reflexivity. }
  assert (L3 : w_heap (update_task tid (set_paused false) w2) !!! tid
               = set_paused false (set_status PAUSED (set_paused true t))).
  { cbn [update_task w_heap].
    rewrite list_lookup_total_alter_eq
      by (subst w2 w1; cbn; now rewrite !length_alter).
    now rewrite L2. }
  rewrite E3.
  split; [subst w1; rewrite <- E1; apply step_pause_download|].
  split; [apply (step_pause_seen _ i tid); [exact Hth | now rewrite L1]|].
  split; [rewrite <- E3; apply step_resume_download|].
  split.
  { apply (step_resume_seen _ i tid); [exact Hth | rewrite L3..]; cbn; auto. }
  split; [now rewrite L1|]. split; [now rewrite L2|]. split; [now rewrite L3|].
  split.
  { subst w2 w1. destruct w as [h m fs ths l]. unfold update_task; cbn in *.
    f_equal. rewrite !list_alter_alter_eq. apply alter_fixes.
    intros x Hx. rewrite Ht in Hx. injection Hx as <-.
    destruct t; cbn in *; subst; reflexivity. }
  split.
  { unfold resume_download. rewrite L1. cbn. rewrite Hs. reflexivity. }
  split.
  - intros v Hv. unfold pause_download. now rewrite bool_decide_eq_false_2.
  - intros v Hv. unfold resume_download. now rewrite bool_decide_eq_false_2.
Qed.

Lemma pause_resume_round_trip_witness :
  let w := world_one_submitted in
  update_task 0 (set_status DOWNLOADING)
    (resume_download 0 (update_task 0 (set_status PAUSED) (pause_download 0 w))) = w
  ∧ resume_download 0 (pause_download 0 w) = pause_download 0 w.
Proof.
  cbn zeta.
  destruct (pause_resume_round_trip world_one_submitted 0 0)
    as (_&_&_&_&_&_&_&H4&H5&_); try reflexivity.
  - vm_compute. constructor.
  - split; [exact H4 | exact H5].
Defined.

(** * Further properties of the worker *)

(** ** A failure before the body *)

(** X5.  When the request gets no response, or a response whose status
    code is neither 200 nor 206, the [try] block raises (the transport
    error, or [Exception("HTTP <code>")]) after the request alone: the temp
    file is not opened, so the file system is as it was and a partial
    download is kept byte for byte.  The attempt records the message in
    [error_message]; with retry budget left it puts the task back to QUEUED
    and still leaves every file as it was. *)
Theorem early_failure_keeps_files (m : Manager) (env : AttemptEnv) (p : Proc)
    (e : PyException) :
  early_failure (server env) = Some e →
  let t := p_task p in
  let start_byte := match p_fs p !! temp_file t with
                    | Some (File c) => Z.of_nat (length c)
                    | Some Dir => dir_size
                    | None => 0
                    end in
  let p2 := snd (attempt m env p) in
  (∃ p1, try_block m env p = (Raise e, p1)
         ∧ p_fs p1 = p_fs p
         ∧ p_log p1 = p_log p ++ [EvRequest "GET" (url t) (range_headers start_byte)]
         ∧ total_size (p_task p1) = total_size t)
  ∧ fst (attempt m env p) = Return tt
  ∧ error_message (p_task p2) = str e
  ∧ (retry_count t < max_retries m →
       status (p_task p2) = QUEUED ∧ p_fs p2 = p_fs p)
  ∧ (max_retries m ≤ retry_count t → status (p_task p2) = ERROR).
Proof.
  intros He. cbn zeta.
  assert (Ht : ∃ p1, try_block m env p = (Raise e, p1)
         ∧ p_fs p1 = p_fs p
         ∧ p_log p1 = p_log p ++ [EvRequest "GET" (url (p_task p))
              (range_headers match p_fs p !! temp_file (p_task p) with
                             | Some (File c) => Z.of_nat (length c)
                             | Some Dir => dir_size
                             | None => 0
                             end)]
         ∧ total_size (p_task p1) = total_size (p_task p)).
  { unfold try_block, mbind, Prog_bind, pbind.
    rewrite transfer_eq, resume_point_eq. unfold receive.
    destruct (server env) as [msg|sc cl body ending]; cbn in He.
    - injection He as <-.
      destruct (p_fs p !! temp_file (p_task p)) as [[c|]|]; cbn;
        eexists; (split; [reflexivity|]); cbn; auto.
    - destruct (negb (bool_decide (sc = 200)) && negb (bool_decide (sc = 206)));
        [|discriminate].
      injection He as <-.
      destruct (p_fs p !! temp_file (p_task p)) as [[c|]|]; run;
        eexists; (split; [reflexivity|]); cbn; auto. }
  destruct Ht as (p1 & Ht & Hfs & Hlog & Hts).
  split; [exists p1; auto|].
  destruct (attempt_cases m env p) as [(p'&Ht'&_)|[(e'&p1'&Ht'&Ha)|(p'&Ht'&_)]];
    rewrite Ht in Ht'; try discriminate.
  injection Ht' as <- <-. rewrite Ha. cbn [fst snd].
  split; [reflexivity|]. split.
  - destruct (retry_count (p_task p) <? max_retries m).
    + apply retry_state_fields.
    + apply error_state_fields.
  - split.
    + intros Hlt. apply Z.ltb_lt in Hlt. rewrite Hlt. cbn. auto.
    + intros Hge. apply Z.ltb_ge in Hge. rewrite Hge. apply error_state_fields.
Qed.

Lemma early_failure_keeps_files_witness :
  let p := mkProc sample_task {[ temp_file sample_task := File [Byte.x01] ]} [] in
  let p2 := snd (attempt (new_manager 1 None true 3) env_http_500 p) in
  error_message (p_task p2) = "HTTP 500" ∧ p_fs p2 = p_fs p.
Proof.
  cbn zeta.
  destruct (early_failure_keeps_files (new_manager 1 None true 3) env_http_500
              (mkProc sample_task {[ temp_file sample_task := File [Byte.x01] ]} [])
              (mkExc HttpException "HTTP 500"))
    as (_ & _ & Hm & Hq & _).
  - reflexivity.
  - split; [exact Hm|]. apply Hq. cbn. lia.
Defined.

(** ** What a transfer writes *)

Lemma grown_trans temp d1 δ1 d2 δ2 p q r :
  grown temp d1 δ1 p q → grown temp d2 δ2 q r →
  grown temp (d1 ++ d2) (δ1 + δ2) p r.
Proof.
  intros (F1&O1&S1) (F2&O2&S2). split; [|split].
  - intros c Hc. rewrite app_assoc. apply F2, F1, Hc.
  - intros x Hx. rewrite (O2 x Hx). apply O1, Hx.
  - lia.
Qed.

#[local] Instance steady_preorder temp : PreOrder (grown temp [] 0).
Proof.
  split.
  - intros p. split; [|split]; [intros c Hc; now rewrite app_nil_r | reflexivity | lia].
  - intros p q r H1 H2. exact (grown_trans temp [] 0 [] 0 p q r H1 H2).
Qed.

Lemma keeps_yields R {A} (m : Worker A) : keeps R m → yields R m.
Proof. intros H p a p' E. specialize (H p). rewrite E in H. exact H. Qed.

Lemma yields_bind temp d1 δ1 d2 δ2 d δ {A B} (m : Worker A) (k : A → Worker B) :
  yields (grown temp d1 δ1) m →
  (∀ a, yields (grown temp d2 δ2) (k a)) →
  d = d1 ++ d2 → δ = δ1 + δ2 →
  yields (grown temp d δ) (m ≫= k).
Proof.
  intros Hm Hk -> -> p b p' H.
  apply bind_return in H as (a & p1 & H1 & H2).
  eapply grown_trans; [eapply Hm, H1 | eapply Hk, H2].
Qed.

Lemma fold_apply_write_downloaded_size ws t :
  downloaded_size (fold_left apply_write ws t) = downloaded_size t.
Proof.
  revert t. induction ws as [|w ws IH]; intros t; [reflexivity|].
  cbn. rewrite IH. destruct w; reflexivity.
Qed.

Lemma steady_same temp (p p' : Proc) :
  p_fs p' = p_fs p →
  downloaded_size (p_task p') = downloaded_size (p_task p) →
  grown temp [] 0 p p'.
Proof.
  intros Hfs Hs. split; [|split].
  - intros c Hc. now rewrite Hfs, app_nil_r.
  - intros q _. now rewrite Hfs.
  - lia.
Qed.

Ltac steady_leaf :=
  solve [ intros ?; apply steady_same;
          [reflexivity
          | first [ reflexivity | apply fold_apply_write_downloaded_size ] ] ].

Lemma steady_wait temp ps : keeps (grown temp [] 0) (wait_while_paused ps).
Proof.
  induction ps as [|ws ps IH]; cbn [wait_while_paused]; frame;
    try steady_leaf; assumption.
Qed.

Lemma f_write_grown temp data : yields (grown temp data 0) (f_write temp data).
Proof.
  intros p a p'. unfold f_write. run.
  destruct (p_fs p !! temp) as [[c|]|] eqn:Hl; run; intros [= <- <-]; cbn.
  - split; [|split]; [|intros q Hq; cbn; now rewrite lookup_insert_ne | cbn; lia].
    intros c' Hc'. rewrite Hl in Hc'. injection Hc' as <-. apply lookup_insert_eq.
  - split; [|split]; [congruence | reflexivity | lia].
  - split; [|split]; [congruence | reflexivity | lia].
Qed.

Ltac steady_then temp :=
  eapply (yields_bind temp [] 0);
    [ apply keeps_yields; frame; try steady_leaf; try apply steady_wait
    | intros ?
    | reflexivity
    | reflexivity ].

Lemma process_chunk_grown m temp started c lu :
  yields (grown temp (chunk c) (Z.of_nat (length (chunk c))))
         (process_chunk m temp started c lu).
Proof.
  unfold process_chunk.
  do 6 steady_then temp.
  eapply (yields_bind temp (chunk c) 0 [] (Z.of_nat (length (chunk c))));
    [apply f_write_grown | intros ? | now rewrite app_nil_r | reflexivity].
  eapply (yields_bind temp [] (Z.of_nat (length (chunk c))) [] 0);
    [ | intros ? | reflexivity | lia].
  - intros q b q'. unfold modify_task. intros [= <- <-]. cbn.
    split; [|split]; [intros ? ?; now rewrite app_nil_r | reflexivity | reflexivity].
  - apply keeps_yields. frame; try steady_leaf.
Qed.

Lemma stream_body_grown m temp started body ending lu :
  yields (grown temp (body_bytes body) (Z.of_nat (length (body_bytes body))))
         (stream_body m temp started body ending lu).
Proof.
  revert lu. induction body as [|c body IH]; intros lu; cbn [stream_body].
  - apply keeps_yields. frame.
  - eapply yields_bind; [apply process_chunk_grown | intros ?; apply IH | reflexivity |].
    unfold body_bytes. cbn. rewrite length_app. lia.
Qed.

(** What [open] leaves at the path: an empty file for ['wb'], the file
    that was there (or an empty one) for ['ab']. *)
Lemma py_open_return path mode p a p' :
  py_open path mode p = (Return a, p') →
  p_fs p !! path ≠ Some Dir
  ∧ p_fs p' !! path
    = Some (File (if bool_decide (mode = "wb") then []
                  else match p_fs p !! path with Some (File c) => c | _ => [] end))
  ∧ (∀ q, q ≠ path → p_fs p' !! q = p_fs p !! q)
  ∧ p_task p' = p_task p.
Proof.
  unfold py_open. run.
  destruct (p_fs p !! path) as [[c|]|] eqn:Hl; run; try discriminate.
  - case_bool_decide; run; intros [= <- <-]; cbn.
    + split; [discriminate|]. split; [apply lookup_insert_eq|].
      split; [intros q Hq; now rewrite lookup_insert_ne | reflexivity].
    + split; [discriminate|]. rewrite Hl. auto.
  - intros [= <- <-]; cbn. split; [discriminate|].
    split; [rewrite lookup_insert_eq; now destruct (bool_decide _)|].
    split; [intros q Hq; now rewrite lookup_insert_ne | reflexivity].
Qed.

Lemma finish_return_no_dir m p a p' :
  finish m p = (Return a, p') → p_fs p !! full_path (p_task p) ≠ Some Dir.
Proof.
  destruct p as [t fs l]. unfold finish, os_remove; run.
  destruct (fs !! full_path t) as [[c|]|] eqn:Hl; run; rewrite ?Hl; run;
    try discriminate; intros _; congruence.
Qed.

Ltac run_in H :=
  repeat (unfold mbind, mret, Prog_bind, Prog_ret, pbind, pret, when,
            get_task, get_fs, modify_task, put_fs, emit, raise, hang,
            try_pass, path_exists, os_path_exists in H; cbn in H).

Lemma receive_return m temp sb env sc cl body ending p p' :
  server env = Response sc cl body ending →
  receive m temp sb env p = (Return tt, p') →
  p_fs p !! temp ≠ Some Dir
  ∧ p_fs p' !! temp
    = Some (File ((if 0 <? sb
                   then match p_fs p !! temp with Some (File c) => c | _ => [] end
                   else []) ++ body_bytes body))
  ∧ (∀ q, q ≠ temp → p_fs p' !! q = p_fs p !! q)
  ∧ downloaded_size (p_task p')
    = downloaded_size (p_task p) + Z.of_nat (length (body_bytes body)).
Proof.
  intros Hs H. unfold receive in H. rewrite Hs in H.
  apply bind_return in H as ([] & p1 & H1 & H).
  apply bind_return in H as ([] & p2 & H2 & H).
  apply bind_return in H as ([] & p3 & H3 & H).
  assert (E1 : p1 = p).
  { destruct (negb _ && negb _); run_in H1; [discriminate | congruence]. }
  subst p1.
  assert (E2 : p_fs p2 = p_fs p
               ∧ downloaded_size (p_task p2) = downloaded_size (p_task p)).
  { destruct cl as [n|]; [|destruct (bool_decide (sc = 200))]; run_in H2;
      injection H2 as <-; auto. }
  destruct E2 as [Efs Eds].
  apply py_open_return in H3 as (Hnd & Hfile & Hoth & Htask).
  apply stream_body_grown in H as (Hg & Ho & Hd).
  rewrite Efs in *. split; [exact Hnd|]. split; [|split].
  - rewrite (Hg _ Hfile). unfold open_mode.
    destruct (0 <? sb); reflexivity.
  - intros q Hq. rewrite (Ho q Hq). apply Hoth, Hq.
  - rewrite Hd, Htask, Eds. reflexivity.
Qed.

Lemma transfer_return m env sc cl body ending p p' :
  server env = Response sc cl body ending →
  transfer m env p = (Return tt, p') →
  let temp := temp_file (p_task p) in
  let old := match p_fs p !! temp with Some (File c) => c | _ => [] end in
  p_fs p !! temp ≠ Some Dir
  ∧ p_fs p' !! temp = Some (File (old ++ body_bytes body))
  ∧ (∀ q, q ≠ temp → p_fs p' !! q = p_fs p !! q)
  ∧ downloaded_size (p_task p')
    = (if os_path_exists (p_fs p) temp then Z.of_nat (length old)
       else downloaded_size (p_task p))
      + Z.of_nat (length (body_bytes body)).
Proof.
  intros Hs H. cbn zeta. rewrite transfer_eq, resume_point_eq in H.
  unfold os_path_exists.
  destruct (p_fs p !! temp_file (p_task p)) as [[c|]|] eqn:Hl;
    apply (receive_return _ _ _ _ _ _ _ _ _ _ Hs) in H as (Hnd & Hf & Ho & Hd);
    cbn [p_fs p_task] in *; rewrite ?Hl in *; try congruence.
  - split; [discriminate|]. split; [|split; [exact Ho|]].
    + rewrite Hf. destruct c; reflexivity.
    + rewrite Hd. rewrite bool_decide_eq_true_2 by eauto. reflexivity.
  - split; [discriminate|]. split; [exact Hf|]. split; [exact Ho|].
    rewrite Hd. rewrite bool_decide_eq_false_2 by (intros [? ?]; discriminate).
    reflexivity.
Qed.

(** X6.  When the [try] block of an attempt returns, the file at
    [full_path] holds what the temp file held before the attempt (nothing,
    if there was none) followed by the bytes of the response body in the
    order received; no chunk is written twice or left out, whatever pauses
    (lifted again) occurred in between and whatever the status code (200 or
    206); the temp file is gone and no other path has changed.
    [downloaded_size] has grown by the length of the body, starting from
    the size of the temp file if there was one and from its earlier value
    otherwise. *)
Theorem completed_file_content (m : Manager) (env : AttemptEnv) (p p2 : Proc)
    (sc : Z) (cl : option Z) (body : list ChunkEnv) (ending : StreamEnd) :
  server env = Response sc cl body ending →
  try_block m env p = (Return tt, p2) →
  let full := full_path (p_task p) in
  let temp := temp_file (p_task p) in
  let old := match p_fs p !! temp with Some (File c) => c | _ => [] end in
  attempt m env p = (Return tt, p2)
  ∧ p_fs p2 !! full = Some (File (old ++ body_bytes body))
  ∧ p_fs p2 !! temp = None
  ∧ (∀ q, q ≠ temp → q ≠ full → p_fs p2 !! q = p_fs p !! q)
  ∧ downloaded_size (p_task p2)
    = (if os_path_exists (p_fs p) temp then Z.of_nat (length old)
       else downloaded_size (p_task p))
      + Z.of_nat (length (body_bytes body)).
Proof.
  intros Hs Ht. cbn zeta.
  split; [unfold attempt; now rewrite Ht|].
  unfold try_block in Ht. apply bind_return in Ht as ([] & p1 & H1 & H2).
  pose proof (untouched_transfer m env p) as (_&Hd&Hf&_&_).
  rewrite H1 in Hd, Hf; cbn in Hd, Hf.
  assert (Htemp : temp_file (p_task p1) = temp_file (p_task p))
    by (apply temp_file_ext; assumption).
  assert (Hfull : full_path (p_task p1) = full_path (p_task p))
    by (unfold full_path; congruence).
  apply (transfer_return _ _ _ _ _ _ _ _ Hs) in H1 as (_ & Hfile & Hoth & Hsize).
  cbn zeta in *.
  pose proof (finish_return_no_dir _ _ _ _ H2) as Hnd.
  rewrite (finish_eq m p1 _) in H2 by (rewrite ?Htemp; eassumption).
  injection H2 as <-.
  pose proof (temp_file_ne (p_task p)) as Hne.
  unfold finished_state. rewrite Htemp, Hfull. cbn [p_task p_fs p_log].
  split; [apply lookup_insert_eq|].
  split; [rewrite lookup_insert_ne by congruence; apply lookup_delete_eq|].
  split; [|exact Hsize].
  intros q Hq1 Hq2. rewrite lookup_insert_ne by congruence.
  rewrite lookup_delete_ne by congruence.
  destruct (os_path_exists (p_fs p1) (full_path (p_task p)));
    rewrite ?lookup_delete_ne by congruence; apply Hoth, Hq1.
Qed.

Lemma completed_file_content_witness :
  let p := mkProc (set_status DOWNLOADING sample_task)
             {[ temp_file sample_task := File [Byte.x01; Byte.x02; Byte.x03] ]} [] in
  let p2 := snd (try_block (new_manager 1 None true 3) env_last_two_bytes p) in
  p_fs p2 !! full_path sample_task
  = Some (File [Byte.x01; Byte.x02; Byte.x03; Byte.x00; Byte.x00])
  ∧ downloaded_size (p_task p2) = 5.
Proof.
  cbn zeta.
  destruct (completed_file_content (new_manager 1 None true 3) env_last_two_bytes
              (mkProc (set_status DOWNLOADING sample_task)
                 {[ temp_file sample_task := File [Byte.x01; Byte.x02; Byte.x03] ]} [])
              (snd (try_block (new_manager 1 None true 3) env_last_two_bytes
                 (mkProc (set_status DOWNLOADING sample_task)
                    {[ temp_file sample_task := File [Byte.x01; Byte.x02; Byte.x03] ]} [])))
              206 (Some 2) [sample_chunk 2 1%Q] EndOfBody)
    as (_ & Hf & _ & _ & Hd).
  - reflexivity.
  - vm_compute. reflexivity.
  - split; [exact Hf | exact Hd].
Defined.
(** ** A negative speed ceiling *)

Lemma Qle_bool_neg_quotient len d :
  0 < len → d < 0 → Qle_bool 0 (Qred (inject_Z len / inject_Z d)) = false.
Proof.
  intros Hl Hd. destruct (Qle_bool 0 _) eqn:E; [|reflexivity]. exfalso.
  apply Qle_bool_iff in E. rewrite Qred_correct in E.
  destruct d as [|d|d]; try lia.
  unfold Qle, Qdiv, Qmult, Qinv, inject_Z in E. cbn in E. lia.
Qed.

Lemma apply_speed_limit_negative m s len p a p' :
  max_download_speed m = Some s → s < 0 → 0 ≤ len →
  apply_speed_limit m len p = (Return a, p') → len = 0.
Proof.
  intros Hs Hneg Hlen H.
  rewrite (apply_speed_limit_on m len s Hs) in H by lia.
  destruct (decide (len = 0)) as [|Hne]; [assumption|]. exfalso.
  unfold time_sleep in H. rewrite Qle_bool_neg_quotient in H by lia.
  discriminate.
Qed.

Ltac peel H :=
  let a := fresh "a" in let q := fresh "q" in let H1 := fresh "H" in
  apply bind_return in H as (a & q & H1 & H); cbv beta zeta in H.

Lemma process_chunk_negative m s temp started c lu p a p' :
  max_download_speed m = Some s → s < 0 →
  process_chunk m temp started c lu p = (Return a, p') → chunk c = [].
Proof.
  intros Hs Hneg H. unfold process_chunk in H.
  do 13 peel H.
  match goal with Hsl : apply_speed_limit _ _ _ = _ |- _ =>
    apply (apply_speed_limit_negative m s _ _ _ _ Hs Hneg) in Hsl; [|lia];
    destruct (chunk c); [reflexivity | cbn in Hsl; lia]
  end.
Qed.

Lemma stream_body_negative m s temp started body ending lu p a p' :
  max_download_speed m = Some s → s < 0 →
  stream_body m temp started body ending lu p = (Return a, p') →
  body_bytes body = [].
Proof.
  intros Hs Hneg. revert lu p. induction body as [|c body IH]; intros lu p H;
    [reflexivity|].
  cbn [stream_body] in H. apply bind_return in H as (lu' & p1 & H1 & H2).
  unfold body_bytes. cbn.
  rewrite (process_chunk_negative _ _ _ _ _ _ _ _ _ Hs Hneg H1).
  apply (IH _ _ H2).
Qed.

(** X7.  A negative speed ceiling is not guarded: the quotient
    [len(chunk) / (max_download_speed * 1024)] is negative for every
    non-empty chunk and [time.sleep] raises ValueError.  So under a negative
    ceiling the [try] block returns only for a body without a single byte;
    an attempt on any other body leaves its task QUEUED or ERROR, never
    COMPLETED. *)
Theorem negative_speed_limit_fails (m : Manager) (s : Z) (env : AttemptEnv)
    (p : Proc) (sc : Z) (cl : option Z) (body : list ChunkEnv) (ending : StreamEnd) :
  max_download_speed m = Some s → s < 0 →
  server env = Response sc cl body ending →
  (∀ len q, 0 < len →
     apply_speed_limit m len q
     = (Raise (mkExc ValueError "sleep length must be non-negative"), q))
  ∧ (∀ a p', try_block m env p = (Return a, p') → body_bytes body = [])
  ∧ (body_bytes body ≠ [] →
     ∀ a p', attempt m env p = (Return a, p') →
       status (p_task p') = QUEUED ∨ status (p_task p') = ERROR).
Proof.
  intros Hs Hneg Hsrv.
  assert (Ht : ∀ a p', try_block m env p = (Return a, p') → body_bytes body = []).
  { intros a p' H. unfold try_block in H.
    apply bind_return in H as ([] & p1 & H & _).
    unfold transfer in H. do 3 peel H.
    unfold receive in H. rewrite Hsrv in H. do 3 peel H.
    eapply stream_body_negative; eassumption. }
  split; [|split; [exact Ht|]].
  - intros len q Hlen. rewrite (apply_speed_limit_on m len s Hs) by lia.
    unfold time_sleep. rewrite Qle_bool_neg_quotient by lia. reflexivity.
  - intros Hne a p' Ha.
    destruct (attempt_cases m env p) as [(p1&Hb&_)|[(e&p1&Hb&Ha')|(p1&_&Ha')]].
    + destruct Hne. eapply Ht, Hb.
    + rewrite Ha' in Ha. injection Ha as _ <-.
      destruct (retry_count (p_task p) <? max_retries m);
        [left; reflexivity | right; apply error_state_fields].
    + rewrite Ha' in Ha. discriminate.
Qed.

Lemma negative_speed_limit_fails_witness :
  let m := new_manager 1 (Some (-1)) true 3 in
  let p := mkProc (set_status DOWNLOADING sample_task) ∅ [] in
  status (p_task (snd (attempt m env_five_bytes p))) = QUEUED
  ∨ status (p_task (snd (attempt m env_five_bytes p))) = ERROR.
Proof.
  cbn zeta.
  destruct (negative_speed_limit_fails (new_manager 1 (Some (-1)) true 3) (-1)
              env_five_bytes (mkProc (set_status DOWNLOADING sample_task) ∅ [])
              200 (Some 5) [sample_chunk 3 1%Q; sample_chunk 2 2%Q] EndOfBody)
    as (_ & _ & H).
  - reflexivity.
  - lia.
  - reflexivity.
  - apply (H ltac:(discriminate) tt). vm_compute. reflexivity.
Defined.
(** ** Calls of the completion callback *)

#[local] Instance same_completions_preorder : PreOrder same_completions.
Proof.
  split; unfold same_completions; [intros p; reflexivity|].
  intros p q r H1 H2. congruence.
Qed.

Lemma same_completions_emit e :
  is_completion e = false → keeps same_completions (emit e).
Proof.
  intros He p. unfold same_completions, emit; cbn [p_log snd].
  rewrite completions_app, completions_cons, He. cbn. lia.
Qed.

Ltac completions_leaf :=
  solve [ apply same_completions_emit; reflexivity
        | intros ?; reflexivity ].

Lemma same_completions_wait ps : keeps same_completions (wait_while_paused ps).
Proof.
  induction ps as [|ws ps IH]; cbn [wait_while_paused]; frame;
    try completions_leaf; assumption.
Qed.

Lemma same_completions_stream_body m temp started body ending lu :
  keeps same_completions (stream_body m temp started body ending lu).
Proof.
  revert lu. induction body as [|c body IH]; intros lu; cbn [stream_body].
  - frame.
  - frame; [|apply IH].
    unfold process_chunk; frame; try completions_leaf; apply same_completions_wait.
Qed.

Lemma same_completions_transfer m env : keeps same_completions (transfer m env).
Proof.
  unfold transfer, receive; frame;
    try completions_leaf; apply same_completions_stream_body.
Qed.

(** [finish] calls the callback when it returns, and only then. *)
Lemma finish_completions m p :
  completions (p_log (snd (finish m p)))
  = (completions (p_log p)
     + match fst (finish m p) with
       | Return _ => if completion_callback m then 1 else 0
       | _ => 0
       end)%nat.
Proof.
  destruct (finish m p) as [r p'] eqn:Hf. cbn [fst snd].
  destruct p as [t fs l]. cbn [p_log].
  unfold finish, os_remove, os_rename, os_path_exists in Hf; run_in Hf.
  destruct (fs !! full_path t) as [[c|]|] eqn:Hl; run_in Hf; rewrite ?Hl in Hf;
    run_in Hf.
  - destruct (delete (full_path t) fs !! temp_file t) as [[c'|]|]; run_in Hf;
      rewrite ?lookup_delete_eq in Hf; try destruct (completion_callback m);
      run_in Hf; injection Hf as <- <-; cbn [p_log];
      rewrite ?completions_app, ?completions_cons; cbn; lia.
  - injection Hf as <- <-. cbn [p_log]. lia.
  - destruct (fs !! temp_file t) as [[c'|]|]; run_in Hf; rewrite ?Hl in Hf;
      try destruct (completion_callback m);
      run_in Hf; injection Hf as <- <-; cbn [p_log];
      rewrite ?completions_app, ?completions_cons; cbn; lia.
Qed.

Lemma same_completions_except_block m e : keeps same_completions (except_block m e).
Proof.
  intros p. rewrite except_block_eq. cbn [snd]. unfold same_completions.
  destruct (retry_count (p_task p) <? max_retries m).
  - unfold retry_state. cbn [p_log]. destruct (update_callback m);
      rewrite ?completions_app, ?completions_cons; cbn; lia.
  - unfold error_state. destruct (p_fs p !! temp_file (p_task p)) as [[c|]|];
      cbn [p_log]; rewrite ?completions_app, ?completions_cons; cbn; lia.
Qed.

(** An attempt calls the completion callback once if it completes the
    task and a callback is registered, and not at all otherwise. *)
Lemma attempt_completions m env p a p' :
  attempt m env p = (Return a, p') →
  completions (p_log p')
  = (completions (p_log p)
     + (if bool_decide (status (p_task p') = COMPLETED) && completion_callback m
        then 1 else 0))%nat.
Proof.
  intros Ha.
  assert (Htb : ∀ r p1, try_block m env p = (r, p1) →
            completions (p_log p1)
            = (completions (p_log p)
               + match r with
                 | Return _ => if completion_callback m then 1 else 0
                 | _ => 0
                 end)%nat).
  { intros r p1. unfold try_block, mbind, Prog_bind, pbind.
    pose proof (same_completions_transfer m env p) as Hsame.
    unfold same_completions in Hsame.
    destruct (transfer m env p) as [[[]|e|] p0]; cbn [snd] in Hsame.
    - intros Hf. pose proof (finish_completions m p0) as Hfc.
      rewrite Hf in Hfc. cbn [fst snd] in Hfc. lia.
    - intros [= <- <-]. lia.
    - intros [= <- <-]. lia. }
  destruct (attempt_cases m env p) as [(p1&Hb&Ha')|[(e&p1&Hb&Ha')|(p1&_&Ha')]];
    rewrite Ha' in Ha; try discriminate.
  - injection Ha as _ <-. rewrite (Htb _ _ Hb).
    apply try_block_return in Hb as [-> _]. reflexivity.
  - injection Ha as _ <-. specialize (Htb _ _ Hb).
    pose proof (same_completions_except_block m e p1) as Hex.
    rewrite except_block_eq in Hex. unfold same_completions in Hex. cbn [snd] in Hex.
    pose proof (untouched_try_block m env p) as (_&_&_&Hrc&_).
    rewrite Hb in Hrc. cbn in Hrc. rewrite Hrc in Hex. rewrite Hex, Htb.
    destruct (retry_count (p_task p) <? max_retries m).
    + rewrite bool_decide_eq_false_2 by (cbn; discriminate). cbn [andb]. lia.
    + destruct (error_state_fields e p1) as (-> & _).
      rewrite bool_decide_eq_false_2 by discriminate. cbn [andb]. lia.
Qed.

Lemma completed_count_app h h' :
  completed_count (h ++ h') = (completed_count h + completed_count h')%nat.
Proof. unfold completed_count. rewrite filter_app, length_app. reflexivity. Qed.

Lemma completed_count_cons t h :
  completed_count (t :: h)
  = ((if bool_decide (status t = COMPLETED) then 1 else 0) + completed_count h)%nat.
Proof.
  unfold completed_count. rewrite filter_cons.
  case_decide; case_bool_decide; try contradiction; reflexivity.
Qed.

Lemma completed_count_insert h tid t t' :
  h !! tid = Some t →
  (completed_count (<[tid := t']> h)
   + (if bool_decide (status t = COMPLETED) then 1 else 0)
   = completed_count h
     + (if bool_decide (status t' = COMPLETED) then 1 else 0))%nat.
Proof.
  intros Hl. destruct (list_insert_split h tid t t' Hl) as (l1 & l2 & -> & ->).
  rewrite !completed_count_app, !completed_count_cons. lia.
Qed.

Lemma completed_count_alter h tid f :
  (∀ t, h !! tid = Some t → status t = COMPLETED → status (f t) = COMPLETED) →
  (completed_count h ≤ completed_count (alter f tid h))%nat.
Proof.
  intros Hf. destruct (h !! tid) as [t|] eqn:Hl.
  - assert (alter f tid h = <[tid := f t]> h) as ->.
    { apply list_eq. intros j. destruct (decide (j = tid)) as [->|Hne].
      - rewrite list_lookup_alter_eq, Hl, list_lookup_insert_eq
          by (eapply lookup_lt_Some, Hl). reflexivity.
      - rewrite list_lookup_alter_ne, list_lookup_insert_ne by congruence. reflexivity. }
    pose proof (completed_count_insert h tid t (f t) Hl) as Hc.
    specialize (Hf t eq_refl).
    repeat case_bool_decide; try lia. specialize (Hf ltac:(assumption)). contradiction.
  - assert (alter f tid h = h) as ->; [|lia].
    apply alter_fixes. intros x Hx. congruence.
Qed.

Lemma start_next_completions v :
  completions (w_log (_start_next_download v)) = completions (w_log v)
  ∧ (completed_count (w_heap v) ≤ completed_count (w_heap (_start_next_download v)))%nat
  ∧ completion_callback (w_mgr (_start_next_download v)) = completion_callback (w_mgr v).
Proof.
  unfold _start_next_download. case_bool_decide; [auto|].
  destruct (first_queued _ _) as [i|] eqn:Hfq; [|auto].
  apply first_queued_some in Hfq as [_ Hq]. cbn [w_log w_heap w_mgr].
  split; [rewrite completions_app, completions_cons; cbn; lia|].
  split; [|reflexivity].
  apply completed_count_alter. intros t Ht Hc.
  rewrite (list_lookup_total_correct _ _ _ Ht) in Hq. congruence.
Qed.

Lemma step_completions w w' :
  Inv w → step w w' →
  (completions (w_log w) ≤ completed_count (w_heap w))%nat →
  (completion_callback (w_mgr w) = false → completions (w_log w) = 0%nat) →
  completion_callback (w_mgr w') = completion_callback (w_mgr w)
  ∧ (completions (w_log w') ≤ completed_count (w_heap w'))%nat
  ∧ (completion_callback (w_mgr w) = false → completions (w_log w') = 0%nat).
Proof.
  intros HI Hs Hle Hz.
  assert (Hrun : ∀ i tid, w_threads w !! i = Some (tid, Running) →
            ∃ t, w_heap w !! tid = Some t ∧ status t ≠ COMPLETED).
  { intros i tid Hth.
    assert (Htid : (tid < length (w_heap w))%nat).
    { apply (inv_threads_valid _ HI (tid, Running)). eapply list_elem_of_lookup_2, Hth. }
    pose proof (proj2 (inv_status _ HI tid Htid) (running_ids_lookup _ _ _ Hth)) as Hr.
    destruct (lookup_lt_is_Some_2 _ _ Htid) as [t Ht]. exists t. split; [exact Ht|].
    rewrite (list_lookup_total_correct _ _ _ Ht) in Hr. destruct Hr; congruence. }
  assert (Hflag : ∀ tid f, (∀ t, status (f t) = status t) →
            (completions (w_log w) ≤ completed_count (alter f tid (w_heap w)))%nat).
  { intros tid f Hf. etransitivity; [exact Hle|].
    apply completed_count_alter. intros t _. now rewrite Hf. }
  destruct Hs.
  - unfold submit, add_download.
    assert (H1 : (completions (w_log w)
                  ≤ completed_count (w_heap w ++ [new_task u d f md]))%nat)
      by (rewrite completed_count_app; lia).
    destruct (exists_ _ _); cbn [snd].
    + cbn [w_mgr w_log w_heap]. split; [reflexivity|]. split; [|exact Hz].
      etransitivity; [exact H1|]. apply completed_count_alter. reflexivity.
    + destruct (os_makedirs _ _) as [e|fs']; cbn [snd];
        [cbn [w_mgr w_log w_heap]; auto|].
      match goal with |- context [_start_next_download ?x] =>
        destruct (start_next_completions x) as (E1 & E2 & E3) end.
      rewrite E1, E3. cbn [w_mgr w_log w_heap set_tasks completion_callback] in *.
      rewrite completions_app, completions_cons. cbn [is_completion].
      split; [reflexivity|]. split; [|intros Hc; rewrite (Hz Hc); reflexivity].
      change (completions []) with 0%nat. lia.
  - destruct (Hrun _ _ H) as (t & Ht & Hnc).
    unfold run_attempt in *. rewrite (list_lookup_total_correct _ _ _ Ht) in *.
    destruct (attempt (w_mgr w) env _) as [r p] eqn:Ha. cbn [fst snd] in *.
    destruct r as [a|e|]; [|exfalso; eapply attempt_never_raises, Ha | contradiction].
    apply attempt_completions in Ha. cbn [p_log] in Ha.
    cbn [set_phase w_mgr w_log w_heap]. split; [reflexivity|].
    pose proof (completed_count_insert _ _ _ (p_task p) Ht) as Hc.
    rewrite (bool_decide_eq_false_2 _ Hnc) in Hc.
    split.
    + rewrite Ha. destruct (bool_decide (status (p_task p) = COMPLETED));
        destruct (completion_callback (w_mgr w)); cbn [andb]; lia.
    + intros Hcc. rewrite Ha, Hcc, andb_false_r. rewrite (Hz Hcc). reflexivity.
  - destruct (Hrun _ _ H) as (t & Ht & Hnc).
    cbn [update_task w_mgr w_log w_heap]. split; [reflexivity|]. split; [|exact Hz].
    etransitivity; [exact Hle|]. apply completed_count_alter.
    intros t' Ht'. congruence.
  - destruct (Hrun _ _ H) as (t & Ht & Hnc).
    cbn [update_task w_mgr w_log w_heap]. split; [reflexivity|]. split; [|exact Hz].
    etransitivity; [exact Hle|]. apply completed_count_alter.
    intros t' Ht'. congruence.
  - cbn [set_phase release_slot w_mgr w_log w_heap]. split; [reflexivity|].
    rewrite completions_app.
    assert (completions (if update_callback (w_mgr w) then [EvUpdateCallback] else [])
            = 0%nat) as -> by (destruct (update_callback (w_mgr w)); reflexivity).
    rewrite Nat.add_0_r. auto.
  - match goal with |- context [_start_next_download ?x] =>
      destruct (start_next_completions x) as (E1 & E2 & E3) end.
    rewrite E1, E3. cbn [set_phase w_mgr w_log w_heap] in *.
    split; [reflexivity|]. split; [lia | exact Hz].
  - unfold pause_download. case_bool_decide; [|auto].
    cbn [update_task w_mgr w_log w_heap]. split; [reflexivity|]. split; [|exact Hz].
    apply Hflag. reflexivity.
  - unfold resume_download. case_bool_decide; [|auto].
    cbn [update_task w_mgr w_log w_heap]. split; [reflexivity|]. split; [|exact Hz].
    apply Hflag. reflexivity.
  - cbn [update_task w_mgr w_log w_heap]. split; [reflexivity|]. split; [|exact Hz].
    apply Hflag. intros t. apply apply_write_status.
  - auto.
  - auto.
Qed.

(** X8.  The completion callback is never called more often than there
    are task objects whose status is COMPLETED: a worker calls it only as it
    sets COMPLETED, and COMPLETED is never left again.  Under a manager
    built without a completion callback it is never called. *)
Theorem completion_callback_bounded (C : Z) (mds : option Z) (cc : bool) (mr : Z)
    (fs : FS) (w : World) :
  reachable (init_world C mds cc mr fs) w →
  (completions (w_log w) ≤ completed_count (w_heap w))%nat
  ∧ (cc = false → completions (w_log w) = 0%nat)
  ∧ (∀ tid w', (tid < length (w_heap w))%nat →
       status (w_heap w !!! tid) = COMPLETED → reachable w w' →
       status (w_heap w' !!! tid) = COMPLETED).
Proof.
  intros Hr.
  assert (H : Inv w ∧ completion_callback (w_mgr w) = cc
              ∧ (completions (w_log w) ≤ completed_count (w_heap w))%nat
              ∧ (cc = false → completions (w_log w) = 0%nat)).
  { pattern w. eapply reachable_invariant; [| |exact Hr].
    - split; [apply inv_init|]. cbn. split; [reflexivity|]. split; [lia | reflexivity].
    - intros v v' (HI & Hcc & Hle & Hz) Hs.
      split; [eapply inv_step; eassumption|]. subst cc.
      destruct (step_completions v v' HI Hs Hle Hz) as (E & H1 & H2).
      rewrite E. auto. }
  destruct H as (HI & _ & Hle & Hz). split; [exact Hle|]. split; [exact Hz|].
  intros tid w' Htid Hs Hr'.
  eapply (status_final w w' tid COMPLETED); eauto; discriminate.
Qed.

Lemma completion_callback_bounded_witness :
  let w := set_phase 0 0 Releasing
             (snd (run_attempt 0 env_five_bytes
                (snd (submit "http://dl.example/a.bin" "/downloads" "a.bin" []
                        (init_world 1 None true 1 ∅))))) in
  (completions (w_log w) ≤ completed_count (w_heap w))%nat
  ∧ completions (w_log w) = 1%nat.
Proof.
  cbn zeta. split; [|vm_compute; reflexivity].
  apply (completion_callback_bounded 1 None true 1 ∅).
  eapply rtc_l; [apply step_submit|].
  apply rtc_once. apply step_attempt; [reflexivity | vm_compute; discriminate].
Defined.
(** ** No slot stays free while a task waits *)















(** * Properties of the callers *)

(** ** File names from URLs *)

Lemma py_split_nonempty sep s : py_split sep s ≠ [].
Proof.
  destruct s as [|x rest]; cbn; [discriminate|].
  case_bool_decide; [discriminate|]. destruct (py_split sep rest); discriminate.
Qed.

Lemma str_contains_app c s t :
  str_contains c (s +:+ t) = str_contains c s || str_contains c t.
Proof.
  induction s as [|x s IH]; [reflexivity|].
  change (String x s +:+ t) with (String x (s +:+ t)). cbn.
  rewrite IH. now rewrite orb_assoc.
Qed.

(** No segment of a split holds the separator, and every character of a
    segment is a character of the string. *)
Lemma py_split_segments sep s seg :
  seg ∈ py_split sep s →
  str_contains sep seg = false
  ∧ ∀ c, str_contains c seg = true → str_contains c s = true.
Proof.
  revert seg. induction s as [|x rest IH]; intros seg; cbn [py_split].
  - intros Hin. apply list_elem_of_singleton in Hin as ->. auto.
  - case_bool_decide as Hx.
    + intros Hin. apply elem_of_cons in Hin as [->|Hin]; [split; [reflexivity | discriminate]|].
      destruct (IH seg Hin) as [H1 H2]. split; [exact H1|].
      intros c Hc. cbn. rewrite (H2 c Hc). apply orb_true_r.
    + pose proof (py_split_nonempty sep rest) as Hne.
      destruct (py_split sep rest) as [|seg0 segs]; [contradiction|].
      intros Hin. apply elem_of_cons in Hin as [->|Hin].
      * destruct (IH seg0 ltac:(left)) as [H1 H2]. split.
        -- cbn. rewrite H1. now rewrite bool_decide_eq_false_2.
        -- intros c. cbn. destruct (bool_decide (x = c)); [reflexivity|].
           cbn. apply H2.
      * destruct (IH seg ltac:(now right)) as [H1 H2]. split; [exact H1|].
        intros c Hc. cbn. rewrite (H2 c Hc). apply orb_true_r.
Qed.

Lemma last_segment_in sep s : last_segment (py_split sep s) ∈ py_split sep s.
Proof.
  pose proof (py_split_nonempty sep s) as Hne. unfold last_segment.
  destruct (last (py_split sep s)) as [seg|] eqn:Hl.
  - cbn. apply last_Some in Hl as [l' ->]. apply elem_of_app. right. left.
  - apply last_None in Hl. contradiction.
Qed.

Lemma first_segment_in sep s : first_segment (py_split sep s) ∈ py_split sep s.
Proof.
  pose proof (py_split_nonempty sep s) as Hne. unfold first_segment.
  destruct (py_split sep s) as [|seg segs]; [contradiction|]. left.
Qed.

Lemma py_split_none sep s : str_contains sep s = false → py_split sep s = [s].
Proof.
  induction s as [|x rest IH]; [reflexivity|]. cbn.
  intros H. apply orb_false_iff in H as [Hx Hr].
  rewrite Hx, (IH Hr). reflexivity.
Qed.

Lemma py_split_app sep a b :
  py_split sep (a +:+ String sep b) = py_split sep a ++ py_split sep b.
Proof.
  induction a as [|x a IH].
  - change ("" +:+ String sep b) with (String sep b). cbn [py_split].
    now rewrite bool_decide_eq_true_2.
  - change (String x a +:+ String sep b) with (String x (a +:+ String sep b)).
    cbn [py_split]. rewrite IH.
    pose proof (py_split_nonempty sep a) as Hne.
    case_bool_decide; [reflexivity|].
    destruct (py_split sep a) as [|s0 l]; [contradiction | reflexivity].
Qed.

Lemma last_segment_app sep a b :
  last_segment (py_split sep (a +:+ String sep b)) = last_segment (py_split sep b).
Proof.
  rewrite py_split_app. unfold last_segment. rewrite last_app.
  pose proof (py_split_nonempty sep b) as Hne.
  destruct (last (py_split sep b)) eqn:Hl; [reflexivity|].
  apply last_None in Hl. contradiction.
Qed.

Lemma first_segment_app sep a b :
  str_contains sep a = false →
  first_segment (py_split sep (a +:+ String sep b)) = a.
Proof.
  intros Ha. rewrite py_split_app, (py_split_none _ _ Ha). reflexivity.
Qed.

(** X10.  The file name of an image with a download URL is the part of
    the URL after its last ['/'], cut at the first ['?']: it holds no ['/']
    and no ['?'], so that [full_path] puts the file directly in the
    destination folder.  For a URL [base/name?query] (no ['/'] in the query)
    and for a URL [base/name] it is [name].  Without a URL the name is
    [<codename>_<version>.bin]. *)
Theorem filename_of_url (d : RecoveryImage.t) :
  (RecoveryImage.download_url d ≠ "" →
     str_contains "/" (RecoveryImage.filename d) = false
     ∧ str_contains "?" (RecoveryImage.filename d) = false)
  ∧ (∀ base name query,
       str_contains "/" name = false → str_contains "?" name = false →
       str_contains "/" query = false →
       RecoveryImage.download_url d = base +:+ "/" +:+ name +:+ "?" +:+ query →
       RecoveryImage.filename d = name)
  ∧ (∀ base name,
       str_contains "/" name = false → str_contains "?" name = false →
       RecoveryImage.download_url d = base +:+ "/" +:+ name →
       RecoveryImage.filename d = name)
  ∧ (RecoveryImage.download_url d = "" →
       RecoveryImage.filename d
       = RecoveryImage.codename d +:+ "_" +:+ RecoveryImage.version d +:+ ".bin").
Proof.
  unfold RecoveryImage.filename. cbv zeta. split; [|split; [|split]].
  - intros Hne. rewrite bool_decide_eq_false_2 by assumption. cbn [negb].
    set (seg := last_segment (py_split "/" (RecoveryImage.download_url d))).
    destruct (py_split_segments "/" _ seg (last_segment_in _ _)) as [Hs _].
    destruct (str_contains "?" seg) eqn:Hq; [|auto].
    destruct (py_split_segments "?" seg _ (first_segment_in "?" seg)) as [H1 H2].
    split; [|exact H1].
    destruct (str_contains "/" (first_segment (py_split "?" seg))) eqn:E; [|reflexivity].
    rewrite (H2 _ E) in Hs. discriminate.
  - intros base name query Hn1 Hn2 Hq ->.
    rewrite bool_decide_eq_false_2
      by (destruct base; discriminate).
    cbn [negb].
    change (base +:+ "/" +:+ name +:+ "?" +:+ query)
      with (base +:+ String "/" (name +:+ String "?" query)).
    rewrite last_segment_app.
    rewrite py_split_none
      by (rewrite str_contains_app; cbn; rewrite Hn1, Hq; reflexivity).
    unfold last_segment; cbn [last default from_option]; unfold id.
    rewrite str_contains_app. cbn. rewrite orb_true_r.
    apply first_segment_app, Hn2.
  - intros base name Hn1 Hn2 ->.
    rewrite bool_decide_eq_false_2 by (destruct base; discriminate).
    cbn [negb].
    change (base +:+ "/" +:+ name) with (base +:+ String "/" name).
    rewrite last_segment_app, (py_split_none _ _ Hn1).
    unfold last_segment; cbn [last default from_option]; unfold id. now rewrite Hn2.
  - intros ->. reflexivity.
Qed.
(** ** Folder names *)

Lemma chars_py_replace old new s :
  list_ascii_of_string (py_replace old new s)
  = map (λ x, if bool_decide (x = old) then new else x) (list_ascii_of_string s).
Proof. induction s as [|x s IH]; [reflexivity|]. cbn. now rewrite IH. Qed.

Lemma chars_py_take n s :
  list_ascii_of_string (py_take n s) = take n (list_ascii_of_string s).
Proof.
  revert s. induction n as [|n IH]; intros [|x s]; try reflexivity.
  cbn. now rewrite IH.
Qed.

Lemma chars_replace_all (l : list ascii) (s : string) :
  list_ascii_of_string (fold_left (λ s c, py_replace c "-" s) l s)
  = map (λ x, fold_left (λ y c, if bool_decide (y = c) then "-"%char else y) l x)
        (list_ascii_of_string s).
Proof.
  revert s. induction l as [|c l IH]; intros s; cbn [fold_left].
  - now rewrite map_id.
  - rewrite IH, chars_py_replace, map_map. reflexivity.
Qed.

Lemma sanitize_char_valid x : sanitize_char x ∉ invalid_chars.
Proof.
  unfold sanitize_char, invalid_chars. cbn [fold_left].
  repeat (case_bool_decide; subst; try discriminate);
    rewrite !elem_of_cons, elem_of_nil; intros Hin;
    repeat (destruct Hin as [Hin|Hin]; [congruence|]); exact Hin.
Qed.

Lemma lstrip_chars_suffix chars l : ∃ pre, l = pre ++ lstrip_chars chars l.
Proof.
  induction l as [|x l [pre IH]]; [exists []; reflexivity|]. cbn.
  case_bool_decide; [|exists []; reflexivity].
  exists (x :: pre). cbn. now f_equal.
Qed.

Lemma lstrip_chars_head chars l c :
  head (lstrip_chars chars l) = Some c → c ∉ chars.
Proof.
  induction l as [|x l IH]; [discriminate|]. cbn.
  case_bool_decide; [exact IH|]. cbn. congruence.
Qed.

Lemma head_rev {A} (l : list A) : head (rev l) = last l.
Proof.
  induction l as [|x l IH]; [reflexivity|]. cbn [rev].
  destruct l as [|y l]; [reflexivity|].
  change (last (x :: y :: l)) with (last (y :: l)). rewrite <- IH.
  destruct (rev (y :: l)) eqn:E; [|reflexivity].
  apply (f_equal (@length A)) in E. rewrite length_rev in E. discriminate.
Qed.

Lemma last_rev {A} (l : list A) : last (rev l) = head l.
Proof. rewrite <- head_rev, rev_involutive. reflexivity. Qed.

(** What [strip] leaves: a stretch of the string, which neither begins
    nor ends with a stripped character. *)
Lemma strip_chars_spec chars l :
  let r := rev (lstrip_chars chars (rev (lstrip_chars chars l))) in
  (∃ pre post, l = pre ++ r ++ post)
  ∧ (∀ c, head r = Some c → c ∉ chars)
  ∧ (∀ c, last r = Some c → c ∉ chars).
Proof.
  cbn zeta.
  destruct (lstrip_chars_suffix chars l) as [pre Hpre].
  set (m := lstrip_chars chars l) in *.
  destruct (lstrip_chars_suffix chars (rev m)) as [post' Hpost].
  set (k := lstrip_chars chars (rev m)) in *.
  assert (Hm : m = rev k ++ rev post').
  { rewrite <- (rev_involutive m), Hpost, rev_app_distr. reflexivity. }
  split; [|split].
  - exists pre, (rev post'). rewrite Hpre at 1. now rewrite Hm.
  - intros c Hc. apply (lstrip_chars_head chars l c). fold m. rewrite Hm.
    destruct (rev k); [discriminate | exact Hc].
  - intros c. rewrite last_rev. apply lstrip_chars_head.
Qed.

Lemma length_chars s : length (list_ascii_of_string s) = String.length s.
Proof. induction s as [|x s IH]; [reflexivity|]. cbn. now rewrite IH. Qed.

Lemma chars_sanitize name :
  list_ascii_of_string (sanitize_folder_name name)
  = take 100 (rev (lstrip_chars [" "; "."]%char
                (rev (lstrip_chars [" "; "."]%char
                   (map sanitize_char (list_ascii_of_string name)))))).
Proof.
  unfold sanitize_folder_name, py_strip. cbv zeta.
  rewrite chars_py_take, list_ascii_of_string_of_list_ascii, chars_replace_all.
  reflexivity.
Qed.

(** X11.  A sanitized folder name holds none of the nine characters of
    [invalid_chars] (less-than, greater-than, colon, double quote, slash,
    backslash, bar, question mark, asterisk), has at most 100 characters and
    does not begin with a space or a dot.  It does not end with a space or a dot either when the
    name given has at most 100 characters; a longer name is cut after the
    stripping, and the cut can leave a space at the end (as for
    [long_name]). *)
Theorem sanitize_folder_name_spec (name : string) :
  let r := list_ascii_of_string (sanitize_folder_name name) in
  (∀ c, c ∈ invalid_chars → c ∉ r)
  ∧ (String.length (sanitize_folder_name name) ≤ 100)%nat
  ∧ (∀ c, head r = Some c → c ≠ " "%char ∧ c ≠ "."%char)
  ∧ ((String.length name ≤ 100)%nat →
     ∀ c, last r = Some c → c ≠ " "%char ∧ c ≠ "."%char)
  ∧ last (list_ascii_of_string (sanitize_folder_name long_name)) = Some " "%char.
Proof.
  cbn zeta. rewrite <- length_chars, chars_sanitize.
  set (mapped := map sanitize_char (list_ascii_of_string name)).
  destruct (strip_chars_spec [" "; "."]%char mapped) as ((pre & post & Hsub) & Hh & Hl).
  set (r0 := rev (lstrip_chars [" "; "."]%char
                (rev (lstrip_chars [" "; "."]%char mapped)))) in *.
  assert (Hset : ∀ c : ascii, c ∉ [" "; "."]%char → c ≠ " "%char ∧ c ≠ "."%char).
  { intros c Hc. split; intros ->; apply Hc; [left | right; left]. }
  split; [|split; [|split; [|split]]].
  - intros c Hc Hin.
    assert (Hin0 : c ∈ mapped).
    { rewrite Hsub, !elem_of_app. right; left.
      eapply elem_of_subseteq; [|exact Hin].
      apply sublist_subseteq, sublist_take. }
    unfold mapped in Hin0. apply list_elem_of_fmap in Hin0 as (x & -> & _).
    exact (sanitize_char_valid x Hc).
  - rewrite length_take. lia.
  - intros c Hc. apply Hset, Hh. destruct r0; [discriminate | exact Hc].
  - intros Hlen c Hc. apply Hset, Hl.
    rewrite take_ge in Hc; [exact Hc|].
    assert (length mapped = String.length name)
      by (unfold mapped; rewrite length_map; apply length_chars).
    apply (f_equal (@length ascii)) in Hsub. rewrite !length_app in Hsub. lia.
  - vm_compute. reflexivity.
Qed.
(** ** Handing a device to the manager *)

(** X12.  The [Overwrite] button ([force_overwrite=True]) on a device
    whose file exists overwrites nothing: the question is skipped, the file
    is not removed, [add_download] finds it, marks the new task COMPLETED
    and returns [False], and the window reports that the file is already
    downloaded.  No worker is started, no slot is taken, no event occurs
    and the files are as they were. *)
Theorem overwrite_downloads_nothing (row : nat) (reply : Reply) (now : Q)
    (win : Window) (device : RecoveryImage.t) :
  filtered_devices win !! row = Some device →
  RecoveryImage.download_url device ≠ "" →
  exists_ (device_task (download_path win) device) (w_fs (download_manager win)) = true →
  let w := download_manager win in
  let tid := length (w_heap w) in
  let win' := snd (download_device row true reply now win) in
  let w' := download_manager win' in
  fst (download_device row true reply now win) = Return tt
  ∧ w_fs w' = w_fs w
  ∧ w_log w' = w_log w
  ∧ w_threads w' = w_threads w
  ∧ active_downloads (w_mgr w') = active_downloads (w_mgr w)
  ∧ tasks (w_mgr w') = tasks (w_mgr w) ++ [tid]
  ∧ status (w_heap w' !!! tid) = COMPLETED
  ∧ download_start_times win' = download_start_times win
  ∧ gui win' = gui win ++ [StatusMessage (RecoveryImage.filename device
                                           +:+ " already downloaded")].
Proof.
  intros Hrow Hurl Hex. cbn zeta. unfold download_device.
  rewrite Hrow. rewrite bool_decide_eq_false_2 by assumption. cbv zeta.
  rewrite Hex. cbn [negb andb].
  unfold add_download. cbn [w_heap w_fs].
  rewrite list_lookup_total_middle by reflexivity. rewrite Hex.
  cbn [fst snd w_heap].
  rewrite list_lookup_total_alter_eq by (rewrite length_app; cbn; lia).
  rewrite list_lookup_total_middle by reflexivity.
  cbn [status set_status set_progress].
  rewrite bool_decide_eq_true_2 by reflexivity.
  cbn [fst snd show set_download_manager download_manager download_start_times gui
       download_path filtered_devices w_heap w_fs w_log w_threads w_mgr
       set_tasks tasks active_downloads].
  rewrite list_lookup_total_alter_eq by (rewrite length_app; cbn; lia).
  rewrite list_lookup_total_middle by reflexivity.
  repeat split; reflexivity.
Qed.

Lemma overwrite_downloads_nothing_witness :
  let fs : FS := {[ full_path (device_task "/downloads" sample_device) := File [Byte.x01] ]} in
  let win' := snd (download_device 0 true ReplyYes 0%Q (sample_window fs)) in
  w_fs (download_manager win') = fs
  ∧ status (w_heap (download_manager win') !!! 0%nat) = COMPLETED.
Proof.
  cbn zeta.
  destruct (overwrite_downloads_nothing 0 ReplyYes 0%Q
              (sample_window
                 {[ full_path (device_task "/downloads" sample_device) := File [Byte.x01] ]})
              sample_device) as (_ & Hfs & _ & _ & _ & _ & Hs & _).
  - reflexivity.
  - discriminate.
  - vm_compute. reflexivity.
  - split; [exact Hfs | exact Hs].
Defined.

Lemma start_next_status_cases v j :
  status (w_heap (_start_next_download v) !!! j) = status (w_heap v !!! j)
  ∨ status (w_heap (_start_next_download v) !!! j) = DOWNLOADING.
Proof.
  unfold _start_next_download. case_bool_decide; [auto|].
  destruct (first_queued _ _) as [i|]; [|auto]. cbn [w_heap].
  rewrite list_lookup_total_alter. case_decide as Hd; [|auto].
  destruct Hd as [-> _]. right; reflexivity.
Qed.

Lemma start_next_log v : ∃ l, w_log (_start_next_download v) = w_log v ++ l.
Proof.
  unfold _start_next_download. case_bool_decide; [exists []; now rewrite app_nil_r|].
  destruct (first_queued _ _) as [i|]; [eexists; reflexivity|].
  exists []; now rewrite app_nil_r.
Qed.

(** X13.  [download_device] without [force_overwrite] on a device whose
    file exists asks the user.  On [No] nothing is handed to the manager:
    its list, threads, events and the files are as they were.  On [Yes] a
    regular file is removed first, so [add_download] does not take the task
    for downloaded: either it raises (the folder cannot be made) or the task
    is in the list, QUEUED or DOWNLOADING, and the window reports that it
    was added.  When the removal fails (a directory sits at the path) the
    failure is swallowed and the task is reported as already downloaded. *)
Theorem download_anyway_question (row : nat) (now : Q) (win : Window)
    (device : RecoveryImage.t) :
  filtered_devices win !! row = Some device →
  RecoveryImage.download_url device ≠ "" →
  let task := device_task (download_path win) device in
  let name := RecoveryImage.filename device in
  let w := download_manager win in
  let tid := length (w_heap w) in
  let question := QuestionBox ("File " +:+ name +:+ " already exists. Download anyway?") in
  exists_ task (w_fs w) = true →
  (let r := download_device row false ReplyNo now win in
   let w' := download_manager (snd r) in
   fst r = Return tt
   ∧ w_fs w' = w_fs w ∧ w_mgr w' = w_mgr w ∧ w_threads w' = w_threads w
   ∧ w_log w' = w_log w
   ∧ gui (snd r) = gui win ++ [question])
  ∧ (∀ c, w_fs w !! full_path task = Some (File c) →
       let r := download_device row false ReplyYes now win in
       let w' := download_manager (snd r) in
       (∀ c', w_fs w' !! full_path task ≠ Some (File c'))
       ∧ EvRemove (full_path task) ∈ w_log w'
       ∧ ((∃ e, fst r = Raise e)
          ∨ (fst r = Return tt
             ∧ tasks (w_mgr w') = tasks (w_mgr w) ++ [tid]
             ∧ (status (w_heap w' !!! tid) = QUEUED
                ∨ status (w_heap w' !!! tid) = DOWNLOADING)
             ∧ download_start_times (snd r) !! name = Some now
             ∧ gui (snd r)
               = gui win ++ [question; TableUpdate;
                             StatusMessage ("Added " +:+ name +:+ " to download queue")])))
  ∧ (w_fs w !! full_path task = Some Dir →
       let r := download_device row false ReplyYes now win in
       let w' := download_manager (snd r) in
       fst r = Return tt
       ∧ w_fs w' = w_fs w ∧ w_threads w' = w_threads w ∧ w_log w' = w_log w
       ∧ status (w_heap w' !!! tid) = COMPLETED
       ∧ gui (snd r)
         = gui win ++ [question; StatusMessage (name +:+ " already downloaded")]).
Proof.
  intros Hrow Hurl. cbn zeta. intros Hex.
  set (task := device_task (download_path win) device) in *.
  assert (Hnew : ∀ h : list DownloadTask, (h ++ [task]) !!! length h = task)
    by (intros h; apply list_lookup_total_middle; reflexivity).
  assert (Hlen : ∀ h : list DownloadTask, (length h < length (h ++ [task]))%nat)
    by (intros h; rewrite length_app; cbn; lia).
  split; [|split].
  - unfold download_device. rewrite Hrow.
    rewrite bool_decide_eq_false_2 by assumption. cbv zeta. fold task.
    rewrite Hex. cbn [negb andb]. rewrite bool_decide_eq_true_2 by reflexivity.
    cbn. repeat split; reflexivity.
  - intros c Hc. unfold download_device. rewrite Hrow.
    rewrite bool_decide_eq_false_2 by assumption. cbv zeta. fold task.
    rewrite Hex. cbn [negb andb]. rewrite bool_decide_eq_false_2 by discriminate.
    unfold remove_quietly, try_pass, os_remove. run. rewrite Hc. run.
    assert (Hgone : exists_ task (delete (full_path task) (w_fs (download_manager win)))
                    = false).
    { unfold exists_, os_path_exists. rewrite lookup_delete_eq.
      apply bool_decide_eq_false_2. intros [? ?]; discriminate. }
    unfold add_download. cbn [w_heap w_fs]. rewrite Hnew, Hgone.
    destruct (os_makedirs _ _) as [e|fs'] eqn:Hmk.
    + cbn [fst snd download_manager set_download_manager show w_fs w_log].
      split; [intros c'; rewrite lookup_delete_eq; discriminate|].
      split; [apply elem_of_app; right; left|]. left; eauto.
    + match goal with |- context [_start_next_download ?x] =>
        destruct (start_next_frame x) as (Et & Ef & _);
        destruct (start_next_log x) as (l & El);
        pose proof (start_next_status_cases x (length (w_heap (download_manager win))))
          as Es;
        set (v := x) in * end.
      cbn [fst snd download_manager set_download_manager show set_start_time
           download_start_times gui].
      assert (Hv : w_fs v = fs' ∧ w_heap v = w_heap (download_manager win) ++ [task]
                   ∧ w_log v = (w_log (download_manager win) ++ [EvRemove (full_path task)])
                                ++ [EvMakedirs (destination task)]
                   ∧ tasks (w_mgr v)
                     = tasks (w_mgr (download_manager win))
                       ++ [length (w_heap (download_manager win))])
        by (subst v; cbn; auto).
      destruct Hv as (Hv1 & Hv2 & Hv3 & Hv4).
      rewrite Hv2, Hnew in Es. change (status task) with QUEUED in Es.
      split; [|split; [|right]].
      * rewrite Ef, Hv1. intros c' Hc'.
        unfold os_makedirs in Hmk. case_bool_decide; [discriminate|].
        destruct (delete _ _ !! destination task) as [[?|]|] eqn:Hd;
          try discriminate; injection Hmk as <-.
        -- rewrite lookup_delete_eq in Hc'. discriminate.
        -- rewrite lookup_insert in Hc'. case_decide; [discriminate|].
           rewrite lookup_delete_eq in Hc'. discriminate.
      * rewrite El, Hv3, !elem_of_app. left; left; right; left.
      * split; [reflexivity|]. split; [rewrite Et; exact Hv4|].
        split; [destruct Es as [-> | ->]; auto|].
        split; [apply lookup_insert_eq|].
        rewrite <- !app_assoc. reflexivity.
  - intros Hd. unfold download_device. rewrite Hrow.
    rewrite bool_decide_eq_false_2 by assumption. cbv zeta. fold task.
    rewrite Hex. cbn [negb andb]. rewrite bool_decide_eq_false_2 by discriminate.
    unfold remove_quietly, try_pass, os_remove. run. rewrite Hd. run.
    unfold add_download. cbn [w_heap w_fs]. rewrite Hnew, Hex.
    cbn [fst snd w_heap].
    rewrite list_lookup_total_alter_eq by apply Hlen. rewrite Hnew.
    cbn [status set_status set_progress].
    rewrite bool_decide_eq_true_2 by reflexivity.
    cbn [fst snd show set_download_manager download_manager download_start_times gui
         download_path filtered_devices w_heap w_fs w_log w_threads w_mgr].
    rewrite list_lookup_total_alter_eq by apply Hlen. rewrite Hnew.
    rewrite <- !app_assoc. repeat split; reflexivity.
Qed.

Lemma download_anyway_question_witness :
  let fs : FS := {[ full_path (device_task "/downloads" sample_device) := File [Byte.x01] ]} in
  let no := download_device 0 false ReplyNo 0%Q (sample_window fs) in
  let yes := download_device 0 false ReplyYes 0%Q (sample_window fs) in
  w_fs (download_manager (snd no)) = fs
  ∧ ∀ c, w_fs (download_manager (snd yes))
         !! full_path (device_task "/downloads" sample_device) ≠ Some (File c).
Proof.
  cbn zeta.
  destruct (download_anyway_question 0 0%Q
              (sample_window
                 {[ full_path (device_task "/downloads" sample_device) := File [Byte.x01] ]})
              sample_device) as ((_ & Hfs & _) & Hyes & _).
  - reflexivity.
  - discriminate.
  - vm_compute. reflexivity.
  - split; [exact Hfs|].
    destruct (Hyes [Byte.x01]) as (Hgone & _); [|exact Hgone].
    apply lookup_singleton_eq.
Defined.
(** * How an attempt can end *)

Lemma bind_hang {S A B} (m : Prog S A) (k : A → Prog S B) s s' :
  (m ≫= k) s = (Hang, s') →
  m s = (Hang, s') ∨ ∃ a s1, m s = (Return a, s1) ∧ k a s1 = (Hang, s').
Proof.
  unfold mbind, Prog_bind, pbind.
  destruct (m s) as [[a| |] s1]; intros H; try discriminate.
  - right; eauto.
  - left. injection H as ->. reflexivity.
Qed.

Section Endings.
Context (P : PyException → Prop) (Q : Proc → Prop).

Lemma raises_bind {A B} (m : Worker A) (k : A → Worker B) :
  raises_only P m → (∀ a, raises_only P (k a)) → raises_only P (m ≫= k).
Proof.
  intros Hm Hk p e p' H. apply bind_raise in H as [H|(a & p1 & _ & H)].
  - eapply Hm, H.
  - eapply Hk, H.
Qed.

Lemma hangs_bind {A B} (m : Worker A) (k : A → Worker B) :
  hangs_only Q m → (∀ a, hangs_only Q (k a)) → hangs_only Q (m ≫= k).
Proof.
  intros Hm Hk p p' H. apply bind_hang in H as [H|(a & p1 & _ & H)].
  - eapply Hm, H.
  - eapply Hk, H.
Qed.

Lemma raises_when b (m : Worker unit) :
  (b = true → raises_only P m) → raises_only P (when b m).
Proof. destruct b; cbn; [auto|]. intros _ p e p'. discriminate. Qed.

Lemma hangs_when b (m : Worker unit) :
  (b = true → hangs_only Q m) → hangs_only Q (when b m).
Proof. destruct b; cbn; [auto|]. intros _ p p'. discriminate. Qed.
End Endings.

(** Code that always returns. *)
Lemma returns_raises P {A} (m : Worker A) :
  (∀ p, ∃ a p', m p = (Return a, p')) → raises_only P m.
Proof. intros H p e p' E. destruct (H p) as (a & q & Hq). congruence. Qed.

Lemma returns_hangs Q {A} (m : Worker A) :
  (∀ p, ∃ a p', m p = (Return a, p')) → hangs_only Q m.
Proof. intros H p p' E. destruct (H p) as (a & q & Hq). congruence. Qed.

Lemma py_truediv_returns a b p :
  Qeq_bool b 0 = false → py_truediv a b p = (Return (Qred (a / b)), p).
Proof. intros H. unfold py_truediv. now rewrite H. Qed.

Lemma Qeq_bool_pos q : Qle_bool q 0 = false → Qeq_bool q 0 = false.
Proof.
  intros H. destruct (Qeq_bool q 0) eqn:E; [|reflexivity].
  apply Qeq_bool_iff in E. assert (Qle_bool q 0 = true); [|congruence].
  apply Qle_bool_iff. rewrite E. apply Qle_refl.
Qed.

Lemma Qle_bool_pos_quotient len d :
  0 ≤ len → 0 < d → Qle_bool 0 (Qred (inject_Z len / inject_Z d)) = true.
Proof.
  intros Hl Hd. apply Qle_bool_iff. rewrite Qred_correct.
  destruct d as [|d|d]; try lia.
  unfold Qle, Qdiv, Qmult, Qinv, inject_Z. cbn. lia.
Qed.

(** ** The exceptions of the [try] block *)

Ltac raise_leaf :=
  solve [ let H := fresh in
          intros ? ? ? H;
          unfold deliver, f_write, py_open, os_remove, os_rename, os_path_getsize,
                 time_sleep in H;
          run_in H;
          repeat match type of H with
                 | context [match ?x with _ => _ end] => destruct x; run_in H
                 end;
          first [ discriminate H
                | injection H as <- _; split; cbn; [discriminate | discriminate] ] ].

Ltac raise_step :=
  match goal with
  | |- raises_only _ (_ ≫= _) => apply raises_bind; [|intros ?]
  | |- raises_only _ (when _ _) => apply raises_when; intros ?
  | |- raises_only _ (if ?b then _ else _) => destruct b eqn:?
  | |- raises_only _ (match ?x with _ => _ end) => destruct x eqn:?
  end.

Lemma raises_py_truediv P a b :
  Qeq_bool b 0 = false → raises_only P (py_truediv a b).
Proof. intros Hb p e p' H. rewrite py_truediv_returns in H by exact Hb. discriminate. Qed.

Lemma raises_time_sleep P site q :
  Qle_bool 0 q = true → raises_only P (time_sleep site q).
Proof. intros Hq p e p'. unfold time_sleep. rewrite Hq. discriminate. Qed.

Lemma raises_wait m ps : raises_only (expected_failure m) (wait_while_paused ps).
Proof.
  induction ps as [|ws ps IH]; cbn [wait_while_paused];
    repeat raise_step; try raise_leaf; try assumption.
  apply raises_time_sleep. reflexivity.
Qed.

Lemma raises_apply_speed_limit m n :
  raises_only (expected_failure m) (apply_speed_limit m (Z.of_nat n)).
Proof.
  intros p e p' H.
  destruct (max_download_speed m) as [s|] eqn:Hs;
    [|rewrite apply_speed_limit_off in H by auto; discriminate].
  destruct (decide (s = 0)) as [->|Hz];
    [rewrite apply_speed_limit_off in H by auto; discriminate|].
  rewrite (apply_speed_limit_on m _ s Hs Hz) in H. unfold time_sleep in H.
  destruct (Qle_bool 0 _) eqn:Hq; [discriminate|].
  injection H as <- _. split; [discriminate|]. intros _. exists s. split; [exact Hs|].
  destruct (Z.lt_trichotomy s 0) as [?|[?|Hpos]]; [assumption | contradiction|].
  rewrite Qle_bool_pos_quotient in Hq by lia. discriminate.
Qed.

Lemma raises_process_chunk m temp started c lu :
  raises_only (expected_failure m) (process_chunk m temp started c lu).
Proof.
  unfold process_chunk. repeat raise_step;
    try raise_leaf;
    try apply raises_wait;
    try apply raises_apply_speed_limit.
  - apply raises_py_truediv, Qeq_bool_inject_Z_0.
    match goal with H : (0 <? _) = true |- _ => apply Z.ltb_lt in H end. lia.
  - apply raises_py_truediv, Qeq_bool_pos.
    match goal with H : negb ?b = true |- _ => destruct b; [discriminate | reflexivity] end.
  - apply raises_py_truediv, Qeq_bool_inject_Z_0.
    match goal with H : _ && _ = true |- _ => apply andb_prop in H as [H _];
      apply Z.ltb_lt in H end. lia.
Qed.

Lemma raises_stream_body m temp started body ending lu :
  raises_only (expected_failure m) (stream_body m temp started body ending lu).
Proof.
  revert lu. induction body as [|c body IH]; intros lu; cbn [stream_body].
  - repeat raise_step; raise_leaf.
  - apply raises_bind; [apply raises_process_chunk | intros ?; apply IH].
Qed.

Lemma raises_try_block m env : raises_only (expected_failure m) (try_block m env).
Proof.
  unfold try_block, transfer, receive, resume_point, finish.
  repeat raise_step; try raise_leaf; apply raises_stream_body.
Qed.

(** ** Where an attempt can stay for ever *)

Ltac hang_leaf :=
  solve [ let H := fresh in
          intros ? ? H;
          unfold deliver, f_write, py_open, os_remove, os_rename, os_path_getsize,
                 time_sleep, py_truediv, apply_speed_limit in H;
          run_in H;
          repeat match type of H with
                 | context [match ?x with _ => _ end] => destruct x; run_in H
                 | context [if ?x then _ else _] => destruct x; run_in H
                 end;
          discriminate H ].

Ltac hang_step :=
  match goal with
  | |- hangs_only _ (_ ≫= _) => apply hangs_bind; [|intros ?]
  | |- hangs_only _ (when _ _) => apply hangs_when; intros ?
  | |- hangs_only _ (if ?b then _ else _) => destruct b eqn:?
  | |- hangs_only _ (match ?x with _ => _ end) => destruct x eqn:?
  end.

(** The pause wait keeps the status it finds, and stays only while the
    task is paused and not stopped. *)
Lemma wait_hangs ps p p' :
  status (p_task p) = PAUSED → wait_while_paused ps p = (Hang, p') → waiting p'.
Proof.
  revert p. induction ps as [|ws ps IH]; intros p Hs; cbn [wait_while_paused].
  - run. destruct (paused (p_task p) && negb (stopped (p_task p))) eqn:Hb; run;
      [|discriminate].
    intros [= <-]. apply andb_prop in Hb as [Hp Hst].
    split; [exact Hs|]. split; [exact Hp|]. now destruct (stopped (p_task p)).
  - run. destruct (paused (p_task p) && negb (stopped (p_task p))); run;
      [|discriminate].
    unfold time_sleep. change (Qle_bool 0 (1 # 10)) with true. run.
    unfold deliver. run. apply IH. cbn.
    destruct (fold_apply_write_fields ws (p_task p)) as (_&_&_&_&_&->). exact Hs.
Qed.

Lemma hangs_apply_speed_limit Q m len : hangs_only Q (apply_speed_limit m len).
Proof.
  intros p p' H.
  destruct (max_download_speed m) as [s|] eqn:Hs;
    [|rewrite apply_speed_limit_off in H by auto; discriminate].
  destruct (decide (s = 0)) as [->|Hz];
    [rewrite apply_speed_limit_off in H by auto; discriminate|].
  rewrite (apply_speed_limit_on m _ s Hs Hz) in H. unfold time_sleep in H.
  destruct (Qle_bool 0 _); discriminate.
Qed.

Lemma hangs_process_chunk m temp started c lu :
  hangs_only waiting (process_chunk m temp started c lu).
Proof.
  unfold process_chunk.
  do 5 (apply hangs_bind; [hang_leaf | intros ?]).
  apply hangs_bind;
    [|intros ?; repeat hang_step; try hang_leaf; apply hangs_apply_speed_limit].
  apply hangs_when. intros _.
  intros p p' H. apply bind_hang in H as [H|([] & p1 & H1 & H)]; [discriminate|].
  injection H1 as <-.
  apply bind_hang in H as [H|([] & p2 & H1 & H)].
  - eapply wait_hangs, H. reflexivity.
  - assert (Hn : hangs_only (λ _, False)
              (deliver (writes_late c);;
               t ← get_task;
               when (stopped t) (raise StopException "Download stopped");;
               modify_task (set_status DOWNLOADING)))
      by (repeat hang_step; hang_leaf).
    destruct (Hn _ _ H).
Qed.

Lemma hangs_stream_body m temp started body ending lu :
  hangs_only waiting (stream_body m temp started body ending lu).
Proof.
  revert lu. induction body as [|c body IH]; intros lu; cbn [stream_body].
  - repeat hang_step; hang_leaf.
  - apply hangs_bind; [apply hangs_process_chunk | intros ?; apply IH].
Qed.

Lemma hangs_try_block m env : hangs_only waiting (try_block m env).
Proof.
  unfold try_block, transfer, receive, resume_point, finish.
  repeat hang_step; try hang_leaf; apply hangs_stream_body.
Qed.

(** X14.  Whatever the server, the clock and the user do, an exception
    raised in the [try] block is never a ZeroDivisionError: each of the
    three quotients of the chunk loop (progress, speed, ETA) is computed only
    when its divisor is positive, and the speed limit only under a ceiling
    that is not zero.  It is a ValueError only under a negative speed
    ceiling. *)
Theorem try_block_failures (m : Manager) (env : AttemptEnv) (p p' : Proc)
    (e : PyException) :
  try_block m env p = (Raise e, p') →
  exc_class e ≠ ZeroDivisionError
  ∧ (exc_class e = ValueError → ∃ s, max_download_speed m = Some s ∧ s < 0).
Proof. intros H. exact (raises_try_block m env p e p' H). Qed.

Lemma try_block_failures_witness :
  exc_class (mkExc HttpException "HTTP 500") ≠ ZeroDivisionError.
Proof.
  apply (try_block_failures (new_manager 1 None true 3) env_http_500
           (mkProc sample_task ∅ [])
           (snd (try_block (new_manager 1 None true 3) env_http_500
                   (mkProc sample_task ∅ [])))).
  vm_compute. reflexivity.
Defined.

(** X15.  An attempt never lets an exception out of its [try/except].
    It ends with its task COMPLETED, QUEUED or ERROR, or it does not end,
    and then only because the task is held in the pause wait: status
    PAUSED, [paused] set and [stopped] not set.  So [_download_file] reaches
    its [finally] block, where the slot is given back, unless the user
    leaves the task paused. *)
Theorem attempt_ends_or_waits (m : Manager) (env : AttemptEnv) (p : Proc) :
  (∀ e p', attempt m env p ≠ (Raise e, p'))
  ∧ (∀ a p', attempt m env p = (Return a, p') →
       status (p_task p') = COMPLETED ∨ status (p_task p') = QUEUED
       ∨ status (p_task p') = ERROR)
  ∧ (∀ p', attempt m env p = (Hang, p') → waiting p')
  ∧ (∀ tid w, (tid < length (w_heap w))%nat →
       let r := _download_file tid env w in
       (fst r = Hang ∧ status (w_heap (snd r) !!! tid) = PAUSED
        ∧ active_downloads (w_mgr (snd r)) = active_downloads (w_mgr w))
       ∨ (fst r = Return tt
          ∧ snd r = finally_block (snd (run_attempt tid env w)))).
Proof.
  split; [|split; [|split]].
  - intros e p' H.
    destruct (attempt_cases m env p) as [(?&_&Ha)|[(?&?&_&Ha)|(?&_&Ha)]];
      rewrite Ha in H; discriminate.
  - intros a p' H.
    destruct (attempt_cases m env p) as [(p1&Ht&Ha)|[(e&p1&Ht&Ha)|(p1&_&Ha)]];
      rewrite Ha in H; try discriminate; injection H as _ <-.
    + left. eapply try_block_return, Ht.
    + destruct (retry_count (p_task p) <? max_retries m).
      * right; left. reflexivity.
      * right; right. apply error_state_fields.
  - intros p' H.
    destruct (attempt_cases m env p) as [(p1&Ht&Ha)|[(e&p1&Ht&Ha)|(p1&Ht&Ha)]];
      rewrite Ha in H; try discriminate.
    injection H as <-. eapply hangs_try_block, Ht.
  - intros tid w Htid. cbn zeta. unfold _download_file, run_attempt.
    set (q := mkProc (w_heap w !!! tid) (w_fs w) (w_log w)).
    destruct (attempt_cases (w_mgr w) env q)
      as [(p1&Ht&Ha)|[(e&p1&Ht&Ha)|(p1&Ht&Ha)]]; rewrite Ha; cbn [fst snd].
    + right. auto.
    + right. auto.
    + left. split; [reflexivity|]. cbn [w_heap w_mgr].
      rewrite list_lookup_total_insert_eq by exact Htid.
      split; [|reflexivity]. eapply hangs_try_block, Ht.
Qed.
(** ** Where a download lands *)

Lemma prefix_nil (s : string) : String.prefix "" s = true.
Proof. destruct s; reflexivity. Qed.

Lemma prefix_cons a s1 b s2 :
  String.prefix (String a s1) (String b s2)
  = if Ascii.ascii_dec a b then String.prefix s1 s2 else false.
Proof. reflexivity. Qed.

Lemma prefix_app (a b : string) : String.prefix a (a +:+ b) = true.
Proof.
  induction a as [|x a IH]; [apply prefix_nil|].
  change (String x a +:+ b) with (String x (a +:+ b)). rewrite prefix_cons.
  destruct (Ascii.ascii_dec x x); [exact IH | contradiction].
Qed.






Lemma filename_no_slash d :
  RecoveryImage.download_url d ≠ "" →
  str_contains "/" (RecoveryImage.filename d) = false.
Proof.
  intros Hne. unfold RecoveryImage.filename. cbv zeta.
  rewrite bool_decide_eq_false_2 by assumption. cbn [negb].
  set (seg := last_segment (py_split "/" (RecoveryImage.download_url d))).
  destruct (py_split_segments "/" _ seg (last_segment_in _ _)) as [Hs _].
  destruct (str_contains "?" seg) eqn:Hq; [|exact Hs].
  destruct (py_split_segments "?" seg _ (first_segment_in "?" seg)) as [_ H2].
  destruct (str_contains "/" (first_segment (py_split "?" seg))) eqn:E; [|reflexivity].
  rewrite (H2 _ E) in Hs. discriminate.
Qed.


(** ** A change of settings *)

Lemma readded_trans s1 s2 s3 : readded s1 s2 → readded s2 s3 → readded s1 s3.
Proof.
  unfold readded. intros [->|[->|[-> ->]]] [->|[->|[H ->]]]; auto; discriminate.
Qed.

Lemma add_download_readd i v b v1 :
  add_download i v = (Return b, v1) →
  tasks (w_mgr v1) = tasks (w_mgr v) ++ [i]
  ∧ max_concurrent_downloads (w_mgr v1) = max_concurrent_downloads (w_mgr v)
  ∧ (∀ tid, readded (status (w_heap v !!! tid)) (status (w_heap v1 !!! tid)))
  ∧ ((w_threads v1 = w_threads v
      ∧ active_downloads (w_mgr v1) = active_downloads (w_mgr v))
     ∨ (∃ j, w_threads v1 = w_threads v ++ [(j, Running)]
             ∧ active_downloads (w_mgr v1) = active_downloads (w_mgr v) + 1
             ∧ active_downloads (w_mgr v) < max_concurrent_downloads (w_mgr v)
             ∧ status (w_heap v !!! j) = QUEUED)).
Proof.
  unfold add_download. destruct (exists_ _ _).
  - intros [= <- <-]. cbn. split; [reflexivity|]. split; [reflexivity|].
    split; [|left; auto].
    intros tid. rewrite list_lookup_total_alter. case_decide; [|left; reflexivity].
    right; left. reflexivity.
  - destruct (os_makedirs _ _) as [e|fs']; [discriminate|]. intros [= <- <-].
    unfold _start_next_download. cbn [w_mgr w_heap set_tasks max_concurrent_downloads
      active_downloads tasks].
    case_bool_decide as Hfull.
    { cbn. split; [reflexivity|]. split; [reflexivity|].
      split; [intros tid; left; reflexivity | left; auto]. }
    destruct (first_queued _ _) as [j|] eqn:Hfq.
    + apply first_queued_some in Hfq as [_ Hq]. cbn.
      split; [reflexivity|]. split; [reflexivity|]. split.
      * intros tid. rewrite list_lookup_total_alter. case_decide as Hd; [|left; reflexivity].
        destruct Hd as [-> _]. right; right. auto.
      * right. exists j. repeat split; try reflexivity; [lia | exact Hq].
    + cbn. split; [reflexivity|]. split; [reflexivity|].
      split; [intros tid; left; reflexivity | left; auto].
Qed.

Lemma readd_spec ids : ∀ v v',
  readd ids v = (Return tt, v') →
  tasks (w_mgr v') = tasks (w_mgr v) ++ ids
  ∧ max_concurrent_downloads (w_mgr v') = max_concurrent_downloads (w_mgr v)
  ∧ (∀ tid, readded (status (w_heap v !!! tid)) (status (w_heap v' !!! tid)))
  ∧ ∃ started,
      w_threads v' = w_threads v ++ map (λ j, (j, Running)) started
      ∧ active_downloads (w_mgr v')
        = active_downloads (w_mgr v) + Z.of_nat (length started)
      ∧ active_downloads (w_mgr v')
        ≤ Z.max (active_downloads (w_mgr v)) (max_concurrent_downloads (w_mgr v))
      ∧ Forall (λ j, status (w_heap v !!! j) = QUEUED) started.
Proof.
  induction ids as [|i ids IH]; intros v v'; cbn [readd].
  - intros [= <-]. rewrite app_nil_r. split; [reflexivity|]. split; [reflexivity|].
    split; [intros tid; left; reflexivity|].
    exists []. cbn. rewrite app_nil_r. repeat split; [lia | lia | constructor].
  - intros H. apply bind_return in H as (b & v1 & H1 & H2).
    apply add_download_readd in H1 as (T1 & C1 & R1 & Hth).
    apply IH in H2 as (T2 & C2 & R2 & started & Th & Ac & Bd & Fq).
    split; [rewrite T2, T1, <- app_assoc; reflexivity|].
    split; [congruence|].
    split; [intros tid; eapply readded_trans; [apply R1 | apply R2]|].
    assert (Fq' : Forall (λ j, status (w_heap v !!! j) = QUEUED) started).
    { eapply Forall_impl; [exact Fq|]. cbn. intros j Hj.
      destruct (R1 j) as [E|[E|[_ E]]]; congruence. }
    destruct Hth as [[Th1 Ac1]|(j & Th1 & Ac1 & Lt & Hq)].
    + exists started. rewrite Th, Th1, Ac, Ac1. repeat split; try assumption.
      rewrite C1, Ac1, Ac in Bd. lia.
    + exists (j :: started). rewrite Th, Th1, Ac, Ac1, <- app_assoc. cbn [map app length].
      repeat split; [lia | | constructor; assumption].
      rewrite C1, Ac1, Ac in Bd. lia.
Qed.

(** X17.  Accepting the settings dialog puts a new manager in place and
    re-adds the tasks of the old one in their order.  When the loop goes
    through, the new manager holds the same list; its count of active
    workers is the number of workers it has started itself, at most its
    ceiling, each for a task that was QUEUED.  A task that was DOWNLOADING,
    PAUSED or ERROR keeps that status unless its file exists (then it is
    COMPLETED), and the workers of the old manager stay alive: they take
    none of the slots of the new manager, whose ceiling therefore does not
    bound the number of DOWNLOADING tasks. *)
Theorem show_settings_readds (mcd : Z) (mds : option Z) (win : Window) :
  fst (show_settings mcd mds win) = Return tt →
  let w := download_manager win in
  let w' := download_manager (snd (show_settings mcd mds win)) in
  tasks (w_mgr w') = tasks (w_mgr w)
  ∧ max_concurrent_downloads (w_mgr w') = mcd
  ∧ max_download_speed (w_mgr w') = mds
  ∧ (∀ tid, readded (status (w_heap w !!! tid)) (status (w_heap w' !!! tid)))
  ∧ ∃ started,
      w_threads w' = w_threads w ++ map (λ j, (j, Running)) started
      ∧ active_downloads (w_mgr w') = Z.of_nat (length started)
      ∧ Z.of_nat (length started) ≤ Z.max 0 mcd
      ∧ Forall (λ j, status (w_heap w !!! j) = QUEUED) started.
Proof.
  unfold show_settings. cbv zeta.
  destruct (readd _ _) as [[[]|e|] v'] eqn:Hr; cbn [fst snd]; try discriminate.
  intros _. cbn [download_manager show set_download_manager].
  pose proof Hr as Hspeed.
  apply readd_spec in Hr as (T & C & R & started & Th & Ac & Bd & Fq).
  cbn in T, C, R, Th, Ac, Bd, Fq.
  split; [exact T|]. split; [exact C|]. split.
  - clear -Hspeed. revert Hspeed.
    generalize (tasks (w_mgr (download_manager win))). intros ids.
    match goal with |- readd ids ?x = _ → _ =>
      assert (Hx : max_download_speed (w_mgr x) = mds) by reflexivity;
      generalize dependent x end.
    induction ids as [|i ids IH]; intros x Hx; cbn [readd].
    + intros [= <-]. exact Hx.
    + intros H. apply bind_return in H as (b & v1 & H1 & H2).
      apply (IH v1); [|exact H2]. rewrite <- Hx. clear -H1.
      unfold add_download in H1. destruct (exists_ _ _); [injection H1 as _ <-; reflexivity|].
      destruct (os_makedirs _ _); [discriminate|]. injection H1 as _ <-.
      unfold _start_next_download. case_bool_decide; [reflexivity|].
      destruct (first_queued _ _); reflexivity.
  - split; [exact R|]. exists started. rewrite Ac in Bd.
    repeat split; try assumption; lia.
Qed.

Lemma show_settings_readds_witness :
  let win := mkWindow "/downloads" [] world_two_submitted ∅ [] in
  let w' := download_manager (snd (show_settings 1 None win)) in
  active_downloads (w_mgr w') = 1
  ∧ max_concurrent_downloads (w_mgr w') = 1
  ∧ get_active_downloads_count w' = 2.
Proof.
  cbn zeta.
  destruct (show_settings_readds 1 None (mkWindow "/downloads" [] world_two_submitted ∅ []))
    as (_ & Hc & _ & _ & started & Hth & Ha & _).
  - vm_compute. reflexivity.
  - split; [|split; [exact Hc | vm_compute; reflexivity]].
    rewrite Ha. vm_compute in Hth.
    destruct started as [|j [|k l]]; try discriminate. reflexivity.
Defined.
(** * Properties of the API client *)

Lemma py_max_from_spec {A} (key : A → Z) (l : list A) : ∀ best,
  py_max_from key best l ∈ best :: l
  ∧ ∀ x, x ∈ best :: l → key x ≤ key (py_max_from key best l).
Proof.
  induction l as [|y l IH]; intros best; cbn [py_max_from].
  - split; [left|]. intros x Hx. apply list_elem_of_singleton in Hx as ->. lia.
  - destruct (IH (if key best <? key y then y else best)) as [Hin Hmax].
    split.
    + apply elem_of_cons in Hin as [->|Hin].
      * destruct (key best <? key y); [right; left | left].
      * right; right; exact Hin.
    + intros x Hx.
      assert (Hb : key best ≤ key (py_max_from key (if key best <? key y then y else best) l)
                   ∧ key y ≤ key (py_max_from key (if key best <? key y then y else best) l)).
      { pose proof (Hmax _ ltac:(left)) as H0.
        destruct (Z.ltb_spec (key best) (key y)); split; lia. }
      apply elem_of_cons in Hx as [->|Hx]; [apply Hb|].
      apply elem_of_cons in Hx as [->|Hx]; [apply Hb|].
      apply Hmax. right; exact Hx.
Qed.

Lemma assoc_lookup_in {V} key (d : list (string * V)) v :
  assoc_lookup key d = Some v → (key, v) ∈ d.
Proof.
  induction d as [|[k x] d IH]; cbn; [discriminate|].
  case_bool_decide as Hk; [intros [= ->]; subst; left | intros H; right; auto].
Qed.

Lemma create_image_spec codename brand_name pf ff is_aue data milestone version img :
  _create_image_from_recovery codename brand_name pf ff is_aue data milestone version
  = Some img →
  RecoveryImage.download_url img ≠ ""
  ∧ (data = RecoveryUrl (RecoveryImage.download_url img)
     ∨ data = RecoveryDict (Some (RecoveryImage.download_url img)))
  ∧ img = RecoveryImage.mk codename brand_name pf ff is_aue
            (RecoveryImage.download_url img)
            (if bool_decide (version = "") then "M" +:+ milestone else version)
            milestone None None None.
Proof.
  unfold _create_image_from_recovery. cbv zeta.
  case_bool_decide as Hu; [discriminate|]. intros [= <-]. cbn.
  split; [exact Hu|]. split; [|reflexivity].
  destruct data as [url|[url|]|]; cbn in *; auto; contradiction.
Qed.

(** X18.  [_extract_recovery_images] returns at most one image, and
    none at all when [stable_only] is false.  The image it returns is that
    of the greatest milestone among the keys of [pushRecoveries] that are
    numbers, compared as numbers and not as strings; keys that are not
    numbers are ignored.  Its URL is the one recorded there and is not
    empty; its version is the [chromeVersion] of [servingStable] if there is
    one, and ["M<milestone>"] otherwise; its brand name is the first of
    [brandNames], or the code name if there is none. *)
Theorem latest_stable_recovery (codename : string) (d : Details) (stable_only : bool) :
  let images := _extract_recovery_images codename d stable_only in
  (length images ≤ 1)%nat
  ∧ (stable_only = false → images = [])
  ∧ ∀ img, img ∈ images →
      ∃ recs data,
        pushRecoveries d = Some recs
        ∧ (RecoveryImage.milestone img, data) ∈ recs
        ∧ isdigit (RecoveryImage.milestone img) = true
        ∧ (∀ k, k ∈ map fst recs → isdigit k = true →
             int_of_str k ≤ int_of_str (RecoveryImage.milestone img))
        ∧ RecoveryImage.download_url img ≠ ""
        ∧ (data = RecoveryUrl (RecoveryImage.download_url img)
           ∨ data = RecoveryDict (Some (RecoveryImage.download_url img)))
        ∧ RecoveryImage.codename img = codename
        ∧ RecoveryImage.version img
          = match servingStable d with
            | Some (Some v) =>
                if bool_decide (v = "") then "M" +:+ RecoveryImage.milestone img else v
            | _ => "M" +:+ RecoveryImage.milestone img
            end
        ∧ RecoveryImage.brand_name img
          = match brandNames d with Some (name :: _) => name | _ => codename end
        ∧ RecoveryImage.is_aue img = default false (isAue d).
Proof.
  cbn zeta. unfold _extract_recovery_images. cbv zeta.
  destruct (negb _ && stable_only) eqn:Hguard.
  2:{ split; [cbn; lia|]. split; [reflexivity|]. intros img Hin. inversion Hin. }
  apply andb_prop in Hguard as [_ ->].
  destruct (pushRecoveries d) as [recs|] eqn:Hrecs; cbn [default from_option id].
  2:{ cbn. split; [lia|]. split; [discriminate|]. intros img Hin. inversion Hin. }
  unfold id.
  destruct (filter _ (map fst recs)) as [|k rest] eqn:Hvalid.
  { cbn. split; [lia|]. split; [discriminate|]. intros img Hin. inversion Hin. }
  destruct (py_max_from_spec int_of_str rest k) as [Hin Hmax].
  set (latest := py_max_from int_of_str k rest) in *.
  rewrite <- Hvalid in Hin.
  apply list_elem_of_filter in Hin as [Hdig Hkey].
  destruct (assoc_lookup latest recs) as [data|] eqn:Hl.
  2:{ cbn. split; [lia|]. split; [discriminate|]. intros img Hin. inversion Hin. }
  apply assoc_lookup_in in Hl.
  destruct (_create_image_from_recovery _ _ _ _ _ _ _ _) as [image|] eqn:Hc.
  2:{ cbn. split; [lia|]. split; [discriminate|]. intros img Hin. inversion Hin. }
  split; [cbn; lia|]. split; [discriminate|].
  intros img Himg. apply list_elem_of_singleton in Himg as ->.
  apply create_image_spec in Hc as (Hurl & Hdata & Heq).
  exists recs, data. rewrite Heq. cbn.
  split; [reflexivity|]. split; [exact Hl|]. split; [exact Hdig|]. split.
  { intros k' Hk' Hd'. apply Hmax. rewrite <- Hvalid.
    apply list_elem_of_filter. auto. }
  split; [rewrite Heq in Hurl; exact Hurl|].
  split; [rewrite Heq in Hdata; exact Hdata|].
  split; [reflexivity|]. split.
  - destruct (servingStable d) as [[v|]|]; cbn.
    + destruct (decide (v = "")) as [->|Hv].
      * rewrite (bool_decide_eq_true_2 ("" = "")) by reflexivity.
        rewrite bool_decide_eq_false_2 by discriminate. reflexivity.
      * rewrite !(bool_decide_eq_false_2 (v = "")) by exact Hv. reflexivity.
    + reflexivity.
    + reflexivity.
  - split; [|reflexivity]. destruct (brandNames d) as [[|name names]|]; reflexivity.
Qed.

Lemma extract_unstable codename d : _extract_recovery_images codename d false = [].
Proof.
  unfold _extract_recovery_images. cbv zeta. now rewrite andb_false_r.
Qed.

Lemma extract_url codename d stable_only img :
  img ∈ _extract_recovery_images codename d stable_only →
  RecoveryImage.download_url img ≠ "".
Proof.
  unfold _extract_recovery_images. cbv zeta.
  destruct (negb _ && stable_only); [|intros H; inversion H].
  destruct (filter _ _) as [|k rest]; [intros H; inversion H|].
  destruct (assoc_lookup _ _) as [data|]; [|intros H; inversion H].
  destruct (_create_image_from_recovery _ _ _ _ _ _ _ _) as [image|] eqn:Hc;
    [|intros H; inversion H].
  intros H. apply list_elem_of_singleton in H as ->.
  apply create_image_spec in Hc as (Hurl & _). exact Hurl.
Qed.

(** X19.  [get_devices_by_manufacturer] with [stable_only=False] returns
    no device at all, whatever the data.  With [stable_only=True] every
    image it returns has a download URL that is not empty, hence a file name
    taken from the URL, without ['/'] and ['?']; it comes either from a
    stand-alone device whose brand names match the manufacturer, or from a
    model of a parent board whose own brand names match, under the code name
    [<board>-<model>]: a board that has models is never listed itself. *)
Theorem devices_by_manufacturer (manufacturer : string)
    (builds : list (string * Build)) :
  get_devices_by_manufacturer manufacturer false builds = []
  ∧ ∀ img, img ∈ get_devices_by_manufacturer manufacturer true builds →
      RecoveryImage.download_url img ≠ ""
      ∧ str_contains "/" (RecoveryImage.filename img) = false
      ∧ ∃ codename build, (codename, build) ∈ builds
          ∧ ((models build = None
              ∧ brand_matches manufacturer (default [] (brandNames (details build))) = true
              ∧ img ∈ _extract_recovery_images codename (details build) true)
             ∨ (∃ ms model_codename model_details,
                  models build = Some ms
                  ∧ (model_codename, model_details) ∈ ms
                  ∧ brand_matches manufacturer
                      (default [] (brandNames model_details)) = true
                  ∧ img ∈ _extract_recovery_images
                            (codename +:+ "-" +:+ model_codename)
                            (_combine_details (details build) model_details) true)).
Proof.
  split.
  - unfold get_devices_by_manufacturer.
    induction builds as [|[codename build] builds IH]; [reflexivity|].
    cbn [flat_map]. rewrite IH, app_nil_r.
    destruct (models build) as [ms|].
    + induction ms as [|[mc md] ms IHm]; [reflexivity|].
      cbn [flat_map]. rewrite IHm, app_nil_r.
      destruct (brand_matches _ _); [apply extract_unstable | reflexivity].
    + destruct (brand_matches _ _); [apply extract_unstable | reflexivity].
  - intros img Hin.
    assert (Hsrc : ∃ codename build, (codename, build) ∈ builds
          ∧ ((models build = None
              ∧ brand_matches manufacturer (default [] (brandNames (details build))) = true
              ∧ img ∈ _extract_recovery_images codename (details build) true)
             ∨ (∃ ms model_codename model_details,
                  models build = Some ms
                  ∧ (model_codename, model_details) ∈ ms
                  ∧ brand_matches manufacturer
                      (default [] (brandNames model_details)) = true
                  ∧ img ∈ _extract_recovery_images
                            (codename +:+ "-" +:+ model_codename)
                            (_combine_details (details build) model_details) true))).
    { unfold get_devices_by_manufacturer in Hin.
      apply list_elem_of_In, in_flat_map in Hin as ([codename build] & Hb & Hin).
      apply list_elem_of_In in Hb. exists codename, build. split; [exact Hb|].
      destruct (models build) as [ms|] eqn:Hm.
      - right. apply in_flat_map in Hin as ([mc md] & Hmd & Hin).
        apply list_elem_of_In in Hmd.
        destruct (brand_matches _ _) eqn:Hbm; [|destruct Hin].
        apply list_elem_of_In in Hin. exists ms, mc, md. auto.
      - left. destruct (brand_matches _ _) eqn:Hbm; [|destruct Hin].
        apply list_elem_of_In in Hin. auto. }
    assert (Hurl : RecoveryImage.download_url img ≠ "").
    { destruct Hsrc as (c & b & _ & [(_ & _ & H)|(ms & mc & md & _ & _ & _ & H)]);
        eapply extract_url, H. }
    split; [exact Hurl|]. split; [apply filename_no_slash, Hurl | exact Hsrc].
Qed.

Lemma latest_stable_recovery_witness :
  (length (_extract_recovery_images "terra" sample_details true) ≤ 1)%nat
  ∧ map RecoveryImage.milestone (_extract_recovery_images "terra" sample_details true)
    = ["126"].
Proof.
  split; [apply (latest_stable_recovery "terra" sample_details true)|].
  vm_compute. reflexivity.
Defined.
(** * The request of an attempt *)

#[local] Instance streamed_preorder : PreOrder streamed.
Proof.
  split.
  - intros p. split; [exists []; now rewrite app_nil_r | reflexivity].
  - intros p q r [[l1 H1] T1] [[l2 H2] T2]. split; [|congruence].
    exists (l1 ++ l2). rewrite H2, H1, app_assoc. reflexivity.
Qed.

Lemma fold_apply_write_total_size ws t :
  total_size (fold_left apply_write ws t) = total_size t.
Proof.
  revert t. induction ws as [|w ws IH]; intros t; [reflexivity|].
  cbn. rewrite IH. destruct w; reflexivity.
Qed.

Ltac streamed_leaf :=
  solve [ intros ?; split;
          [ first [ exists []; cbn; now rewrite app_nil_r | eexists; reflexivity ]
          | first [ reflexivity | apply fold_apply_write_total_size ] ] ].

Lemma streamed_wait ps : keeps streamed (wait_while_paused ps).
Proof.
  induction ps as [|ws ps IH]; cbn [wait_while_paused]; frame;
    try streamed_leaf; assumption.
Qed.

Lemma streamed_stream_body m temp started body ending lu :
  keeps streamed (stream_body m temp started body ending lu).
Proof.
  revert lu. induction body as [|c body IH]; intros lu; cbn [stream_body].
  - frame.
  - frame; [|apply IH].
    unfold process_chunk; frame; try streamed_leaf; apply streamed_wait.
Qed.

(** X20.  The request of an attempt follows the partial download: with
    a temp file of [n > 0] bytes the worker asks for [Range: bytes=n-] and
    opens the file with ['ab']; with no temp file, or an empty one, it sends
    no [Range] header and opens with ['wb'].  On a response 200 or 206 these
    two events come first, whatever follows, and [total_size] is
    [n + content-length] when the header is present, 0 on a 200 without it,
    and left as it was on a 206 without it. *)
Theorem resume_request (m : Manager) (env : AttemptEnv) (p : Proc)
    (sc : Z) (cl : option Z) (body : list ChunkEnv) (ending : StreamEnd) :
  server env = Response sc cl body ending →
  sc = 200 ∨ sc = 206 →
  p_fs p !! temp_file (p_task p) ≠ Some Dir →
  let temp := temp_file (p_task p) in
  let n := match p_fs p !! temp with
           | Some (File c) => Z.of_nat (length c)
           | _ => 0
           end in
  let p1 := snd (transfer m env p) in
  (∃ rest, p_log p1
           = p_log p ++ [EvRequest "GET" (url (p_task p))
                           (if 0 <? n then [("Range", "bytes=" +:+ pretty n +:+ "-")]
                            else []);
                         EvOpen temp (if 0 <? n then "ab" else "wb")] ++ rest)
  ∧ total_size (p_task p1) = announced_size sc cl n (total_size (p_task p)).
Proof.
  intros Hs Hsc Hnd. cbn zeta.
  rewrite transfer_eq, resume_point_eq.
  set (temp := temp_file (p_task p)) in *.
  assert (Hguard : negb (bool_decide (sc = 200)) && negb (bool_decide (sc = 206)) = false).
  { destruct Hsc as [-> | ->]; reflexivity. }
  assert (Hmain : ∀ q n,
     p_fs q !! temp ≠ Some Dir →
     let q1 := snd (receive m temp n env q) in
     (∃ rest, p_log q1 = p_log q ++ [EvOpen temp (open_mode n)] ++ rest)
     ∧ total_size (p_task q1) = announced_size sc cl n (total_size (p_task q))).
  { intros q n Hq.
    assert (Hq2 : ∃ q2, (match cl with
                   | Some k => modify_task (set_total_size (n + k))
                   | None => when (bool_decide (sc = 200)) (modify_task (set_total_size 0))
                   end) q = (Return tt, q2)
                  ∧ p_fs q2 = p_fs q ∧ p_log q2 = p_log q
                  ∧ total_size (p_task q2) = announced_size sc cl n (total_size (p_task q))).
    { unfold announced_size.
      destruct cl as [k|]; [|destruct (bool_decide (sc = 200))]; cbn;
        eexists; repeat split; reflexivity. }
    destruct Hq2 as (q2 & E2 & F2 & L2 & T2).
    assert (Ho : ∃ q3, py_open temp (open_mode n) q2 = (Return tt, q3)
                       ∧ p_log q3 = p_log q2 ++ [EvOpen temp (open_mode n)]
                       ∧ p_task q3 = p_task q2).
    { unfold py_open. run. rewrite F2.
      destruct (p_fs q !! temp) as [[c|]|] eqn:Hl; [| contradiction |].
      - run. destruct (bool_decide (open_mode n = "wb")); run;
          eexists; repeat split; reflexivity.
      - run. eexists; repeat split; reflexivity. }
    destruct Ho as (q3 & E3 & L3 & T3).
    assert (Er : receive m temp n env q
                 = stream_body m temp (start_time env) body ending (start_time env) q3).
    { unfold receive. rewrite Hs, Hguard. unfold mbind, Prog_bind, pbind. cbn [when].
      unfold mret at 1, Prog_ret, pret. rewrite E2, E3. reflexivity. }
    cbn zeta. rewrite Er.
    pose proof (streamed_stream_body m temp (start_time env) body ending
                  (start_time env) q3) as [[l Hl] Ht].
    split; [exists l; rewrite Hl, L3, L2, <- app_assoc; reflexivity
           | rewrite Ht, T3; exact T2]. }
  destruct (p_fs p !! temp) as [[c|]|] eqn:Hl; [| contradiction |].
  - match goal with |- context [receive m temp ?k env ?q] =>
      destruct (Hmain q k) as [[rest Hr] Ht]; [cbn; rewrite Hl; discriminate|] end.
    cbn zeta in *. cbn [p_log p_task] in *. split.
    + exists rest. rewrite Hr, <- app_assoc. unfold range_headers, open_mode.
      destruct (0 <? Z.of_nat (length c)); reflexivity.
    + rewrite Ht. reflexivity.
  - match goal with |- context [receive m temp ?k env ?q] =>
      destruct (Hmain q k) as [[rest Hr] Ht]; [cbn; rewrite Hl; discriminate|] end.
    cbn zeta in *. cbn [p_log p_task] in *. split.
    + exists rest. rewrite Hr, <- app_assoc. reflexivity.
    + rewrite Ht. reflexivity.
Qed.

Lemma resume_request_witness :
  let p := mkProc (set_status DOWNLOADING sample_task)
             {[ temp_file sample_task := File [Byte.x01; Byte.x02; Byte.x03] ]} [] in
  total_size (p_task (snd (transfer (new_manager 1 None true 3) env_last_two_bytes p))) = 5.
Proof.
  cbn zeta.
  destruct (resume_request (new_manager 1 None true 3) env_last_two_bytes
              (mkProc (set_status DOWNLOADING sample_task)
                 {[ temp_file sample_task := File [Byte.x01; Byte.x02; Byte.x03] ]} [])
              206 (Some 2) [sample_chunk 2 1%Q] EndOfBody) as (_ & Ht).
  - reflexivity.
  - right; reflexivity.
  - vm_compute. discriminate.
  - rewrite Ht. vm_compute. reflexivity.
Defined.
(** * The list of tasks *)



(** * The time spent in the speed limit *)















(** * A stop seen by the worker

    [task.stopped] is read at lines 153, 158 and 160 and written by
    [DownloadTask.__init__] alone, which sets it to False: the worker can
    see it set only when code outside the repository has written it. *)

Lemma raises_at_bind P {A B} (m : Worker A) (k : A → Worker B) :
  raises_at P m → (∀ a, raises_at P (k a)) → raises_at P (m ≫= k).
Proof.
  intros Hm Hk p e p' H. apply bind_raise in H as [H|(a & p1 & _ & H)].
  - eapply Hm, H.
  - eapply Hk, H.
Qed.

Lemma raises_at_when P b (m : Worker unit) :
  (b = true → raises_at P m) → raises_at P (when b m).
Proof. destruct b; cbn; [auto|]. intros _ p e p'. discriminate. Qed.

(** [if task.stopped: raise Exception(msg)] and what follows it. *)
Lemma stop_check msg {A} (rest : Worker A) :
  msg = "Download stopped by user" ∨ msg = "Download stopped" →
  raises_at stop_seen rest →
  raises_at stop_seen
    (t ← get_task; when (stopped t) (raise StopException msg);; rest).
Proof.
  intros Hmsg Hrest p e p'. run.
  destruct (stopped (p_task p)) eqn:Hs; run.
  - intros [= <- <-] _. auto.
  - apply Hrest.
Qed.

Ltac stop_leaf :=
  solve [ let H := fresh in
          intros ? ? ? H;
          unfold deliver, f_write, py_open, os_remove, os_rename, os_path_getsize,
                 time_sleep, py_truediv, apply_speed_limit in H;
          run_in H;
          repeat match type of H with
                 | context [match ?x with _ => _ end] => destruct x; run_in H
                 | context [if ?x then _ else _] => destruct x; run_in H
                 end;
          first [ discriminate H
                | injection H as <- _; intros ?; discriminate ] ].

Ltac stop_step :=
  match goal with
  | |- raises_at _ (get_task ≫= λ t, when (stopped t) _ ≫= _) =>
      apply stop_check; [auto|]
  | |- raises_at _ (_ ≫= _) => apply raises_at_bind; [|intros ?]
  | |- raises_at _ (when _ _) => apply raises_at_when; intros ?
  | |- raises_at _ (if ?b then _ else _) => destruct b eqn:?
  | |- raises_at _ (match ?x with _ => _ end) => destruct x eqn:?
  end.

Lemma stop_seen_wait ps : raises_at stop_seen (wait_while_paused ps).
Proof.
  induction ps as [|ws ps IH]; cbn [wait_while_paused];
    repeat stop_step; try stop_leaf; assumption.
Qed.

Lemma stop_seen_speed_limit m len : raises_at stop_seen (apply_speed_limit m len).
Proof.
  intros p e p' H.
  destruct (max_download_speed m) as [s|] eqn:Hs;
    [|rewrite apply_speed_limit_off in H by auto; discriminate].
  destruct (decide (s = 0)) as [->|Hz];
    [rewrite apply_speed_limit_off in H by auto; discriminate|].
  rewrite (apply_speed_limit_on m _ s Hs Hz) in H. unfold time_sleep in H.
  destruct (Qle_bool 0 _); [discriminate|].
  injection H as <- _. intros ?; discriminate.
Qed.

Lemma stop_seen_process_chunk m temp started c lu :
  raises_at stop_seen (process_chunk m temp started c lu).
Proof.
  unfold process_chunk.
  repeat stop_step; try stop_leaf; try apply stop_seen_wait;
    apply stop_seen_speed_limit.
Qed.

Lemma stop_seen_stream_body m temp started body ending lu :
  raises_at stop_seen (stream_body m temp started body ending lu).
Proof.
  revert lu. induction body as [|c body IH]; intros lu; cbn [stream_body].
  - repeat stop_step; stop_leaf.
  - apply raises_at_bind; [apply stop_seen_process_chunk | intros ?; apply IH].
Qed.

(** The statements after the chunk loop leave the flags of the task
    alone, so a stop can only come from the loop. *)
Lemma stop_seen_try_block m env : raises_at stop_seen (try_block m env).
Proof.
  unfold try_block, transfer, receive, resume_point, finish.
  repeat stop_step; try stop_leaf; apply stop_seen_stream_body.
Qed.


(** C1, as the code has it.  An attempt that ends because the worker saw
    [task.stopped] set ends with the exception of line 154 or 161, raised
    with the flag set, and the [except] block handles it like any other
    failure of the attempt: its message is stored in [error_message]; with
    retry budget left the task goes back to QUEUED with [retry_count] one
    higher and the file system as the [try] block left it, so the temp file
    is kept; with the budget used up the task is ERROR and no regular file
    is left at the temp path.  The flag is still set afterwards and the
    status is never STOPPED. *)
Theorem stop_is_handled_as_failure (m : Manager) (env : AttemptEnv)
    (p p1 : Proc) (e : PyException) :
  try_block m env p = (Raise e, p1) →
  exc_class e = StopException →
  let p' := snd (attempt m env p) in
  let t := p_task p in
  let t' := p_task p' in
  fst (attempt m env p) = Return tt
  ∧ stopped (p_task p1) = true
  ∧ (str e = "Download stopped by user" ∨ str e = "Download stopped")
  ∧ stopped t' = true
  ∧ error_message t' = str e
  ∧ status t' ≠ STOPPED
  ∧ (retry_count t < max_retries m →
       status t' = QUEUED ∧ retry_count t' = retry_count t + 1
       ∧ p_fs p' = p_fs p1)
  ∧ (max_retries m ≤ retry_count t →
       status t' = ERROR ∧ retry_count t' = retry_count t
       ∧ ∀ c, p_fs p' !! temp_file t ≠ Some (File c)).
Proof.
  intros Ht Hc. cbv zeta.
  destruct (stop_seen_try_block m env p e p1 Ht Hc) as [Hs Hmsg].
  pose proof (untouched_try_block m env p) as (_&Hd&Hf&Hrc&_).
  rewrite Ht in Hd, Hf, Hrc. cbn [snd] in Hd, Hf, Hrc.
  destruct (attempt_cases m env p) as [(q&Hq&_)|[(e'&q&Hq&Ha)|(q&Hq&_)]];
    rewrite Ht in Hq; try discriminate.
  injection Hq as <- <-. rewrite Ha. cbn [fst snd].
  split; [reflexivity|]. split; [exact Hs|]. split; [exact Hmsg|].
  destruct (Z.ltb_spec (retry_count (p_task p)) (max_retries m)) as [Hlt|Hge].
  - destruct (retry_state_fields m e p1) as (Hst&Hr&Hem&Hfs&_).
    split; [exact Hs|]. split; [exact Hem|].
    split; [rewrite Hst; discriminate|].
    split; [|lia]. intros _. rewrite Hr, Hrc. auto.
  - destruct (error_state_fields e p1) as (Hst&Hr&Hem&Hgone&_).
    split; [unfold error_state; destruct (p_fs p1 !! _) as [[?|]|]; exact Hs|].
    split; [exact Hem|].
    split; [rewrite Hst; discriminate|].
    split; [lia|]. intros _. rewrite Hr, Hrc.
    split; [exact Hst|]. split; [reflexivity|].
    intros c. rewrite <- (temp_file_ext _ _ Hd Hf). apply Hgone.
Qed.

Lemma stop_is_handled_as_failure_witness :
  let m := new_manager 1 None true 1 in
  let p := admitted (mkProc sample_task ∅ []) in
  let p' := snd (attempt m env_stopped_at_second_chunk p) in
  fst (try_block m env_stopped_at_second_chunk p)
    = Raise (mkExc StopException "Download stopped by user")
  ∧ status (p_task p') = QUEUED
  ∧ retry_count (p_task p') = 1
  ∧ p_fs p' !! temp_file sample_task = Some (File (repeat Byte.x00 3)).
Proof.
  cbn zeta.
  split; [vm_compute; reflexivity|].
  destruct (stop_is_handled_as_failure (new_manager 1 None true 1)
              env_stopped_at_second_chunk (admitted (mkProc sample_task ∅ []))
              (snd (try_block (new_manager 1 None true 1)
                      env_stopped_at_second_chunk
                      (admitted (mkProc sample_task ∅ []))))
              (mkExc StopException "Download stopped by user"))
    as (_&_&_&_&_&_&Hq&_).
  - vm_compute. reflexivity.
  - reflexivity.
  - destruct Hq as (Hs&Hr&Hfs); [vm_compute; reflexivity|].
    split; [exact Hs|]. split; [exact Hr|].
    rewrite Hfs. vm_compute. reflexivity.
Defined.

Lemma alter_not_STOPPED (f : DownloadTask → DownloadTask) (i : nat)
    (h : list DownloadTask) :
  (∀ t, status t ≠ STOPPED → status (f t) ≠ STOPPED) →
  (∀ tid, status (h !!! tid) ≠ STOPPED) →
  ∀ tid, status (alter f i h !!! tid) ≠ STOPPED.
Proof.
  intros Hf Hh tid. rewrite list_lookup_total_alter. case_decide; auto.
Qed.

Lemma start_next_not_STOPPED w :
  (∀ tid, status (w_heap w !!! tid) ≠ STOPPED) →
  ∀ tid, status (w_heap (_start_next_download w) !!! tid) ≠ STOPPED.
Proof.
  intros H tid. destruct (start_next_status_cases w tid) as [->| ->];
    [apply H | discriminate].
Qed.

(** No line of the manager assigns [DownloadStatus.STOPPED]: whatever the
    threads do, and whoever writes the flags of the tasks, no task object is
    ever in that status. *)
Lemma status_never_STOPPED (C : Z) (mds : option Z) (cc : bool) (mr : Z)
    (fs : FS) (w : World) :
  reachable (init_world C mds cc mr fs) w →
  ∀ tid, status (w_heap w !!! tid) ≠ STOPPED.
Proof.
  intros Hr. pattern w. eapply reachable_invariant; [| |exact Hr].
  - intros tid. cbn. rewrite list_lookup_total_alt. cbn. discriminate.
  - clear. intros v v' Hv Hs. destruct Hs.
    + unfold submit, add_download.
      set (v1 := {| w_heap := w_heap v ++ [new_task u d f md]; w_mgr := w_mgr v;
                    w_fs := w_fs v; w_threads := w_threads v; w_log := w_log v |}).
      assert (H1 : ∀ tid, status (w_heap v1 !!! tid) ≠ STOPPED).
      { intros tid. cbn. rewrite !list_lookup_total_alt.
        destruct (Nat.lt_ge_cases tid (length (w_heap v))) as [Hlt|Hge].
        - rewrite lookup_app_l by assumption.
          specialize (Hv tid). rewrite list_lookup_total_alt in Hv. exact Hv.
        - rewrite lookup_app_r by assumption.
          destruct (tid - length (w_heap v))%nat as [|k]; cbn; discriminate. }
      destruct (exists_ _ _); cbn [snd w_heap].
      * apply alter_not_STOPPED; [intros; discriminate | exact H1].
      * destruct (os_makedirs _ _) as [e|fs']; cbn [snd]; [exact H1|].
        apply start_next_not_STOPPED. exact H1.
    + unfold run_attempt.
      destruct (attempt _ _ _) as [r q] eqn:Ha. cbn. intros j.
      rewrite list_lookup_total_insert. case_decide; [|apply Hv].
      destruct r as [[]| |].
      * eapply attempt_never_sets_STOPPED. exact Ha.
      * destruct (attempt_never_raises _ _ _ _ _ Ha).
      * unfold run_attempt in *. rewrite Ha in *. cbn in *. congruence.
    + cbn. apply alter_not_STOPPED; [intros; discriminate | exact Hv].
    + cbn. apply alter_not_STOPPED; [intros; discriminate | exact Hv].
    + exact Hv.
    + apply start_next_not_STOPPED. exact Hv.
    + unfold pause_download. case_bool_decide; [|exact Hv].
      apply alter_not_STOPPED; [intros; assumption | exact Hv].
    + unfold resume_download. case_bool_decide; [|exact Hv].
      apply alter_not_STOPPED; [intros; assumption | exact Hv].
    + cbn. apply alter_not_STOPPED; [|exact Hv].
      intros t Ht. destruct (apply_write_status t fw) as [-> _]. exact Ht.
    + exact Hv.
    + exact Hv.
Qed.
